(** * Cleaning-schedule assistant: the extraction client, the calendar link
      builder and the form controller, embedded and verified.

    Sources embedded here:
    - [src/unnamed/part_000]  the service module holding
      [extractScheduleFromImages] (the component imports it as
      [./services/geminiService]);
    - [src/App.tsx]  the React component: [handleFileChange],
      [handleFormChange], [generateCalendarLink] with its local
      [formatDateTime], [handleProcessImages], the [useEffect] cleanup and
      the click handler of [manualBtn].

    The interface [CleaningScheduleData] of [./types] is not among the
    sources.  TypeScript types are erased before the program runs, and the
    cast [parsedData as CleaningScheduleData] checks nothing, so the record
    is modelled as what it is at run time: whatever value [JSON.parse] built.

    Conventions.
    - A JavaScript string is a Rocq [string] holding its UTF-8 bytes.
    - A JavaScript value that can flow out of [JSON.parse] is a [JSValue];
      [undefined] is added because reading an absent property yields it.
    - What the platform decides and the program cannot see into (the
      environment variable, the date parser behind [new Date(string)], number
      printing, the text of engine-made error messages) is a field of the
      class [Host]; every general theorem holds for every host, and the
      examples run on the concrete host [taipei].
    - The remote service and the file reader are arguments: how their
      promises settle is given, not computed.
    - React state is the record [AppState]; a handler runs in the monad [M],
      which threads the state, the log of setter and platform calls, and a
      thrown value.  A handler reads the state through the snapshot of the
      render that created it, as a closure does.  [dispatch] is one event:
      the handler, then the commit with the effect cleanup.
    - Not modelled: the rendered markup, [console.error], and the strict
      mode of development builds. *)

From Stdlib Require Import String Ascii ZArith List Bool Lia Arith DecimalString.
Import ListNotations.
Open Scope string_scope.

(* ===================================================================== *)
(** * Strings as the program uses them *)
(* ===================================================================== *)

Module Str.

Definition code (c : ascii) : N := N_of_ascii c.

Definition byte (n : N) : ascii := ascii_of_N n.

Fixpoint rev_onto (s acc : string) : string :=
  match s with
  | EmptyString => acc
  | String c r => rev_onto r (String c acc)
  end.

Definition rev (s : string) : string := rev_onto s EmptyString.

Definition is_empty (s : string) : bool :=
  match s with EmptyString => true | String _ _ => false end.

(** [String.prototype.includes]: some suffix of [s] starts with [sub]. *)
Fixpoint includes (s sub : string) : bool :=
  String.prefix sub s ||
  match s with
  | EmptyString => false
  | String _ r => includes r sub
  end.

(** One-byte white space of ECMAScript ([WhiteSpace] and [LineTerminator]):
    U+0009..U+000D and U+0020. *)
Definition ws1 (a : ascii) : bool :=
  let n := code a in ((9 <=? n) && (n <=? 13) || (n =? 32))%N.

(** Two-byte white space: U+00A0 (C2 A0). *)
Definition ws2 (a b : ascii) : bool :=
  ((code a =? 194) && (code b =? 160))%N.

(** Three-byte white space: U+1680 (E1 9A 80), U+2000..U+200A (E2 80 80..8A),
    U+2028, U+2029 (E2 80 A8, A9), U+202F (E2 80 AF), U+205F (E2 81 9F),
    U+3000 (E3 80 80), U+FEFF (EF BB BF). *)
Definition ws3 (a b c : ascii) : bool :=
  let x := code a in let y := code b in let z := code c in
  ((x =? 225) && (y =? 154) && (z =? 128)
   || (x =? 226) && (y =? 128)
      && ((128 <=? z) && (z <=? 138) || (z =? 168) || (z =? 169) || (z =? 175))
   || (x =? 226) && (y =? 129) && (z =? 159)
   || (x =? 227) && (y =? 128) && (z =? 128)
   || (x =? 239) && (y =? 187) && (z =? 191))%N.

Fixpoint trimStart (s : string) : string :=
  match s with
  | EmptyString => s
  | String a r1 =>
      if ws1 a then trimStart r1 else
      match r1 with
      | EmptyString => s
      | String b r2 =>
          if ws2 a b then trimStart r2 else
          match r2 with
          | EmptyString => s
          | String c r3 => if ws3 a b c then trimStart r3 else s
          end
      end
  end.

(** The same scan on the reversed string: a white-space character is met
    last byte first. *)
Fixpoint trimStart_rev (s : string) : string :=
  match s with
  | EmptyString => s
  | String a r1 =>
      if ws1 a then trimStart_rev r1 else
      match r1 with
      | EmptyString => s
      | String b r2 =>
          if ws2 b a then trimStart_rev r2 else
          match r2 with
          | EmptyString => s
          | String c r3 => if ws3 c b a then trimStart_rev r3 else s
          end
      end
  end.

Definition trimEnd (s : string) : string := rev (trimStart_rev (rev s)).

(** [String.prototype.trim]. *)
Definition trim (s : string) : string := trimEnd (trimStart s).

(** The UTF-8 bytes of a code point, last byte first, put before [acc].  A
    lone surrogate takes the three-byte form. *)
Definition utf8_onto (cp : N) (acc : string) : string :=
  let cont (n : N) := byte (N.lor 128 (N.land n 63)) in
  if (cp <? 128)%N then String (byte cp) acc
  else if (cp <? 2048)%N then
    String (cont cp) (String (byte (N.lor 192 (N.shiftr cp 6))) acc)
  else if (cp <? 65536)%N then
    String (cont cp) (String (cont (N.shiftr cp 6))
      (String (byte (N.lor 224 (N.shiftr cp 12))) acc))
  else
    String (cont cp) (String (cont (N.shiftr cp 6))
      (String (cont (N.shiftr cp 12))
        (String (byte (N.lor 240 (N.shiftr cp 18))) acc))).

(** The double-quote character and the line feed, which a Rocq string
    literal does not spell directly. *)
Definition dquote : ascii := byte 34.
Definition LF : string := String (byte 10) EmptyString.

End Str.

(* ===================================================================== *)
(** * JavaScript values, completions and the host *)
(* ===================================================================== *)

(** The values [JSON.parse] can build, and [undefined].  A number keeps the
    text it was written with: the program never computes with one, it only
    tests it for truth and prints it. *)
#[warnings="-register-all"]
Inductive JSValue : Type :=
| JSUndefined
| JSNull
| JSBool (b : bool)
| JSNumber (lexeme : string)
| JSString (s : string)
| JSArray (elems : list JSValue)
| JSObject (props : list (string * JSValue)).

(** What a [throw] carries, as far as [instanceof Error] and [.message]
    can tell. *)
Inductive Thrown : Type :=
| ErrorObject (message : string)
| NotAnError.

Inductive Completion (A : Type) : Type :=
| Normal (a : A)
| Throw (t : Thrown).
Arguments Normal {A} a.
Arguments Throw {A} t.

Definition cbind {A B} (c : Completion A) (k : A -> Completion B) : Completion B :=
  match c with
  | Normal a => k a
  | Throw t => Throw t
  end.

(** The platform the program runs on. *)
Class Host : Type := {
  (** [process.env.API_KEY]. *)
  API_KEY : option string;
  (** The time value, in milliseconds since the epoch, that the date parser
      behind [new Date(string)] reads from a text; [None] when it reads none
      and the date is invalid. *)
  Date_parse : string -> option Z;
  (** [Number.prototype.toString] of the number a JSON numeral denotes. *)
  Number_toString : string -> string;
  (** The message of the [SyntaxError] that [JSON.parse] throws on a text. *)
  SyntaxError_message : string -> string;
  (** The message of the [TypeError] for reading [trim] of [undefined]. *)
  TypeError_read_trim : string;
  (** The message of the [TypeError] for destructuring [null]. *)
  TypeError_destructure : string;
  (** The message of the [TypeError] for an object with no primitive value. *)
  TypeError_primitive : string
}.

Module JS.

Fixpoint has_key (k : string) (props : list (string * JSValue)) : bool :=
  match props with
  | [] => false
  | (k', _) :: r => String.eqb k k' || has_key k r
  end.

Fixpoint get_prop (k : string) (props : list (string * JSValue)) : JSValue :=
  match props with
  | [] => JSUndefined
  | (k', v) :: r => if String.eqb k k' then v else get_prop k r
  end.

(** [CreateDataProperty]: an existing key keeps its place and takes the new
    value, a new key goes last. *)
Fixpoint set_prop (k : string) (v : JSValue) (props : list (string * JSValue))
  : list (string * JSValue) :=
  match props with
  | [] => [(k, v)]
  | (k', v') :: r =>
      if String.eqb k k' then (k, v) :: r else (k', v') :: set_prop k v r
  end.

(** [o.k] for the eight field names of the record: an own property of an
    object, and [undefined] on every other value, none of whose prototypes
    defines a property of one of these names. *)
Definition Get (o : JSValue) (k : string) : JSValue :=
  match o with
  | JSObject props => get_prop k props
  | _ => JSUndefined
  end.

(** The UTF-16 code units of a string, each as a string of its own: a
    character outside the basic plane is two surrogates. *)
Fixpoint code_units (s : string) : list string :=
  let one (c : ascii) := String c EmptyString in
  match s with
  | EmptyString => []
  | String a r =>
      let x := Str.code a in
      if (x <? 192)%N then one a :: code_units r
      else if (x <? 224)%N then
        match r with
        | String b r' => String a (one b) :: code_units r'
        | _ => [one a]
        end
      else if (x <? 240)%N then
        match r with
        | String b (String c r') => String a (String b (one c)) :: code_units r'
        | _ => one a :: code_units r
        end
      else
        match r with
        | String b (String c (String d r')) =>
            let cp := (N.land x 7 * 262144 + N.land (Str.code b) 63 * 4096
                       + N.land (Str.code c) 63 * 64 + N.land (Str.code d) 63)%N in
            let hi := (55296 + N.shiftr (cp - 65536) 10)%N in
            let lo := (56320 + N.land (cp - 65536) 1023)%N in
            Str.rev (Str.utf8_onto hi EmptyString)
            :: Str.rev (Str.utf8_onto lo EmptyString) :: code_units r'
        | _ => one a :: code_units r
        end
  end.

Fixpoint indexed (i : nat) (l : list JSValue) : list (string * JSValue) :=
  match l with
  | [] => []
  | v :: r => (NilEmpty.string_of_uint (Nat.to_uint i), v) :: indexed (S i) r
  end.

(** The own enumerable properties that an object spread copies.  (Their
    order is the order of definition; the program never looks at it.) *)
Definition own_props (v : JSValue) : list (string * JSValue) :=
  match v with
  | JSObject props => props
  | JSArray l => indexed 0 l
  | JSString s => indexed 0 (List.map JSString (code_units s))
  | _ => []
  end.

Section WithHost.
Context `{Host}.

(** [ToBoolean]. *)
Definition truthy (v : JSValue) : bool :=
  match v with
  | JSUndefined | JSNull => false
  | JSBool b => b
  | JSNumber l => negb (String.eqb (Number_toString l) "0")
  | JSString s => negb (Str.is_empty s)
  | JSArray _ | JSObject _ => true
  end.

(** [Array.prototype.join], over a conversion of the elements. *)
Fixpoint join_from (toS : JSValue -> Completion string) (sep : string)
    (first : bool) (l : list JSValue) : Completion string :=
  match l with
  | [] => Normal ""
  | x :: r =>
      cbind (match x with
             | JSUndefined | JSNull => Normal ""
             | _ => toS x
             end) (fun sx =>
      cbind (join_from toS sep false r) (fun sr =>
      Normal ((if first then "" else sep) ++ sx ++ sr)))
  end.

(** [ToString].  An array prints through [join(",")]; an object prints as
    [[object Object]] unless it has an own [toString] property, which after
    [JSON.parse] is never callable, and then the conversion throws. *)
Fixpoint ToString (v : JSValue) : Completion string :=
  match v with
  | JSUndefined => Normal "undefined"
  | JSNull => Normal "null"
  | JSBool true => Normal "true"
  | JSBool false => Normal "false"
  | JSNumber l => Normal (Number_toString l)
  | JSString s => Normal s
  | JSArray l => join_from ToString "," true l
  | JSObject props =>
      if has_key "toString" props
      then Throw (ErrorObject TypeError_primitive)
      else Normal "[object Object]"
  end.

Definition join (l : list JSValue) (sep : string) : Completion string :=
  join_from ToString sep true l.

End WithHost.

End JS.

(* ===================================================================== *)
(** * [JSON.parse] *)
(* ===================================================================== *)

(** The JSON grammar of ECMA-404 as a pushdown recogniser that reads the text
    one byte at a time and builds the value: the stack holds the containers
    that are still open. *)
Module JSON.

Inductive Frame : Type :=
| FArray (done : list JSValue)
    (* elements read so far, newest first *)
| FObject (done : list (string * JSValue)) (key : option string).
    (* properties read so far, and the key whose value is awaited *)

Inductive Expect : Type :=
| XValue              (* a value starts here *)
| XValueOrEnd         (* just after an opening bracket *)
| XKeyOrEnd           (* just after an opening brace *)
| XKey                (* after a comma inside an object *)
| XColon              (* after a key *)
| XMore               (* after a value inside a container *)
| XDone (v : JSValue). (* after the outermost value *)

Inductive NumState : Type :=
| NMinus | NZero | NInt | NDot | NFrac | NExp | NExpSign | NExpDigits.

Inductive Escape : Type :=
| ENone
| EBackslash
| EUnicode (digits : list N). (* hexadecimal digits read so far, newest first *)

Inductive Token : Type :=
| TNone
| TString (acc : string) (hi : option N) (esc : Escape)
    (* bytes so far, newest first; a high surrogate awaiting its mate *)
| TNumber (acc : string) (st : NumState)
| TLiteral (rest : string) (v : JSValue).

Record PState : Type := {
  stack : list Frame;
  expect : Expect;
  tok : Token
}.

Definition is_ws (c : ascii) : bool :=
  let n := Str.code c in ((n =? 32) || (n =? 9) || (n =? 10) || (n =? 13))%N.

Definition is_digit (c : ascii) : bool :=
  let n := Str.code c in ((48 <=? n) && (n <=? 57))%N.

Definition hex_digit (c : ascii) : option N :=
  let n := Str.code c in
  if ((48 <=? n) && (n <=? 57))%N then Some (n - 48)%N
  else if ((65 <=? n) && (n <=? 70))%N then Some (n - 55)%N
  else if ((97 <=? n) && (n <=? 102))%N then Some (n - 87)%N
  else None.

Definition push_utf8 (cp : N) (acc : string) : string := Str.utf8_onto cp acc.

Definition is_high (u : N) : bool := ((55296 <=? u) && (u <=? 56319))%N.
Definition is_low (u : N) : bool := ((56320 <=? u) && (u <=? 57343))%N.

(** A pending high surrogate that found no mate is written out alone. *)
Definition flush (hi : option N) (acc : string) : string :=
  match hi with
  | Some h => push_utf8 h acc
  | None => acc
  end.

(** A code unit written as a [\u] escape joins the string. *)
Definition push_unit (u : N) (hi : option N) (acc : string) : string * option N :=
  match hi with
  | Some h =>
      if is_low u
      then (push_utf8 (65536 + (h - 55296) * 1024 + (u - 56320))%N acc, None)
      else if is_high u then (push_utf8 h acc, Some u)
      else (push_utf8 u (push_utf8 h acc), None)
  | None =>
      if is_high u then (acc, Some u) else (push_utf8 u acc, None)
  end.

(** A finished value goes to the innermost open container, or is the
    result. *)
Definition deliver (v : JSValue) (st : list Frame) : option PState :=
  match st with
  | [] => Some {| stack := []; expect := XDone v; tok := TNone |}
  | FArray done :: r =>
      Some {| stack := FArray (v :: done) :: r; expect := XMore; tok := TNone |}
  | FObject done (Some k) :: r =>
      Some {| stack := FObject (JS.set_prop k v done) None :: r;
              expect := XMore; tok := TNone |}
  | FObject _ None :: _ => None
  end.

(** A finished string is a key where one is expected, a value elsewhere. *)
Definition deliver_string (s : string) (p : PState) : option PState :=
  match expect p with
  | XKeyOrEnd | XKey =>
      match stack p with
      | FObject done None :: r =>
          Some {| stack := FObject done (Some s) :: r; expect := XColon; tok := TNone |}
      | _ => None
      end
  | _ => deliver (JSString s) (stack p)
  end.

Definition close_array (st : list Frame) : option PState :=
  match st with
  | FArray done :: r => deliver (JSArray (List.rev done)) r
  | _ => None
  end.

Definition close_object (st : list Frame) : option PState :=
  match st with
  | FObject done None :: r => deliver (JSObject done) r
  | _ => None
  end.

Definition start_value (c : ascii) (p : PState) : option PState :=
  let with_tok t := Some {| stack := stack p; expect := expect p; tok := t |} in
  let one := String c EmptyString in
  match c with
  | "{"%char => Some {| stack := FObject [] None :: stack p; expect := XKeyOrEnd; tok := TNone |}
  | "["%char => Some {| stack := FArray [] :: stack p; expect := XValueOrEnd; tok := TNone |}
  | "-"%char => with_tok (TNumber one NMinus)
  | "0"%char => with_tok (TNumber one NZero)
  | "t"%char => with_tok (TLiteral "rue" (JSBool true))
  | "f"%char => with_tok (TLiteral "alse" (JSBool false))
  | "n"%char => with_tok (TLiteral "ull" JSNull)
  | _ =>
      if Ascii.eqb c Str.dquote then with_tok (TString EmptyString None ENone)
      else if is_digit c then with_tok (TNumber one NInt)
      else None
  end.

(** A byte met between tokens. *)
Definition step_between (c : ascii) (p : PState) : option PState :=
  if is_ws c then Some p else
  match expect p with
  | XValue => start_value c p
  | XValueOrEnd =>
      if Ascii.eqb c "]" then close_array (stack p) else start_value c p
  | XKeyOrEnd =>
      if Ascii.eqb c "}" then close_object (stack p)
      else if Ascii.eqb c Str.dquote
      then Some {| stack := stack p; expect := XKeyOrEnd; tok := TString EmptyString None ENone |}
      else None
  | XKey =>
      if Ascii.eqb c Str.dquote
      then Some {| stack := stack p; expect := XKey; tok := TString EmptyString None ENone |}
      else None
  | XColon =>
      if Ascii.eqb c ":"
      then Some {| stack := stack p; expect := XValue; tok := TNone |}
      else None
  | XMore =>
      match stack p with
      | FArray _ :: _ =>
          if Ascii.eqb c ","
          then Some {| stack := stack p; expect := XValue; tok := TNone |}
          else if Ascii.eqb c "]" then close_array (stack p)
          else None
      | FObject _ None :: _ =>
          if Ascii.eqb c ","
          then Some {| stack := stack p; expect := XKey; tok := TNone |}
          else if Ascii.eqb c "}" then close_object (stack p)
          else None
      | _ => None
      end
  | XDone _ => None
  end.

Definition num_next (st : NumState) (c : ascii) : option NumState :=
  let d := is_digit c in
  let e := Ascii.eqb c "e" || Ascii.eqb c "E" in
  let dot := Ascii.eqb c "." in
  match st with
  | NMinus => if Ascii.eqb c "0" then Some NZero else if d then Some NInt else None
  | NZero => if dot then Some NDot else if e then Some NExp else None
  | NInt => if d then Some NInt else if dot then Some NDot else if e then Some NExp else None
  | NDot => if d then Some NFrac else None
  | NFrac => if d then Some NFrac else if e then Some NExp else None
  | NExp =>
      if Ascii.eqb c "+" || Ascii.eqb c "-" then Some NExpSign
      else if d then Some NExpDigits else None
  | NExpSign => if d then Some NExpDigits else None
  | NExpDigits => if d then Some NExpDigits else None
  end.

Definition num_final (st : NumState) : bool :=
  match st with
  | NZero | NInt | NFrac | NExpDigits => true
  | _ => false
  end.

Definition simple_escape (c : ascii) : option N :=
  match c with
  | "\"%char => Some 92%N
  | "/"%char => Some 47%N
  | "b"%char => Some 8%N
  | "f"%char => Some 12%N
  | "n"%char => Some 10%N
  | "r"%char => Some 13%N
  | "t"%char => Some 9%N
  | _ => if Ascii.eqb c Str.dquote then Some 34%N else None
  end.

(** A byte met inside a string. *)
Definition step_string (c : ascii) (acc : string) (hi : option N) (esc : Escape)
    (p : PState) : option PState :=
  let go acc hi esc :=
    Some {| stack := stack p; expect := expect p; tok := TString acc hi esc |} in
  match esc with
  | ENone =>
      if Ascii.eqb c Str.dquote then deliver_string (Str.rev (flush hi acc)) p
      else if Ascii.eqb c "\" then go acc hi EBackslash
      else if (Str.code c <? 32)%N then None
      else go (String c (flush hi acc)) None ENone
  | EBackslash =>
      if Ascii.eqb c "u" then go acc hi (EUnicode [])
      else match simple_escape c with
           | Some n => go (String (Str.byte n) (flush hi acc)) None ENone
           | None => None
           end
  | EUnicode ds =>
      match hex_digit c with
      | None => None
      | Some d =>
          match ds with
          | [d3; d2; d1] =>
              let u := (((d1 * 16 + d2) * 16 + d3) * 16 + d)%N in
              let '(acc', hi') := push_unit u hi acc in
              go acc' hi' ENone
          | _ => go acc hi (EUnicode (d :: ds))
          end
      end
  end.

Definition step (p : PState) (c : ascii) : option PState :=
  match tok p with
  | TNone => step_between c p
  | TString acc hi esc => step_string c acc hi esc p
  | TNumber acc st =>
      match num_next st c with
      | Some st' =>
          Some {| stack := stack p; expect := expect p; tok := TNumber (String c acc) st' |}
      | None =>
          if num_final st
          then match deliver (JSNumber (Str.rev acc)) (stack p) with
               | Some p' => step_between c p'
               | None => None
               end
          else None
      end
  | TLiteral rest v =>
      match rest with
      | String c' rest' =>
          if Ascii.eqb c c'
          then if Str.is_empty rest' then deliver v (stack p)
               else Some {| stack := stack p; expect := expect p; tok := TLiteral rest' v |}
          else None
      | EmptyString => None
      end
  end.

Fixpoint run (s : string) (p : PState) : option PState :=
  match s with
  | EmptyString => Some p
  | String c r =>
      match step p c with
      | Some p' => run r p'
      | None => None
      end
  end.

Definition finish (p : PState) : option JSValue :=
  match tok p, expect p with
  | TNone, XDone v => Some v
  | TNumber acc st, _ =>
      if num_final st
      then match deliver (JSNumber (Str.rev acc)) (stack p) with
           | Some {| expect := XDone v |} => Some v
           | _ => None
           end
      else None
  | _, _ => None
  end.

Definition initial : PState := {| stack := []; expect := XValue; tok := TNone |}.

(** The value a text denotes, or [None] when the text is not JSON. *)
Definition read (text : string) : option JSValue :=
  match run text initial with
  | Some p => finish p
  | None => None
  end.

(** [JSON.parse(text)]. *)
Definition parse `{Host} (text : string) : Completion JSValue :=
  match read text with
  | Some v => Normal v
  | None => Throw (ErrorObject (SyntaxError_message text))
  end.

End JSON.

(* ===================================================================== *)
(** * Dates: [new Date(string)], [toISOString] and the compact form *)
(* ===================================================================== *)

Module DateTime.

Open Scope Z_scope.

Definition msPerDay : Z := 86400000.

(** The largest magnitude of a time value ([TimeClip]). *)
Definition maxTime : Z := 8640000000000000.

(** [new Date(s).getTime()]: what the host's parser read, clipped; [None]
    stands for [NaN]. *)
Definition new_Date `{Host} (s : string) : option Z :=
  match Date_parse s with
  | Some t => if (- maxTime <=? t) && (t <=? maxTime) then Some t else None
  | None => None
  end.

(** Days since the epoch of the first day of the proleptic Gregorian
    calendar date [y]-[m]-[d] ([MakeDay]). *)
Definition days_from_civil (y m d : Z) : Z :=
  let y' := if m <=? 2 then y - 1 else y in
  let era := y' / 400 in
  let yoe := y' - era * 400 in
  let mp := if 2 <? m then m - 3 else m + 9 in
  let doy := (153 * mp + 2) / 5 + d - 1 in
  let doe := yoe * 365 + yoe / 4 - yoe / 100 + doy in
  era * 146097 + doe - 719468.

(** The calendar date of a day number ([YearFromTime], [MonthFromTime],
    [DateFromTime], with months counted from 1). *)
Definition civil_from_days (z : Z) : Z * Z * Z :=
  let z' := z + 719468 in
  let era := z' / 146097 in
  let doe := z' - era * 146097 in
  let yoe := (doe - doe / 1460 + doe / 36524 - doe / 146096) / 365 in
  let doy := doe - (365 * yoe + yoe / 4 - yoe / 100) in
  let mp := (5 * doy + 2) / 153 in
  let d := doy - (153 * mp + 2) / 5 + 1 in
  let m := if mp <? 10 then mp + 3 else mp - 9 in
  let y := yoe + era * 400 in
  ((if m <=? 2 then y + 1 else y), m, d).

Definition digit (n : Z) : ascii := Str.byte (Z.to_N (48 + n mod 10)).

(** The last [w] decimal digits of [n], zero padded. *)
Fixpoint digits (w : nat) (n : Z) : string :=
  match w with
  | O => EmptyString
  | S w' => digits w' (n / 10) ++ String (digit n) EmptyString
  end.

(** Four digits for the years 0 to 9999, a sign and six digits outside. *)
Definition year_string (y : Z) : string :=
  if (0 <=? y) && (y <=? 9999) then digits 4 y
  else if y <? 0 then ("-" ++ digits 6 (- y))%string
  else ("+" ++ digits 6 y)%string.

Definition date_string (day : Z) : string :=
  let '(y, m, d) := civil_from_days day in
  (year_string y ++ "-" ++ digits 2 m ++ "-" ++ digits 2 d)%string.

Definition time_string (ms : Z) : string :=
  let hh := ms / 3600000 in
  let mm := ms / 60000 mod 60 in
  let ss := ms / 1000 mod 60 in
  let sss := ms mod 1000 in
  (digits 2 hh ++ ":" ++ digits 2 mm ++ ":" ++ digits 2 ss ++ "." ++ digits 3 sss)%string.

(** [Date.prototype.toISOString] of a valid time value:
    [YYYY-MM-DDTHH:mm:ss.sssZ], in UTC. *)
Definition toISOString (t : Z) : string :=
  let day := t / msPerDay in
  let timeInDay := t mod msPerDay in
  (date_string day ++ "T" ++ time_string timeInDay ++ "Z")%string.

(** [s.replace(/-|:|\.\d{3}/g, '')]: every hyphen, every colon and every
    full stop followed by three digits goes. *)
Fixpoint strip_punctuation (s : string) : string :=
  match s with
  | EmptyString => EmptyString
  | String c r =>
      if Ascii.eqb c "-" || Ascii.eqb c ":" then strip_punctuation r
      else if Ascii.eqb c "." then
        match r with
        | String d1 (String d2 (String d3 r')) =>
            if JSON.is_digit d1 && JSON.is_digit d2 && JSON.is_digit d3
            then strip_punctuation r'
            else String c (strip_punctuation r)
        | _ => String c (strip_punctuation r)
        end
      else String c (strip_punctuation r)
  end.

End DateTime.

(* ===================================================================== *)
(** * [URLSearchParams]: the form-urlencoded serialiser *)
(* ===================================================================== *)

Module URLSearchParams.

(** Conversion to a [USVString]: a lone surrogate (in UTF-8 bytes,
    ED A0..BF xx) becomes U+FFFD (EF BF BD). *)
Fixpoint USVString (s : string) : string :=
  match s with
  | EmptyString => EmptyString
  | String a r =>
      match r with
      | String b (String c r') =>
          if ((Str.code a =? 237) && (160 <=? Str.code b) && (Str.code b <=? 191)
              && (128 <=? Str.code c) && (Str.code c <=? 191))%N
          then String (Str.byte 239) (String (Str.byte 191) (String (Str.byte 189)
                 (USVString r')))
          else String a (USVString r)
      | _ => String a (USVString r)
      end
  end.

(** Bytes the serialiser leaves as they are: ASCII letters and digits and
    [*], [-], [.], [_]. *)
Definition unreserved (c : ascii) : bool :=
  let n := Str.code c in
  ((48 <=? n) && (n <=? 57) || (65 <=? n) && (n <=? 90) || (97 <=? n) && (n <=? 122)
   || (n =? 42) || (n =? 45) || (n =? 46) || (n =? 95))%N.

Definition hex (n : N) : ascii :=
  if (n <? 10)%N then Str.byte (48 + n) else Str.byte (55 + n).

Fixpoint encode (s : string) : string :=
  match s with
  | EmptyString => EmptyString
  | String c r =>
      if unreserved c then String c (encode r)
      else if Ascii.eqb c " " then String "+" (encode r)
      else String "%" (String (hex (Str.code c / 16)) (String (hex (Str.code c mod 16))
             (encode r)))
  end.

(** [new URLSearchParams(record)]: names and values as [USVString]s, in the
    order of the record. *)
Definition create (record : list (string * string)) : list (string * string) :=
  List.map (fun '(k, v) => (USVString k, USVString v)) record.

(** [params.toString()]. *)
Fixpoint toString (params : list (string * string)) : string :=
  match params with
  | [] => EmptyString
  | [(k, v)] => encode k ++ "=" ++ encode v
  | (k, v) :: r => encode k ++ "=" ++ encode v ++ "&" ++ toString r
  end.

End URLSearchParams.

(* ===================================================================== *)
(** * The Field Extraction Client ([services/geminiService]) *)
(* ===================================================================== *)

Module geminiService.

Record InlineData : Type := { data : string; mimeType : string }.

Inductive Part : Type :=
| TextPart (text : string)
| ImagePart (inlineData : InlineData).

(** [responseSchema]: an object schema with eight properties, each of type
    string; it names no property as required.  The per-property
    descriptions are prose for the remote model and are left out. *)
Definition responseSchema : list string :=
  ["area"; "name"; "phone"; "date"; "startTime"; "endTime"; "address"; "notes"].

Definition systemPrompt : string :=
  "You are an assistant specialized in extracting customer cleaning appointment information from images. Your task is to consolidate information from all provided images to extract 'area', 'customer name', 'customer phone', 'cleaning date', 'start time', 'end time', 'cleaning address', and 'customer notes/requests', and output it in the specified JSON format. For the 'notes' field, pay special attention to extracting ALL text specifically designated as '給管家的備註' (notes for the housekeeper). It is crucial to capture the full, complete, and verbatim text of these notes without any summarization or omission. The cleaning date must be converted to YYYY-MM-DD format, and times to HH:MM (24-hour) format. If any piece of information cannot be found, use an empty string for its value.".

Definition userQuery : string :=
  "Please consolidate and extract all customer cleaning appointment information from these images.".

(** The argument of [ai.models.generateContent]. *)
Record Request : Type := {
  model : string;
  parts : list Part;
  systemInstruction : string;
  responseMimeType : string;
  schema : list string
}.

(** The remote service: how the promise of one call settles.  A fulfilled
    call carries [response.text], which the client library types as a
    string or [undefined]. *)
Definition Remote : Type := Request -> Completion (option string).

Definition not_configured : string := "Gemini API key is not configured.".
Definition no_content : string := "AI did not return any content.".
Definition key_not_valid : string :=
  "The provided Gemini API key is not valid. Please check your configuration.".
Definition failed_to_process : string :=
  "Failed to process images with AI. The AI may be temporarily unavailable or the request was blocked.".

(** [!apiKey]. *)
Definition no_apiKey `{Host} : bool :=
  match API_KEY with
  | None => true
  | Some k => Str.is_empty k
  end.

(** The body of the [try] block. *)
Definition call_and_parse `{Host} (generateContent : Remote) (request : Request)
  : Completion JSValue :=
  cbind (generateContent request) (fun response_text =>
  cbind (match response_text with
         | Some t => Normal (Str.trim t)
         | None => Throw (ErrorObject TypeError_read_trim)
         end) (fun jsonText =>
  if Str.is_empty jsonText then Throw (ErrorObject no_content)
  else
    (* return parsedData as CleaningScheduleData: the cast checks nothing *)
    JSON.parse jsonText)).

(** The [catch] block: whatever was thrown inside the [try] block is
    replaced by one of two errors. *)
Definition rethrow {A} (error : Thrown) : Completion A :=
  match error with
  | ErrorObject message =>
      if Str.includes message "API key not valid"
      then Throw (ErrorObject key_not_valid)
      else Throw (ErrorObject failed_to_process)
  | NotAnError => Throw (ErrorObject failed_to_process)
  end.

(** The request [extractScheduleFromImages] sends. *)
Definition request_for (imageParts : list InlineData) : Request :=
  {| model := "gemini-2.5-flash";
     parts := TextPart userQuery :: List.map ImagePart imageParts;
     systemInstruction := systemPrompt;
     responseMimeType := "application/json";
     schema := responseSchema |}.

(** How the promise returned by [extractScheduleFromImages(imageParts)]
    settles. *)
Definition extractScheduleFromImages `{Host} (generateContent : Remote)
    (imageParts : list InlineData) : Completion JSValue :=
  if no_apiKey then Throw (ErrorObject not_configured)
  else
    match call_and_parse generateContent (request_for imageParts) with
    | Normal parsedData => Normal parsedData
    | Throw error => rethrow error
    end.

End geminiService.

(* ===================================================================== *)
(** * The Form State Controller and the Calendar Link Builder ([App]) *)
(* ===================================================================== *)

Module App.

(** A [File], as far as the component reads it. *)
Record File : Type := { file_name : string; file_type : string }.

(** The string [URL.createObjectURL] returns: opaque, and new at each call. *)
Inductive ObjectURL : Type := blob (n : nat).

Record Message : Type := { text : string; isError : bool }.

(** The six [useState] cells of the component. *)
Record AppState : Type := {
  formData : JSValue;
  selectedFiles : list File;
  imagePreviews : list ObjectURL;
  isLoading : bool;
  message : option Message;
  calendarLink : string
}.

Definition initialFormData : JSValue :=
  JSObject [("area", JSString ""); ("name", JSString ""); ("phone", JSString "");
            ("date", JSString ""); ("startTime", JSString "09:00");
            ("endTime", JSString "10:00"); ("address", JSString "");
            ("notes", JSString "")].

Definition initialState : AppState :=
  {| formData := initialFormData; selectedFiles := []; imagePreviews := [];
     isLoading := false; message := None; calendarLink := "" |}.

(** What a handler does besides computing: the calls of state setters and of
    platform functions, in the order they are made. *)
Inductive Call : Type :=
| Call_setFormData (v : JSValue)
| Call_setSelectedFiles (files : list File)
| Call_setImagePreviews (urls : list ObjectURL)
| Call_setIsLoading (b : bool)
| Call_setMessage (m : option Message)
| Call_setCalendarLink (s : string)
| Call_revokeObjectURL (u : ObjectURL)
| Call_createObjectURL (f : File) (u : ObjectURL)
| Call_window_open (url target : string).

(** The component together with the part of the platform it acts on. *)
Record Env : Type := {
  state : AppState;
  log : list Call;      (* oldest first *)
  next_blob : nat       (* object URLs handed out so far *)
}.

Definition initialEnv : Env :=
  {| state := initialState; log := []; next_blob := 0 |}.

(** What a call does to the state cells: a setter replaces its cell, a
    platform call touches none. *)
Definition apply_call (c : Call) (s : AppState) : AppState :=
  match c with
  | Call_setFormData v =>
      {| formData := v; selectedFiles := selectedFiles s;
         imagePreviews := imagePreviews s; isLoading := isLoading s;
         message := message s; calendarLink := calendarLink s |}
  | Call_setSelectedFiles files =>
      {| formData := formData s; selectedFiles := files;
         imagePreviews := imagePreviews s; isLoading := isLoading s;
         message := message s; calendarLink := calendarLink s |}
  | Call_setImagePreviews urls =>
      {| formData := formData s; selectedFiles := selectedFiles s;
         imagePreviews := urls; isLoading := isLoading s;
         message := message s; calendarLink := calendarLink s |}
  | Call_setIsLoading b =>
      {| formData := formData s; selectedFiles := selectedFiles s;
         imagePreviews := imagePreviews s; isLoading := b;
         message := message s; calendarLink := calendarLink s |}
  | Call_setMessage m =>
      {| formData := formData s; selectedFiles := selectedFiles s;
         imagePreviews := imagePreviews s; isLoading := isLoading s;
         message := m; calendarLink := calendarLink s |}
  | Call_setCalendarLink l =>
      {| formData := formData s; selectedFiles := selectedFiles s;
         imagePreviews := imagePreviews s; isLoading := isLoading s;
         message := message s; calendarLink := l |}
  | Call_revokeObjectURL _ | Call_createObjectURL _ _ | Call_window_open _ _ => s
  end.

(** One call made: logged, and its effect done. *)
Definition after_call (e : Env) (c : Call) : Env :=
  {| state := apply_call c (state e);
     log := log e ++ [c];
     next_blob := match c with
                  | Call_createObjectURL _ _ => S (next_blob e)
                  | _ => next_blob e
                  end |}.

Definition after_calls (e : Env) (cs : list Call) : Env :=
  List.fold_left after_call cs e.

(** ** The handler monad *)

Definition M (A : Type) : Type := Env -> Completion A * Env.

Definition ret {A} (a : A) : M A := fun e => (Normal a, e).

Definition bind {A B} (m : M A) (k : A -> M B) : M B :=
  fun e =>
    match m e with
    | (Normal a, e') => k a e'
    | (Throw t, e') => (Throw t, e')
    end.

Definition lift {A} (c : Completion A) : M A := fun e => (c, e).

Definition throw {A} (t : Thrown) : M A := lift (Throw t).

(** [try { body } catch (error) { handler }]. *)
Definition try_catch {A} (body : M A) (handler : Thrown -> M A) : M A :=
  fun e =>
    match body e with
    | (Normal a, e') => (Normal a, e')
    | (Throw t, e') => handler t e'
    end.

(** [try { body } finally { final }]. *)
Definition try_finally {A} (body : M A) (final : M unit) : M A :=
  fun e =>
    match body e with
    | (r, e') =>
        match final e' with
        | (Normal _, e'') => (r, e'')
        | (Throw t, e'') => (Throw t, e'')
        end
    end.

Declare Scope handler_scope.
Delimit Scope handler_scope with handler.
Notation "x <- m ;; k" := (bind m (fun x => k))
  (at level 61, m at next level, right associativity) : handler_scope.
Notation "m ;; k" := (bind m (fun _ => k))
  (at level 61, right associativity) : handler_scope.
Open Scope handler_scope.

Definition perform (c : Call) : M unit := fun e => (Normal tt, after_call e c).

Definition setFormData (v : JSValue) : M unit := perform (Call_setFormData v).
Definition setSelectedFiles (files : list File) : M unit :=
  perform (Call_setSelectedFiles files).
Definition setImagePreviews (urls : list ObjectURL) : M unit :=
  perform (Call_setImagePreviews urls).
Definition setIsLoading (b : bool) : M unit := perform (Call_setIsLoading b).
Definition setMessage (m : option Message) : M unit := perform (Call_setMessage m).
Definition setCalendarLink (l : string) : M unit := perform (Call_setCalendarLink l).

(** [URL.revokeObjectURL(url)]. *)
Definition revokeObjectURL (u : ObjectURL) : M unit := perform (Call_revokeObjectURL u).

(** [URL.createObjectURL(file)]: a URL that no earlier call returned. *)
Definition createObjectURL (f : File) : M ObjectURL :=
  fun e =>
    let u := blob (next_blob e) in
    (Normal u, after_call e (Call_createObjectURL f u)).

(** [window.open(url, target)]. *)
Definition window_open (url target : string) : M unit :=
  perform (Call_window_open url target).

(** [array.forEach(f)]. *)
Fixpoint forEach {A} (l : list A) (f : A -> M unit) : M unit :=
  match l with
  | [] => ret tt
  | x :: r => f x ;; forEach r f
  end.

(** [array.map(f)] for an [f] that acts. *)
Fixpoint mapM {A B} (f : A -> M B) (l : list A) : M (list B) :=
  match l with
  | [] => ret []
  | x :: r => y <- f x ;; ys <- mapM f r ;; ret (y :: ys)
  end.

(** ** The handlers *)

Section Handlers.
Context `{Host}.

(** The cleanup returned by the effect: it revokes the previews of the
    render that registered it. *)
Definition effect_cleanup (previews : list ObjectURL) : M unit :=
  forEach previews revokeObjectURL.

(** [handleFileChange], in the render whose state is [render];
    [target_files] is [e.target.files], which may be [null]. *)
Definition handleFileChange (render : AppState) (target_files : option (list File))
  : M unit :=
  setMessage None ;;
  setCalendarLink "" ;;
  let files := match target_files with Some l => l | None => [] end in
  setSelectedFiles files ;;
  (* Revoke old previews *)
  forEach (imagePreviews render) revokeObjectURL ;;
  if (0 <? List.length files)%nat then
    newPreviews <- mapM createObjectURL files ;;
    setImagePreviews newPreviews
  else
    setImagePreviews [].

(** [handleFormChange]: [setFormData(prev => ({ ...prev, [id]: value }))],
    where [id] and [value] are the id and the value of the input that
    changed.  The update function is applied to the record of the moment. *)
Definition handleFormChange (id value : string) : M unit :=
  fun e =>
    let prev := formData (state e) in
    setFormData (JSObject (JS.set_prop id (JSString value) (JS.own_props prev))) e.

Definition missing_fields : Message :=
  {| text := "錯誤：清潔日期、開始時間和結束時間為必填欄位。"; isError := true |}.

Definition invalid_format : Message :=
  {| text := "錯誤：日期時間格式無效，請檢查日期與時間欄位。"; isError := true |}.

Definition manual_success : Message :=
  {| text := "手動生成成功，已開啟 Google 日曆事件頁面。"; isError := false |}.

Definition auto_success : Message :=
  {| text := "AI 識別成功，已自動填表並開啟日曆頁面。"; isError := false |}.

(** The local [formatDateTime] of [generateCalendarLink]: its [catch] turns
    every throw of the [try] block into [null]. *)
Definition formatDateTime (dateStr timeStr : JSValue) : option string :=
  match
    cbind (JS.ToString dateStr) (fun d =>
    cbind (JS.ToString timeStr) (fun t =>
    match DateTime.new_Date (d ++ "T" ++ t) with
    | None => Throw (ErrorObject "Invalid date/time")
    | Some dt => Normal (DateTime.strip_punctuation (DateTime.toISOString dt))
    end))
  with
  | Normal s => Some s
  | Throw _ => None
  end.

(** [!x] for a string or [null]. *)
Definition not_ (x : option string) : bool :=
  match x with
  | None => true
  | Some s => Str.is_empty s
  end.

Definition or_else (x : option string) (d : string) : string :=
  match x with Some s => s | None => d end.

(** [[area, name, phone].filter(p => p).join(' | ')]. *)
Definition titleParts (area name phone : JSValue) : Completion string :=
  JS.join (List.filter JS.truthy [area; name; phone]) " | ".

(** [`【清潔排班】${titleParts || '新預約'}`]. *)
Definition eventTitle (parts : string) : string :=
  "【清潔排班】" ++ (if Str.is_empty parts then "新預約" else parts).

(** [`服務地址：${address}\n${notes ? `清潔要求/備註：${notes}` : ''}`.trim()]. *)
Definition eventDetails (address notes : JSValue) : Completion string :=
  cbind (JS.ToString address) (fun a =>
  cbind (if JS.truthy notes
         then cbind (JS.ToString notes) (fun n => Normal ("清潔要求/備註：" ++ n))
         else Normal "") (fun n =>
  Normal (Str.trim ("服務地址：" ++ a ++ Str.LF ++ n)))).

(** The record handed to [new URLSearchParams]; the value of [location] is
    the field itself and is converted to a string there. *)
Definition link_params (title start_ end_ details location : string)
  : list (string * string) :=
  URLSearchParams.create
    [("action", "TEMPLATE"); ("text", title); ("dates", start_ ++ "/" ++ end_);
     ("details", details); ("location", location); ("ctz", "Asia/Taipei")].

Definition finalUrl (params : list (string * string)) : string :=
  "https://www.google.com/calendar/render?" ++ URLSearchParams.toString params.

(** [generateCalendarLink(data, isManual)]. *)
Definition generateCalendarLink (data : JSValue) (isManual : bool) : M unit :=
  match data with
  | JSUndefined | JSNull => throw (ErrorObject TypeError_destructure)
  | _ =>
      let date := JS.Get data "date" in
      let startTime := JS.Get data "startTime" in
      let endTime := JS.Get data "endTime" in
      let area := JS.Get data "area" in
      let name := JS.Get data "name" in
      let phone := JS.Get data "phone" in
      let address := JS.Get data "address" in
      let notes := JS.Get data "notes" in
      if negb (JS.truthy date) || negb (JS.truthy startTime) || negb (JS.truthy endTime)
      then setMessage (Some missing_fields)
      else
        let start_ := formatDateTime date startTime in
        let end_ := formatDateTime date endTime in
        if not_ start_ || not_ end_
        then setMessage (Some invalid_format)
        else
          parts <- lift (titleParts area name phone) ;;
          details <- lift (eventDetails address notes) ;;
          location <- lift (JS.ToString address) ;;
          let params :=
            link_params (eventTitle parts) (or_else start_ "") (or_else end_ "")
                        details location in
          setCalendarLink (finalUrl params) ;;
          window_open (finalUrl params) "_blank" ;;
          if isManual then setMessage (Some manual_success)
          else setMessage (Some auto_success)
  end.

Definition no_files : Message :=
  {| text := "錯誤：請先上傳包含預約資訊的圖片檔案。"; isError := true |}.

Definition extraction_failed (errorMessage : string) : Message :=
  {| text := "自動識別失敗：" ++ errorMessage ++ " 請檢查圖片清晰度，或手動輸入資料。";
     isError := true |}.

(** What the platform delivers while [handleProcessImages] is suspended: how
    reading each file settles ([fileToBase64], which rejects with the
    reader's event, not an [Error]) and how the remote call settles. *)
Record Awaited : Type := {
  fileToBase64 : File -> Completion string;
  generateContent : geminiService.Remote
}.

(** [Promise.all(selectedFiles.map(async file => ...))]: the parts in the
    order of the files, or the first rejection. *)
Fixpoint imageParts (io : Awaited) (files : list File)
  : Completion (list geminiService.InlineData) :=
  match files with
  | [] => Normal []
  | file :: r =>
      cbind (fileToBase64 io file) (fun d =>
      cbind (imageParts io r) (fun ps =>
      Normal ({| geminiService.data := d; geminiService.mimeType := file_type file |}
              :: ps)))
  end.

(** [handleProcessImages] up to its first [await].  It yields the files it
    closed over when it suspends, and nothing when it has returned. *)
Definition handleProcessImages_begin (render : AppState) : M (option (list File)) :=
  if (List.length (selectedFiles render) =? 0)%nat then
    setMessage (Some no_files) ;;
    ret None
  else
    setIsLoading true ;;
    setMessage None ;;
    setCalendarLink "" ;;
    ret (Some (selectedFiles render)).

(** [handleProcessImages] from its first [await] on: the rest of the [try]
    block, the [catch] block and the [finally] block.  Nothing between the
    two [await]s touches the state, so both are resumed in one step. *)
Definition handleProcessImages_resume (files : list File) (io : Awaited) : M unit :=
  try_finally
    (try_catch
       (parts <- lift (imageParts io files) ;;
        extractedData <-
          lift (geminiService.extractScheduleFromImages (generateContent io) parts) ;;
        setFormData extractedData ;;
        generateCalendarLink extractedData false)
       (fun error =>
          let errorMessage :=
            match error with
            | ErrorObject m => m
            | NotAnError => "發生未知錯誤。"
            end in
          setMessage (Some (extraction_failed errorMessage))))
    (setIsLoading false).

(** The click handler of [manualBtn]. *)
Definition manualBtn_onClick (render : AppState) : M unit :=
  generateCalendarLink (formData render) true.

(** ** Events and renders *)

Inductive Event : Type :=
| FileChange (target_files : option (list File))
| FormChange (id value : string)
| ProcessClick
| ProcessSettled (files : list File) (io : Awaited)
| ManualClick.

(** Both buttons carry [disabled={isLoading}]: a disabled button receives no
    click. *)
Definition enabled (s : AppState) (ev : Event) : bool :=
  match ev with
  | ProcessClick | ManualClick => negb (isLoading s)
  | _ => true
  end.

Definition handler (render : AppState) (ev : Event) : M unit :=
  match ev with
  | FileChange fs => handleFileChange render fs
  | FormChange id value => handleFormChange id value
  | ProcessClick => _ <- handleProcessImages_begin render ;; ret tt
  | ProcessSettled files io => handleProcessImages_resume files io
  | ManualClick => manualBtn_onClick render
  end.

Definition sets_previews (c : Call) : bool :=
  match c with Call_setImagePreviews _ => true | _ => false end.

(** One event.  The handler of the current render runs; a throw out of it is
    reported by React and unwinds nothing.  Then React renders again and
    commits: if the handler has set [imagePreviews], the dependency of the
    effect has changed (a new array is a new object whatever it holds), so
    the cleanup of the previous effect runs.  That cleanup was registered by
    the latest render in which [imagePreviews] changed, so the previews it
    closed over are those of the state the handler started from. *)
Definition dispatch (ev : Event) (e : Env) : Env :=
  let e1 := snd (handler (state e) ev e) in
  let made := List.skipn (List.length (log e)) (log e1) in
  if List.existsb sets_previews made
  then snd (effect_cleanup (imagePreviews (state e)) e1)
  else e1.

End Handlers.

End App.

(* ===================================================================== *)
(** * Reading a link back: the query parameters of a URL *)
(* ===================================================================== *)

(** What [new URL(link).searchParams.get(name)] computes: the form-urlencoded
    parser applied to the query of the link. *)
Module URL.

Definition hex_value (c : ascii) : option N := JSON.hex_digit c.

(** Percent-decoding, with [+] read as a space. *)
Fixpoint decode (s : string) : string :=
  match s with
  | EmptyString => EmptyString
  | String c r =>
      if Ascii.eqb c "+" then String " " (decode r)
      else if Ascii.eqb c "%" then
        match r with
        | String h1 (String h2 r') =>
            match hex_value h1, hex_value h2 with
            | Some a, Some b => String (Str.byte (a * 16 + b)) (decode r')
            | _, _ => String c (decode r)
            end
        | _ => String c (decode r)
        end
      else String c (decode r)
  end.

(** The text before the first [sep], and the text after it when there is
    one. *)
Fixpoint cut (sep : ascii) (s : string) : string * option string :=
  match s with
  | EmptyString => (EmptyString, None)
  | String c r =>
      if Ascii.eqb c sep then (EmptyString, Some r)
      else let '(a, b) := cut sep r in (String c a, b)
  end.

(** The pieces between the occurrences of [sep]. *)
Fixpoint split (sep : ascii) (s : string) : list string :=
  match s with
  | EmptyString => [EmptyString]
  | String c r =>
      if Ascii.eqb c sep then EmptyString :: split sep r
      else match split sep r with
           | p :: ps => String c p :: ps
           | [] => [String c EmptyString]
           end
  end.

Definition pair_of (piece : string) : string * string :=
  let '(k, v) := cut "=" piece in
  (decode k, decode (match v with Some x => x | None => EmptyString end)).

(** The form-urlencoded parser: empty pieces are skipped. *)
Definition parse_query (q : string) : list (string * string) :=
  List.map pair_of (List.filter (fun p => negb (Str.is_empty p)) (split "&" q)).

(** The query of a link: what follows the first [?], up to a [#]. *)
Definition query (link : string) : string :=
  match snd (cut "?" (fst (cut "#" link))) with
  | Some q => q
  | None => EmptyString
  end.

Fixpoint lookup (name : string) (l : list (string * string)) : option string :=
  match l with
  | [] => None
  | (k, v) :: r => if String.eqb k name then Some v else lookup name r
  end.

(** [new URL(link).searchParams.get(name)]. *)
Definition searchParam (link name : string) : option string :=
  lookup name (parse_query (query link)).

End URL.

(* ===================================================================== *)
(** * A concrete host: a browser in a zone at a fixed offset from UTC *)
(* ===================================================================== *)

(** The date-time string format of ECMAScript, read the way the language
    prescribes: [YYYY], [YYYY-MM] or [YYYY-MM-DD], then nothing (a date alone
    is a UTC date) or [T], [HH:mm], optional [:ss], optional [.sss], and
    nothing (local time), [Z] or a signed [HH:mm] offset.  A text outside the
    format reads as no date, which the language leaves to the engine. *)
Module ISO.

Open Scope Z_scope.

Definition digit_value (c : ascii) : option Z :=
  if JSON.is_digit c then Some (Z.of_N (Str.code c) - 48) else None.

(** Exactly [n] digits, as a number, and the rest of the text. *)
Fixpoint number (n : nat) (acc : Z) (s : string) : option (Z * string) :=
  match n with
  | O => Some (acc, s)
  | S n' =>
      match s with
      | String c r =>
          match digit_value c with
          | Some d => number n' (acc * 10 + d) r
          | None => None
          end
      | EmptyString => None
      end
  end.

Definition leap (y : Z) : bool :=
  (y mod 4 =? 0) && (negb (y mod 100 =? 0) || (y mod 400 =? 0)).

Definition days_in_month (y m : Z) : Z :=
  if m =? 2 then (if leap y then 29 else 28)
  else if (m =? 4) || (m =? 6) || (m =? 9) || (m =? 11) then 30
  else 31.

Definition valid_date (y m d : Z) : bool :=
  (1 <=? m) && (m <=? 12) && (1 <=? d) && (d <=? days_in_month y m).

Definition valid_time (hh mm ss : Z) : bool :=
  (mm <=? 59) && (ss <=? 59) && ((hh <=? 23) || (hh =? 24) && (mm =? 0) && (ss =? 0)).

(** [MakeDate(MakeDay(y, m, d), MakeTime(hh, mm, ss, ms))]. *)
Definition make (y m d hh mm ss ms : Z) : Z :=
  DateTime.days_from_civil y m d * DateTime.msPerDay
  + hh * 3600000 + mm * 60000 + ss * 1000 + ms.

(** The zone designator: the milliseconds to take from the reading. *)
Definition zone (local_offset : Z) (s : string) : option Z :=
  match s with
  | EmptyString => Some (local_offset * 60000)
  | String c r =>
      if Ascii.eqb c "Z" then (if Str.is_empty r then Some 0 else None)
      else if Ascii.eqb c "+" || Ascii.eqb c "-" then
        match number 2 0 r with
        | Some (oh, String colon r1) =>
            if Ascii.eqb colon ":" then
              match number 2 0 r1 with
              | Some (om, EmptyString) =>
                  if (oh <=? 23) && (om <=? 59)
                  then Some ((if Ascii.eqb c "+" then 1 else -1) * (oh * 60 + om) * 60000)
                  else None
              | _ => None
              end
            else None
        | _ => None
        end
      else None
  end.

(** The part after [T]. *)
Definition time_part (local_offset y m d : Z) (s : string) : option Z :=
  match number 2 0 s with
  | Some (hh, String colon r) =>
      if Ascii.eqb colon ":" then
        match number 2 0 r with
        | Some (mm, r1) =>
            let '(sec, r3) :=
              match r1 with
              | String c r1' =>
                  if Ascii.eqb c ":" then
                    match number 2 0 r1' with
                    | Some (ss, String c' r2') =>
                        if Ascii.eqb c' "." then
                          match number 3 0 r2' with
                          | Some (ms, r3) => (Some (ss, ms), r3)
                          | None => (None, r1)
                          end
                        else (Some (ss, 0), String c' r2')
                    | Some (ss, EmptyString) => (Some (ss, 0), EmptyString)
                    | None => (None, r1)
                    end
                  else (Some (0, 0), r1)
              | EmptyString => (Some (0, 0), r1)
              end in
            match sec, zone local_offset r3 with
            | Some (ss, ms), Some off =>
                if valid_time hh mm ss then Some (make y m d hh mm ss ms - off) else None
            | _, _ => None
            end
        | None => None
        end
      else None
  | _ => None
  end.

(** After the date: the end of the text, or [T] and a time. *)
Definition after_date (local_offset y m d : Z) (s : string) : option Z :=
  if valid_date y m d then
    match s with
    | EmptyString => Some (make y m d 0 0 0 0)
    | String c r => if Ascii.eqb c "T" then time_part local_offset y m d r else None
    end
  else None.

(** [Date.parse] in a zone [local_offset] minutes east of UTC. *)
Definition parse (local_offset : Z) (s : string) : option Z :=
  match number 4 0 s with
  | Some (y, String c1 r1) =>
      if Ascii.eqb c1 "-" then
        match number 2 0 r1 with
        | Some (m, String c2 r2) =>
            if Ascii.eqb c2 "-" then
              match number 2 0 r2 with
              | Some (d, r3) => after_date local_offset y m d r3
              | None => None
              end
            else after_date local_offset y m 1 (String c2 r2)
        | Some (m, EmptyString) => after_date local_offset y m 1 EmptyString
        | None => None
        end
      else after_date local_offset y 1 1 (String c1 r1)
  | Some (y, EmptyString) => after_date local_offset y 1 1 EmptyString
  | None => None
  end.

End ISO.

(** Number printing for the numerals that need no rounding and no exponent:
    an integer numeral prints as it is written, minus zero as zero.  The
    examples of this development meet no other numeral. *)
Definition integer_toString (lexeme : string) : string :=
  if String.eqb lexeme "-0" then "0" else lexeme.

(** A browser [offset] minutes east of UTC all year round, with the given
    environment variable.  Its engine-made messages quote nothing of the
    text at fault. *)
Definition browser (offset : Z) (key : option string) : Host :=
  {| API_KEY := key;
     Date_parse := ISO.parse offset;
     Number_toString := integer_toString;
     SyntaxError_message := fun _ => "JSON.parse: unexpected character of the JSON data";
     TypeError_read_trim := "can't access property 'trim' of undefined";
     TypeError_destructure := "can't access property 'date' of null";
     TypeError_primitive := "can't convert object to primitive type" |}.

(** Asia/Taipei is eight hours east of UTC and keeps no summer time. *)
Definition taipei : Host := browser 480 (Some "test-key").

Definition utc : Host := browser 0 (Some "test-key").

(* ===================================================================== *)
(** * Vocabulary of the specification, and sample data *)
(* ===================================================================== *)

(** The error kinds of the Field Extraction Client, by the message each
    carries in the code. *)
Definition MissingCredentialError : Thrown := ErrorObject geminiService.not_configured.
Definition AuthenticationError : Thrown := ErrorObject geminiService.key_not_valid.
Definition EmptyResponseError : Thrown := ErrorObject geminiService.no_content.
Definition GenericExtractionError : Thrown := ErrorObject geminiService.failed_to_process.

(** A text between double quotes. *)
Definition quoted (s : string) : string :=
  String Str.dquote s ++ String Str.dquote EmptyString.

(** A remote service that answers every request with the same text. *)
Definition answers (text : string) : geminiService.Remote :=
  fun _ => Normal (Some text).

(** A body that gives two of the eight fields. *)
Definition partial_body : string :=
  "{" ++ quoted "area" ++ ":" ++ quoted "中山區" ++ ","
      ++ quoted "name" ++ ":" ++ quoted "王小明" ++ "}".

(** The calls a list of files gives rise to in [files.map(createObjectURL)],
    when [n] object URLs were handed out before, and the URLs they return. *)
Fixpoint creations (n : nat) (files : list App.File) : list App.Call :=
  match files with
  | [] => []
  | f :: r => App.Call_createObjectURL f (App.blob n) :: creations (S n) r
  end.

Fixpoint fresh_urls (n : nat) (files : list App.File) : list App.ObjectURL :=
  match files with
  | [] => []
  | _ :: r => App.blob n :: fresh_urls (S n) r
  end.

(** The calls made since the log was [before]. *)
Definition made_since (before : App.Env) (now : App.Env) : list App.Call :=
  List.skipn (List.length (App.log before)) (App.log now).

Definition is_setMessage (c : App.Call) : bool :=
  match c with App.Call_setMessage _ => true | _ => false end.

Definition is_setIsLoading (c : App.Call) : bool :=
  match c with App.Call_setIsLoading _ => true | _ => false end.

(** How many times a preview handle is released in a run of calls. *)
Definition releases_of (u : App.ObjectURL) (cs : list App.Call) : nat :=
  List.length
    (List.filter
       (fun c =>
          match c, u with
          | App.Call_revokeObjectURL (App.blob a), App.blob b => Nat.eqb a b
          | _, _ => false
          end) cs).

(** All release calls in a run of calls. *)
Definition releases (cs : list App.Call) : list App.ObjectURL :=
  List.flat_map
    (fun c => match c with App.Call_revokeObjectURL u => [u] | _ => [] end) cs.

(** A call that clears the status message or the link. *)
Definition clears (c : App.Call) : bool :=
  match c with
  | App.Call_setMessage None => true
  | App.Call_setCalendarLink l => Str.is_empty l
  | _ => false
  end.

(** The two phases of the submission lifecycle. *)
Inductive Phase : Type := Idle | Extracting.

Definition phase (s : App.AppState) : Phase :=
  if App.isLoading s then Extracting else Idle.

(** InvalidScheduleError: one of the two messages the builder shows for a
    record it refuses. *)
Definition InvalidScheduleError (m : App.Message) : Prop :=
  m = App.missing_fields \/ m = App.invalid_format.

Definition success_message (isManual : bool) : App.Message :=
  if isManual then App.manual_success else App.auto_success.

(** The calls of a link generation that goes through. *)
Definition link_calls (url : string) (isManual : bool) : list App.Call :=
  [App.Call_setCalendarLink url; App.Call_window_open url "_blank";
   App.Call_setMessage (Some (success_message isManual))].

(** A value that destructuring accepts: anything but [undefined] and
    [null]. *)
Definition coercible (v : JSValue) : bool :=
  match v with
  | JSUndefined | JSNull => false
  | _ => true
  end.

(** The compact UTC form of a time value, [YYYYMMDDTHHmmssZ]: what is left
    of [toISOString] without its punctuation and its milliseconds.  The date
    part depends on the UTC day alone, the time part on the time within it.
    (Outside the years 0 to 9999 the year has six digits; the hyphen of a
    negative year goes with the other hyphens.) *)
Definition compact_year (y : Z) : string :=
  if ((0 <=? y) && (y <=? 9999))%Z then DateTime.digits 4 y
  else if (y <? 0)%Z then DateTime.digits 6 (- y)
  else "+" ++ DateTime.digits 6 y.

Definition compact_date (day : Z) : string :=
  let '(y, m, d) := DateTime.civil_from_days day in
  compact_year y ++ DateTime.digits 2 m ++ DateTime.digits 2 d.

Definition compact_time (ms : Z) : string :=
  (DateTime.digits 2 (ms / 3600000) ++ DateTime.digits 2 (ms / 60000 mod 60)
   ++ DateTime.digits 2 (ms / 1000 mod 60))%Z.

Definition compact (t : Z) : string :=
  compact_date (t / DateTime.msPerDay) ++ "T"
  ++ compact_time (t mod DateTime.msPerDay) ++ "Z".

Fixpoint all_digits (s : string) : bool :=
  match s with
  | EmptyString => true
  | String c r => JSON.is_digit c && all_digits r
  end.

(** A byte occurs in a text. *)
Fixpoint occurs (c : ascii) (s : string) : bool :=
  match s with
  | EmptyString => false
  | String x r => Ascii.eqb x c || occurs c r
  end.

(** The bytes that structure a link and its query. *)
Definition separator (c : ascii) : bool :=
  Ascii.eqb c "&" || Ascii.eqb c "=" || Ascii.eqb c "#" || Ascii.eqb c "?".

(** A text of ASCII bytes only. *)
Fixpoint plain (s : string) : bool :=
  match s with
  | EmptyString => true
  | String x r => (Str.code x <? 128)%N && plain r
  end.

(** The title as the specification words it: the non-empty ones among area,
    name and phone, in this order, with one separator between neighbours. *)
Definition joined_title (area name phone : string) : string :=
  match Str.is_empty area, Str.is_empty name, Str.is_empty phone with
  | false, false, false => area ++ " | " ++ name ++ " | " ++ phone
  | false, false, true => area ++ " | " ++ name
  | false, true, false => area ++ " | " ++ phone
  | true, false, false => name ++ " | " ++ phone
  | false, true, true => area
  | true, false, true => name
  | true, true, false => phone
  | true, true, true => EmptyString
  end.

(** A calendar date written [YYYY-MM-DD] and a time of day written [HH:MM],
    the forms the schema asks for and the date and time inputs produce. *)
Definition date_text (y m d : Z) : string :=
  DateTime.digits 4 y ++ "-" ++ DateTime.digits 2 m ++ "-" ++ DateTime.digits 2 d.

Definition time_text (hh mm : Z) : string :=
  DateTime.digits 2 hh ++ ":" ++ DateTime.digits 2 mm.

(** A date and a time combine into a parseable date-time: both print, and
    the host reads a date from the text [dateTtime]. *)
Definition parseable `{Host} (dateStr timeStr : JSValue) : Prop :=
  exists d t ms,
    JS.ToString dateStr = Normal d /\ JS.ToString timeStr = Normal t
    /\ DateTime.new_Date (d ++ "T" ++ t) = Some ms.

(** How the extraction awaited by [handleProcessImages] settles. *)
Definition extraction `{Host} (io : App.Awaited) (files : list App.File)
  : Completion JSValue :=
  cbind (App.imageParts io files)
        (geminiService.extractScheduleFromImages (App.generateContent io)).

(** The message of the [catch] block of [handleProcessImages]. *)
Definition caught_message (t : Thrown) : App.Message :=
  App.extraction_failed
    match t with
    | ErrorObject m => m
    | NotAnError => "發生未知錯誤。"
    end.

(** A selection of one image, and reading and recognition that succeed. *)
Definition photo : App.File := {| App.file_name := "order.png"; App.file_type := "image/png" |}.
Definition photo2 : App.File := {| App.file_name := "chat.jpg"; App.file_type := "image/jpeg" |}.

Definition full_body : string :=
  "{" ++ quoted "area" ++ ":" ++ quoted "中山區" ++ ","
      ++ quoted "name" ++ ":" ++ quoted "王小明" ++ ","
      ++ quoted "phone" ++ ":" ++ quoted "" ++ ","
      ++ quoted "date" ++ ":" ++ quoted "2024-05-10" ++ ","
      ++ quoted "startTime" ++ ":" ++ quoted "07:00" ++ ","
      ++ quoted "endTime" ++ ":" ++ quoted "09:00" ++ ","
      ++ quoted "address" ++ ":" ++ quoted "台北市中山區南京東路三段20號" ++ ","
      ++ quoted "notes" ++ ":" ++ quoted "" ++ "}".

Definition good_io : App.Awaited :=
  {| App.fileToBase64 := fun _ => Normal "aGVsbG8=";
     App.generateContent := answers full_body |}.

(** The component after one image was selected. *)
Definition one_selected : App.Env :=
  App.dispatch (H := taipei) (App.FileChange (Some [photo])) App.initialEnv.

(** A form filled in by hand: a date is typed, a link is generated, and the
    date is erased again. *)
Definition date_typed : App.Env :=
  App.dispatch (H := taipei) (App.FormChange "date" "2024-05-10") App.initialEnv.

Definition linked_by_hand : App.Env :=
  App.dispatch (H := taipei) App.ManualClick date_typed.

Definition date_erased : App.Env :=
  App.dispatch (H := taipei) (App.FormChange "date" "") linked_by_hand.

(** The record of the form as the component starts: no date yet. *)
Definition initial_props : list (string * JSValue) :=
  [("area", JSString ""); ("name", JSString ""); ("phone", JSString "");
   ("date", JSString ""); ("startTime", JSString "09:00");
   ("endTime", JSString "10:00"); ("address", JSString ""); ("notes", JSString "")].

(** A job from seven to nine in the morning of 10 May 2024, typed into the
    form. *)
Definition morning_job : App.Env :=
  App.dispatch (H := taipei) (App.FormChange "endTime" "09:00")
    (App.dispatch (H := taipei) (App.FormChange "startTime" "07:00")
       (App.dispatch (H := taipei) (App.FormChange "area" "中山區") date_typed)).

Definition morning_props : list (string * JSValue) :=
  [("area", JSString "中山區"); ("name", JSString ""); ("phone", JSString "");
   ("date", JSString "2024-05-10"); ("startTime", JSString "07:00");
   ("endTime", JSString "09:00"); ("address", JSString ""); ("notes", JSString "")].

(** The states the component can be in: the initial one, and those an
    enabled event leads to. *)
Inductive reachable `{Host} : App.Env -> Prop :=
| reachable_initial : reachable App.initialEnv
| reachable_dispatch (e : App.Env) (ev : App.Event) :
    reachable e -> App.enabled (App.state e) ev = true ->
    reachable (App.dispatch ev e).

(** The same morning job on a host at UTC. *)
Definition morning_job_utc : App.Env :=
  App.dispatch (H := utc) App.ManualClick morning_job.

(** ** [fileToBase64] *)

(** How the [FileReader] of [fileToBase64] ends: [onload] with the data URL
    in [reader.result], or [onerror] with the event. *)
Inductive ReaderOutcome : Type :=
| reader_onload (result : string)
| reader_onerror.

(** [(reader.result as string).split(',')[1]]: the second of the pieces
    between commas, [undefined] when there is none. *)
Definition second_piece (result : string) : JSValue :=
  match List.nth_error (URL.split "," result) 1 with
  | Some piece => JSString piece
  | None => JSUndefined
  end.

(** How the promise of [fileToBase64(file)] settles: it resolves with the
    second piece of the data URL, or rejects with the reader's event, which is
    not an [Error]. *)
Definition fileToBase64_settles (r : ReaderOutcome) : Completion JSValue :=
  match r with
  | reader_onload result => Normal (second_piece result)
  | reader_onerror => Throw NotAnError
  end.

(** ** Object URLs in the log *)

(** The object URLs handed out in a run of calls. *)
Definition created (cs : list App.Call) : list App.ObjectURL :=
  List.flat_map
    (fun c => match c with App.Call_createObjectURL _ u => [u] | _ => [] end) cs.

(** A call that neither creates nor revokes an object URL and does not set
    the previews. *)
Definition leaves_previews (c : App.Call) : bool :=
  match c with
  | App.Call_revokeObjectURL _ | App.Call_createObjectURL _ _
  | App.Call_setImagePreviews _ => false
  | _ => true
  end.

Definition index_of (u : App.ObjectURL) : nat :=
  match u with App.blob n => n end.

(** A credential-less browser in Taipei, and a remote service that rejects
    the credential. *)
Definition taipei_without_key : Host := browser 480 None.

Definition rejects_key : geminiService.Remote :=
  fun _ => Throw (ErrorObject "[400] API key not valid. Please pass a valid API key.").

(** A reader that fails on every file. *)
Definition unreadable_io : App.Awaited :=
  {| App.fileToBase64 := fun _ => Throw NotAnError;
     App.generateContent := answers full_body |}.

(** The record the body [full_body] denotes. *)
Definition full_props : list (string * JSValue) :=
  [("area", JSString "中山區"); ("name", JSString "王小明"); ("phone", JSString "");
   ("date", JSString "2024-05-10"); ("startTime", JSString "07:00");
   ("endTime", JSString "09:00");
   ("address", JSString "台北市中山區南京東路三段20號"); ("notes", JSString "")].

(** ** Teardown *)

(** The component is removed from the page: React runs the cleanup of the
    effect of the last render. *)
Definition unmount (e : App.Env) : App.Env :=
  snd (App.effect_cleanup (App.imagePreviews (App.state e)) e).

(** ** Object URLs *)

(** What holds of the object URLs in every reachable state. *)
Definition urls_accounted (e : App.Env) : Prop :=
  created (App.log e) = map App.blob (seq 0 (App.next_blob e))
  /\ NoDup (App.imagePreviews (App.state e))
  /\ (forall u, In u (App.imagePreviews (App.state e)) ->
        In u (created (App.log e)) /\ ~ In u (releases (App.log e)))
  /\ (forall u, In u (created (App.log e)) ->
        In u (App.imagePreviews (App.state e)) \/ In u (releases (App.log e)))
  /\ (forall u, In u (releases (App.log e)) -> In u (created (App.log e))).

(** ** The link shown *)

(** A call that sets the link. *)
Definition sets_link (c : App.Call) : bool :=
  match c with App.Call_setCalendarLink _ => true | _ => false end.

(** The link shown is none, or one that was opened in a new browsing
    context. *)
Definition link_opened (e : App.Env) : Prop :=
  App.calendarLink (App.state e) = ""
  \/ In (App.Call_window_open (App.calendarLink (App.state e)) "_blank") (App.log e).

(** ** Optional text fields *)

(** The text of an optional text field of a record: the string it holds,
    and no text when the record omits the field or gives [null] for it. *)
Definition field_text (v : JSValue) : option string :=
  match v with
  | JSString s => Some s
  | JSUndefined | JSNull => Some EmptyString
  | _ => None
  end.

(* ===================================================================== *)
(** * Verification *)
(* ===================================================================== *)

(** ** The Field Extraction Client *)

Section Extraction.
Context `{Host}.
Import geminiService.

Lemma read_nonempty (s : string) (v : JSValue) :
  JSON.read s = Some v -> Str.is_empty s = false.
Proof.
  destruct s; [discriminate | reflexivity].
Qed.

Lemma get_prop_absent (k : string) (props : list (string * JSValue)) :
  JS.has_key k props = false -> JS.get_prop k props = JSUndefined.
Proof.
  induction props as [| [k' v'] r IH]; simpl; [reflexivity |].
  destruct (String.eqb k k'); simpl; [discriminate | exact IH].
Qed.

(** A fulfilled call whose trimmed body is JSON makes the client return the
    value the body denotes. *)
Lemma extract_parsed (generateContent : Remote) (imageParts : list InlineData)
    (text : string) (v : JSValue) :
  no_apiKey = false ->
  generateContent (request_for imageParts) = Normal (Some text) ->
  JSON.read (Str.trim text) = Some v ->
  extractScheduleFromImages generateContent imageParts = Normal v.
Proof.
  intros Hkey Hremote Hread.
  unfold extractScheduleFromImages, call_and_parse.
  rewrite Hkey, Hremote. cbn [cbind].
  rewrite (read_nonempty _ _ Hread).
  unfold JSON.parse. rewrite Hread. reflexivity.
Qed.

(** The message made for an empty body is not one the [catch] block lets
    through. *)
Lemma no_content_is_rewrapped :
  @rethrow JSValue (ErrorObject no_content) = Throw (ErrorObject failed_to_process).
Proof. reflexivity. Qed.

(** A fulfilled call with an empty body: the error thrown for it inside the
    [try] block is caught there and leaves as the generic failure. *)
Lemma empty_body_leaves_as_generic (generateContent : Remote)
    (imageParts : list InlineData) (text : string) :
  no_apiKey = false ->
  generateContent (request_for imageParts) = Normal (Some text) ->
  Str.is_empty (Str.trim text) = true ->
  extractScheduleFromImages generateContent imageParts = Throw GenericExtractionError.
Proof.
  intros Hkey Hremote Hempty.
  unfold extractScheduleFromImages, call_and_parse.
  rewrite Hkey, Hremote. cbn [cbind]. rewrite Hempty. reflexivity.
Qed.

(** Without a credential no call is made. *)
Lemma missing_key_fails (generateContent : Remote) (imageParts : list InlineData) :
  no_apiKey = true ->
  extractScheduleFromImages generateContent imageParts = Throw MissingCredentialError.
Proof.
  intro Hkey. unfold extractScheduleFromImages. now rewrite Hkey.
Qed.

(** A rejected call whose error message holds the phrase for an invalid key
    surfaces as the authentication failure; any other rejection surfaces as
    the generic failure. *)
Lemma rejected_call (generateContent : Remote) (imageParts : list InlineData)
    (t : Thrown) :
  no_apiKey = false ->
  generateContent (request_for imageParts) = Throw t ->
  extractScheduleFromImages generateContent imageParts
  = Throw (match t with
           | ErrorObject m =>
               if Str.includes m "API key not valid"
               then AuthenticationError else GenericExtractionError
           | NotAnError => GenericExtractionError
           end).
Proof.
  intros Hkey Hremote. unfold extractScheduleFromImages, call_and_parse.
  rewrite Hkey, Hremote. cbn [cbind]. unfold rethrow.
  destruct t as [m |]; [| reflexivity].
  destruct (Str.includes m "API key not valid"); reflexivity.
Qed.

(** Whatever the host and the remote service do, the client ends in one of
    four ways, and the empty-response error is none of them. *)
Lemma extraction_outcomes (generateContent : Remote) (imageParts : list InlineData) :
  (exists v, extractScheduleFromImages generateContent imageParts = Normal v)
  \/ extractScheduleFromImages generateContent imageParts = Throw MissingCredentialError
  \/ extractScheduleFromImages generateContent imageParts = Throw AuthenticationError
  \/ extractScheduleFromImages generateContent imageParts = Throw GenericExtractionError.
Proof.
  unfold extractScheduleFromImages.
  destruct no_apiKey; [right; left; reflexivity |].
  destruct (call_and_parse generateContent (request_for imageParts)) as [v | t].
  - left. now exists v.
  - right; right. unfold rethrow. destruct t as [m |]; [| right; reflexivity].
    destruct (Str.includes m "API key not valid"); [left | right]; reflexivity.
Qed.

Lemma empty_response_error_never_surfaces (generateContent : Remote)
    (imageParts : list InlineData) :
  extractScheduleFromImages generateContent imageParts <> Throw EmptyResponseError.
Proof.
  destruct (extraction_outcomes generateContent imageParts)
    as [[v E] | [E | [E | E]]]; rewrite E; discriminate.
Qed.

End Extraction.

(** The record of the form after the morning job was typed in. *)
Lemma morning_job_record :
  App.formData (App.state morning_job) = JSObject morning_props.
Proof. reflexivity. Qed.

(** ** The handler monad and the log *)

Section Calls.
Import App.

Lemma after_calls_app (e : Env) (a b : list Call) :
  after_calls e (a ++ b) = after_calls (after_calls e a) b.
Proof. apply fold_left_app. Qed.

Lemma log_after_calls (e : Env) (cs : list Call) :
  log (after_calls e cs) = (log e ++ cs)%list.
Proof.
  revert e. induction cs as [| c cs IH]; intro e; simpl.
  - now rewrite app_nil_r.
  - rewrite IH. simpl. now rewrite <- app_assoc.
Qed.

Lemma state_after_calls (e : Env) (cs : list Call) :
  state (after_calls e cs) = fold_left (fun s c => apply_call c s) cs (state e).
Proof.
  revert e. induction cs as [| c cs IH]; intro e; simpl; [reflexivity |].
  now rewrite IH.
Qed.

Lemma made_since_after_calls (e : Env) (cs : list Call) :
  made_since e (after_calls e cs) = cs.
Proof.
  unfold made_since. rewrite log_after_calls.
  induction (log e) as [| x l IH]; simpl; [reflexivity | exact IH].
Qed.

Lemma forEach_revoke (l : list ObjectURL) (e : Env) :
  forEach l revokeObjectURL e
  = (Normal tt, after_calls e (map Call_revokeObjectURL l)).
Proof.
  revert e. induction l as [| u l IH]; intro e; simpl; [reflexivity |].
  unfold bind. simpl. apply IH.
Qed.

Lemma next_blob_after_call (e : Env) (f : File) (u : ObjectURL) :
  next_blob (after_call e (Call_createObjectURL f u)) = S (next_blob e).
Proof. reflexivity. Qed.

Lemma mapM_create (files : list File) (e : Env) :
  mapM createObjectURL files e
  = (Normal (fresh_urls (next_blob e) files),
     after_calls e (creations (next_blob e) files)).
Proof.
  revert e. induction files as [| f r IH]; intro e; simpl; [reflexivity |].
  unfold bind at 1. unfold createObjectURL at 1. cbv beta zeta.
  unfold bind at 1. rewrite IH. reflexivity.
Qed.

(** Platform calls leave the state cells alone. *)
Lemma state_after_revokes (e : Env) (l : list ObjectURL) :
  state (after_calls e (map Call_revokeObjectURL l)) = state e.
Proof.
  revert e. induction l as [| u l IH]; intro e; simpl; [reflexivity |].
  now rewrite IH.
Qed.

Lemma state_after_creations (e : Env) (n : nat) (files : list File) :
  state (after_calls e (creations n files)) = state e.
Proof.
  revert e n. induction files as [| f r IH]; intros e n; simpl; [reflexivity |].
  now rewrite IH.
Qed.

End Calls.

(** ** The Calendar Link Builder: the three ways it ends *)

Section Builder.
Context `{Host}.
Import App.

Lemma builder_throws_on_nullish (data : JSValue) (isManual : bool) (e : Env) :
  coercible data = false ->
  generateCalendarLink data isManual e = (Throw (ErrorObject TypeError_destructure), e).
Proof.
  destruct data; simpl; intro Hc; try discriminate; reflexivity.
Qed.

Lemma builder_missing (data : JSValue) (isManual : bool) (e : Env) :
  coercible data = true ->
  negb (JS.truthy (JS.Get data "date"))
  || negb (JS.truthy (JS.Get data "startTime"))
  || negb (JS.truthy (JS.Get data "endTime")) = true ->
  generateCalendarLink data isManual e
  = (Normal tt, after_calls e [Call_setMessage (Some missing_fields)]).
Proof.
  intros Hc Hm.
  destruct data; try discriminate Hc; unfold generateCalendarLink;
    rewrite Hm; reflexivity.
Qed.

Lemma builder_invalid (data : JSValue) (isManual : bool) (e : Env) :
  coercible data = true ->
  negb (JS.truthy (JS.Get data "date"))
  || negb (JS.truthy (JS.Get data "startTime"))
  || negb (JS.truthy (JS.Get data "endTime")) = false ->
  not_ (formatDateTime (JS.Get data "date") (JS.Get data "startTime"))
  || not_ (formatDateTime (JS.Get data "date") (JS.Get data "endTime")) = true ->
  generateCalendarLink data isManual e
  = (Normal tt, after_calls e [Call_setMessage (Some invalid_format)]).
Proof.
  intros Hc Hm Hf.
  destruct data; try discriminate Hc; unfold generateCalendarLink;
    rewrite Hm, Hf; reflexivity.
Qed.

Lemma builder_links (data : JSValue) (isManual : bool) (e : Env)
    (start_ end_ parts details location : string) :
  coercible data = true ->
  negb (JS.truthy (JS.Get data "date"))
  || negb (JS.truthy (JS.Get data "startTime"))
  || negb (JS.truthy (JS.Get data "endTime")) = false ->
  formatDateTime (JS.Get data "date") (JS.Get data "startTime") = Some start_ ->
  formatDateTime (JS.Get data "date") (JS.Get data "endTime") = Some end_ ->
  Str.is_empty start_ = false ->
  Str.is_empty end_ = false ->
  titleParts (JS.Get data "area") (JS.Get data "name") (JS.Get data "phone")
  = Normal parts ->
  eventDetails (JS.Get data "address") (JS.Get data "notes") = Normal details ->
  JS.ToString (JS.Get data "address") = Normal location ->
  generateCalendarLink data isManual e
  = (Normal tt,
     after_calls e
       (link_calls (finalUrl (link_params (eventTitle parts) start_ end_ details location))
                   isManual)).
Proof.
  intros Hc Hm Hs He Hsn Hen Ht Hd Hl.
  destruct data; try discriminate Hc; unfold generateCalendarLink;
    rewrite Hm, Hs, He; cbn [not_]; rewrite Hsn, Hen; cbn [orb];
    unfold bind, lift; rewrite Ht, Hd, Hl; destruct isManual; reflexivity.
Qed.

(** Whatever the record and the mode, the builder ends in one of three ways:
    it throws before any call, it shows one of the two refusal messages and
    makes no other call, or it sets the link, opens it and shows the success
    message of its mode. *)
Lemma builder_cases (data : JSValue) (isManual : bool) (e : Env) :
  (exists t, generateCalendarLink data isManual e = (Throw t, e))
  \/ (exists m, InvalidScheduleError m
        /\ generateCalendarLink data isManual e
           = (Normal tt, after_calls e [Call_setMessage (Some m)]))
  \/ (exists url, Str.is_empty url = false
        /\ generateCalendarLink data isManual e
           = (Normal tt, after_calls e (link_calls url isManual))).
Proof.
  destruct (coercible data) eqn:Hc.
  2:{ left. eexists. now apply builder_throws_on_nullish. }
  destruct (negb (JS.truthy (JS.Get data "date"))
            || negb (JS.truthy (JS.Get data "startTime"))
            || negb (JS.truthy (JS.Get data "endTime"))) eqn:Hm.
  { right; left. exists missing_fields. split; [now left |].
    now apply builder_missing. }
  destruct (not_ (formatDateTime (JS.Get data "date") (JS.Get data "startTime"))
            || not_ (formatDateTime (JS.Get data "date") (JS.Get data "endTime")))
    eqn:Hf.
  { right; left. exists invalid_format. split; [now right |].
    now apply builder_invalid. }
  apply orb_false_iff in Hf as [Hs He].
  destruct (formatDateTime (JS.Get data "date") (JS.Get data "startTime"))
    as [s |] eqn:Es; [| discriminate Hs].
  destruct (formatDateTime (JS.Get data "date") (JS.Get data "endTime"))
    as [n |] eqn:En; [| discriminate He].
  simpl in Hs, He.
  destruct (titleParts (JS.Get data "area") (JS.Get data "name") (JS.Get data "phone"))
    as [parts | t] eqn:Et.
  2:{ left. exists t.
      destruct data; try discriminate Hc; unfold generateCalendarLink;
        rewrite Hm, Es, En; cbn [not_]; rewrite Hs, He; cbn [orb];
        unfold bind, lift; rewrite Et; reflexivity. }
  destruct (eventDetails (JS.Get data "address") (JS.Get data "notes"))
    as [details | t] eqn:Ed.
  2:{ left. exists t.
      destruct data; try discriminate Hc; unfold generateCalendarLink;
        rewrite Hm, Es, En; cbn [not_]; rewrite Hs, He; cbn [orb];
        unfold bind, lift; rewrite Et, Ed; reflexivity. }
  destruct (JS.ToString (JS.Get data "address")) as [location | t] eqn:El.
  2:{ left. exists t.
      destruct data; try discriminate Hc; unfold generateCalendarLink;
        rewrite Hm, Es, En; cbn [not_]; rewrite Hs, He; cbn [orb];
        unfold bind, lift; rewrite Et, Ed, El; reflexivity. }
  right; right. eexists. split.
  2:{ eapply builder_links; eassumption. }
  reflexivity.
Qed.

(** A link the builder sets is always the serialisation of its six
    parameters, with the title built from the joined parts. *)
Lemma builder_link_shape (data : JSValue) (isManual : bool) (e : Env) (url : string) :
  In (Call_setCalendarLink url)
     (made_since e (snd (generateCalendarLink data isManual e))) ->
  exists parts start_ end_ details location,
    titleParts (JS.Get data "area") (JS.Get data "name") (JS.Get data "phone")
    = Normal parts
    /\ url = finalUrl (link_params (eventTitle parts) start_ end_ details location).
Proof.
  assert (Hnil : made_since e e = []).
  { change e with (after_calls e []) at 2. apply made_since_after_calls. }
  assert (Hthrow : forall t, generateCalendarLink data isManual e = (Throw t, e) ->
            In (Call_setCalendarLink url)
               (made_since e (snd (generateCalendarLink data isManual e))) -> False).
  { intros t Ht. rewrite Ht. cbn [snd]. rewrite Hnil. intros []. }
  assert (Hmsg : forall m,
            generateCalendarLink data isManual e
            = (Normal tt, after_calls e [Call_setMessage (Some m)]) ->
            In (Call_setCalendarLink url)
               (made_since e (snd (generateCalendarLink data isManual e))) -> False).
  { intros m Hr. rewrite Hr. cbn [snd]. rewrite made_since_after_calls.
    intros [E | []]. discriminate E. }
  destruct (coercible data) eqn:Hc.
  2:{ intro Hin. exfalso. eapply Hthrow; [| exact Hin].
      now apply builder_throws_on_nullish. }
  destruct (negb (JS.truthy (JS.Get data "date"))
            || negb (JS.truthy (JS.Get data "startTime"))
            || negb (JS.truthy (JS.Get data "endTime"))) eqn:Hm.
  { intro Hin. exfalso. eapply Hmsg; [| exact Hin]. now apply builder_missing. }
  destruct (not_ (formatDateTime (JS.Get data "date") (JS.Get data "startTime"))
            || not_ (formatDateTime (JS.Get data "date") (JS.Get data "endTime")))
    eqn:Hf.
  { intro Hin. exfalso. eapply Hmsg; [| exact Hin]. now apply builder_invalid. }
  apply orb_false_iff in Hf as [Hs He].
  destruct (formatDateTime (JS.Get data "date") (JS.Get data "startTime"))
    as [s |] eqn:Es; [| discriminate Hs].
  destruct (formatDateTime (JS.Get data "date") (JS.Get data "endTime"))
    as [n |] eqn:En; [| discriminate He].
  simpl in Hs, He.
  destruct (titleParts (JS.Get data "area") (JS.Get data "name") (JS.Get data "phone"))
    as [parts | t] eqn:Et.
  2:{ intro Hin. exfalso. eapply (Hthrow t); [| exact Hin].
      destruct data; try discriminate Hc; unfold generateCalendarLink;
        rewrite Hm, Es, En; cbn [not_]; rewrite Hs, He; cbn [orb];
        unfold bind, lift; rewrite Et; reflexivity. }
  destruct (eventDetails (JS.Get data "address") (JS.Get data "notes"))
    as [details | t] eqn:Ed.
  2:{ intro Hin. exfalso. eapply (Hthrow t); [| exact Hin].
      destruct data; try discriminate Hc; unfold generateCalendarLink;
        rewrite Hm, Es, En; cbn [not_]; rewrite Hs, He; cbn [orb];
        unfold bind, lift; rewrite Et, Ed; reflexivity. }
  destruct (JS.ToString (JS.Get data "address")) as [location | t] eqn:El.
  2:{ intro Hin. exfalso. eapply (Hthrow t); [| exact Hin].
      destruct data; try discriminate Hc; unfold generateCalendarLink;
        rewrite Hm, Es, En; cbn [not_]; rewrite Hs, He; cbn [orb];
        unfold bind, lift; rewrite Et, Ed, El; reflexivity. }
  rewrite (builder_links data isManual e s n parts details location
             Hc Hm Es En Hs He Et Ed El).
  cbn [snd]. rewrite made_since_after_calls.
  intros [E | [E | [E | []]]]; try discriminate E.
  injection E as <-. exists parts, s, n, details, location. split; reflexivity.
Qed.

End Builder.

(** ** Dates: the compact form *)

Section Compact.
Import DateTime.

Lemma append_assoc (a b c : string) : (a ++ b) ++ c = a ++ (b ++ c).
Proof. induction a as [| x a IH]; simpl; [reflexivity | now rewrite IH]. Qed.

Lemma digit_is_digit (n : Z) : JSON.is_digit (digit n) = true.
Proof.
  unfold digit.
  assert (Hb : (0 <= n mod 10 < 10)%Z) by (apply Z.mod_pos_bound; lia).
  assert (Hc : (n mod 10 = 0 \/ n mod 10 = 1 \/ n mod 10 = 2 \/ n mod 10 = 3
                \/ n mod 10 = 4 \/ n mod 10 = 5 \/ n mod 10 = 6 \/ n mod 10 = 7
                \/ n mod 10 = 8 \/ n mod 10 = 9)%Z) by lia.
  destruct Hc as [-> | [-> | [-> | [-> | [-> | [-> | [-> | [-> | [-> | ->]]]]]]]]];
    reflexivity.
Qed.

Lemma all_digits_app (a b : string) :
  all_digits (a ++ b) = all_digits a && all_digits b.
Proof.
  induction a as [| x a IH]; simpl; [reflexivity |].
  now rewrite IH, andb_assoc.
Qed.

Lemma all_digits_digits (w : nat) (n : Z) : all_digits (digits w n) = true.
Proof.
  revert n. induction w as [| w IH]; intro n; simpl; [reflexivity |].
  rewrite all_digits_app, IH. simpl. now rewrite digit_is_digit.
Qed.

Lemma digit_not_punctuation (c : ascii) :
  JSON.is_digit c = true ->
  Ascii.eqb c "-" = false /\ Ascii.eqb c ":" = false /\ Ascii.eqb c "." = false.
Proof.
  destruct c as [[] [] [] [] [] [] [] []]; intro Hd;
    try discriminate Hd; repeat split; reflexivity.
Qed.

Lemma strip_digits (ds r : string) :
  all_digits ds = true ->
  strip_punctuation (ds ++ r) = ds ++ strip_punctuation r.
Proof.
  induction ds as [| c ds IH]; simpl; intro Hd; [reflexivity |].
  apply andb_true_iff in Hd as [Hc Hds].
  destruct (digit_not_punctuation c Hc) as (-> & -> & ->). simpl.
  now rewrite IH.
Qed.

Lemma strip_hyphen (r : string) :
  strip_punctuation ("-" ++ r) = strip_punctuation r.
Proof. reflexivity. Qed.

Lemma strip_colon (r : string) :
  strip_punctuation (":" ++ r) = strip_punctuation r.
Proof. reflexivity. Qed.

Lemma strip_plus (r : string) :
  strip_punctuation ("+" ++ r) = "+" ++ strip_punctuation r.
Proof. reflexivity. Qed.

Lemma strip_T (r : string) :
  strip_punctuation ("T" ++ r) = "T" ++ strip_punctuation r.
Proof. reflexivity. Qed.

Lemma strip_millis (n : Z) (r : string) :
  strip_punctuation ("." ++ digits 3 n ++ r) = strip_punctuation r.
Proof.
  cbn [digits append]. cbn [strip_punctuation].
  rewrite !digit_is_digit. reflexivity.
Qed.

Lemma strip_year (y : Z) (r : string) :
  strip_punctuation (year_string y ++ r) = compact_year y ++ strip_punctuation r.
Proof.
  unfold year_string, compact_year.
  destruct ((0 <=? y) && (y <=? 9999))%Z.
  - apply strip_digits, all_digits_digits.
  - destruct (y <? 0)%Z.
    + rewrite append_assoc, strip_hyphen. apply strip_digits, all_digits_digits.
    + rewrite !append_assoc, strip_plus. f_equal.
      apply strip_digits, all_digits_digits.
Qed.

(** Without its punctuation, [toISOString] is the compact form. *)
Lemma strip_toISOString (t : Z) :
  strip_punctuation (toISOString t) = compact t.
Proof.
  unfold toISOString, compact, date_string, compact_date, time_string, compact_time.
  destruct (civil_from_days (t / msPerDay)) as [[y m] d].
  cbv zeta.
  rewrite !append_assoc.
  rewrite strip_year, strip_hyphen, (strip_digits (digits 2 m)) by apply all_digits_digits.
  rewrite strip_hyphen, (strip_digits (digits 2 d)) by apply all_digits_digits.
  rewrite strip_T.
  rewrite (strip_digits (digits 2 _)) by apply all_digits_digits.
  rewrite strip_colon, (strip_digits (digits 2 _)) by apply all_digits_digits.
  rewrite strip_colon, (strip_digits (digits 2 _)) by apply all_digits_digits.
  rewrite strip_millis. reflexivity.
Qed.

Lemma app_T_nonempty (a b : string) : Str.is_empty (a ++ "T" ++ b) = false.
Proof. destruct a; reflexivity. Qed.

Lemma compact_nonempty (t : Z) : Str.is_empty (compact t) = false.
Proof. apply app_T_nonempty. Qed.

End Compact.

Section FormatDateTime.
Context `{Host}.
Import App.

(** [formatDateTime] yields the compact form of the date the host read. *)
Lemma formatDateTime_Some (dateStr timeStr : JSValue) (s : string) :
  formatDateTime dateStr timeStr = Some s <->
  exists d t ms,
    JS.ToString dateStr = Normal d /\ JS.ToString timeStr = Normal t
    /\ DateTime.new_Date (d ++ "T" ++ t) = Some ms /\ s = compact ms.
Proof.
  unfold formatDateTime. split.
  - destruct (JS.ToString dateStr) as [d |]; cbn [cbind]; [| discriminate].
    destruct (JS.ToString timeStr) as [t |]; cbn [cbind]; [| discriminate].
    destruct (DateTime.new_Date (d ++ "T" ++ t)) as [ms |] eqn:E; [| discriminate].
    intros [= <-]. exists d, t, ms. rewrite strip_toISOString. auto.
  - intros (d & t & ms & -> & -> & E & ->). cbn [cbind]. rewrite E.
    now rewrite strip_toISOString.
Qed.

Lemma formatDateTime_None (dateStr timeStr : JSValue) :
  formatDateTime dateStr timeStr = None <-> ~ parseable dateStr timeStr.
Proof.
  split.
  - intros E (d & t & ms & Hd & Ht & Hp).
    assert (Hs : formatDateTime dateStr timeStr = Some (compact ms)).
    { apply formatDateTime_Some. exists d, t, ms. auto. }
    congruence.
  - intro Hn. destruct (formatDateTime dateStr timeStr) as [s |] eqn:E; [| reflexivity].
    exfalso. apply Hn. apply formatDateTime_Some in E as (d & t & ms & ? & ? & ? & ?).
    exists d, t, ms. auto.
Qed.

(** What [formatDateTime] returns is never empty: [!start] tests for [null]
    alone. *)
Lemma formatDateTime_nonempty (dateStr timeStr : JSValue) (s : string) :
  formatDateTime dateStr timeStr = Some s -> Str.is_empty s = false.
Proof.
  intro E. apply formatDateTime_Some in E as (d & t & ms & _ & _ & _ & ->).
  apply compact_nonempty.
Qed.

End FormatDateTime.

(** ** The Form State Controller: what each event does *)

Section Controller.
Context `{Host}.
Import App.

Lemma dispatch_no_previews (ev : Event) (e : Env) (cs : list Call) :
  snd (handler (state e) ev e) = after_calls e cs ->
  existsb sets_previews cs = false ->
  dispatch ev e = after_calls e cs.
Proof.
  intros Hrun Hno. unfold dispatch. rewrite Hrun.
  fold (made_since e (after_calls e cs)). rewrite made_since_after_calls.
  now rewrite Hno.
Qed.

(** A new selection: the handler clears the message and the link, stores the
    files, revokes the previews of its render, creates the new ones and
    stores them; the commit that follows runs the cleanup of the previous
    effect, which revokes the old previews again. *)
Lemma dispatch_FileChange (target_files : option (list File)) (e : Env) :
  let files := match target_files with Some l => l | None => [] end in
  let old := imagePreviews (state e) in
  dispatch (FileChange target_files) e
  = after_calls e
      ([Call_setMessage None; Call_setCalendarLink ""; Call_setSelectedFiles files]
       ++ map Call_revokeObjectURL old
       ++ creations (next_blob e) files
       ++ [Call_setImagePreviews (fresh_urls (next_blob e) files)]
       ++ map Call_revokeObjectURL old)%list.
Proof.
  intros files old.
  assert (Hrun : snd (handler (state e) (FileChange target_files) e)
                 = after_calls e
                     ([Call_setMessage None; Call_setCalendarLink "";
                       Call_setSelectedFiles files]
                      ++ map Call_revokeObjectURL old
                      ++ creations (next_blob e) files
                      ++ [Call_setImagePreviews (fresh_urls (next_blob e) files)])%list).
  { cbn [handler]. unfold handleFileChange.
    fold files. fold old.
    unfold setMessage, setCalendarLink, setSelectedFiles, setImagePreviews, perform.
    unfold bind. rewrite forEach_revoke.
    assert (G : forall l x, next_blob (after_calls x (map Call_revokeObjectURL l))
                            = next_blob x).
    { induction l as [| u l IH]; intro x; simpl; [reflexivity |]. now rewrite IH. }
    rewrite !after_calls_app.
    destruct files as [| f r].
    - reflexivity.
    - cbn [length Nat.ltb Nat.leb].
      rewrite mapM_create, G. reflexivity. }
  unfold dispatch. rewrite Hrun.
  fold (made_since e (after_calls e
          ([Call_setMessage None; Call_setCalendarLink ""; Call_setSelectedFiles files]
           ++ map Call_revokeObjectURL old ++ creations (next_blob e) files
           ++ [Call_setImagePreviews (fresh_urls (next_blob e) files)])%list)).
  rewrite made_since_after_calls.
  replace (existsb sets_previews _) with true.
  2:{ symmetry. rewrite !existsb_app. simpl. now rewrite !orb_true_r. }
  fold old. unfold effect_cleanup. rewrite forEach_revoke. cbn [snd].
  rewrite <- after_calls_app. f_equal.
  now rewrite <- !app_assoc.
Qed.

Lemma dispatch_ProcessClick_no_files (e : Env) :
  selectedFiles (state e) = [] ->
  dispatch ProcessClick e = after_calls e [Call_setMessage (Some no_files)].
Proof.
  intro Hno. apply dispatch_no_previews; [| reflexivity].
  cbn [handler]. unfold handleProcessImages_begin. rewrite Hno. reflexivity.
Qed.

Lemma dispatch_ProcessClick_files (e : Env) :
  selectedFiles (state e) <> [] ->
  dispatch ProcessClick e
  = after_calls e [Call_setIsLoading true; Call_setMessage None; Call_setCalendarLink ""].
Proof.
  intro Hsome. apply dispatch_no_previews; [| reflexivity].
  cbn [handler]. unfold handleProcessImages_begin.
  destruct (selectedFiles (state e)) as [| f r]; [congruence |]. reflexivity.
Qed.

(** The continuation of [handleProcessImages], by how the extraction settled
    and how the builder ended. *)
Lemma resume_run (files : list File) (io : Awaited) (e : Env) :
  snd (handleProcessImages_resume files io e)
  = match extraction io files with
    | Throw t =>
        after_calls e [Call_setMessage (Some (caught_message t)); Call_setIsLoading false]
    | Normal v =>
        match generateCalendarLink v false (after_calls e [Call_setFormData v]) with
        | (Normal _, e') => after_calls e' [Call_setIsLoading false]
        | (Throw t, e') =>
            after_calls e' [Call_setMessage (Some (caught_message t));
                            Call_setIsLoading false]
        end
    end.
Proof.
  unfold handleProcessImages_resume, try_finally, try_catch, extraction.
  unfold bind at 1. unfold lift at 1.
  destruct (imageParts io files) as [parts | t]; cbn [cbind].
  2:{ destruct t; reflexivity. }
  unfold bind at 1. unfold lift at 1.
  destruct (geminiService.extractScheduleFromImages (generateContent io) parts)
    as [v | t].
  2:{ destruct t; reflexivity. }
  unfold bind at 1. unfold setFormData at 1, perform at 1.
  change (after_call e (Call_setFormData v))
    with (after_calls e [Call_setFormData v]).
  destruct (generateCalendarLink v false (after_calls e [Call_setFormData v]))
    as [[u | t] e'].
  - reflexivity.
  - destruct t; reflexivity.
Qed.

(** The four ways a settled submission ends. *)
Lemma dispatch_ProcessSettled (files : list File) (io : Awaited) (e : Env) :
  (exists t, extraction io files = Throw t
     /\ dispatch (ProcessSettled files io) e
        = after_calls e [Call_setMessage (Some (caught_message t));
                         Call_setIsLoading false])
  \/ (exists v t, extraction io files = Normal v
        /\ dispatch (ProcessSettled files io) e
           = after_calls e [Call_setFormData v;
                            Call_setMessage (Some (caught_message t));
                            Call_setIsLoading false])
  \/ (exists v m, extraction io files = Normal v /\ InvalidScheduleError m
        /\ dispatch (ProcessSettled files io) e
           = after_calls e [Call_setFormData v; Call_setMessage (Some m);
                            Call_setIsLoading false])
  \/ (exists v url, extraction io files = Normal v /\ Str.is_empty url = false
        /\ dispatch (ProcessSettled files io) e
           = after_calls e (Call_setFormData v :: link_calls url false
                            ++ [Call_setIsLoading false])%list).
Proof.
  pose proof (resume_run files io e) as Hrun.
  destruct (extraction io files) as [v | t] eqn:Ex.
  2:{ left. exists t. split; [reflexivity |].
      apply dispatch_no_previews; [exact Hrun | reflexivity]. }
  right.
  destruct (builder_cases v false (after_calls e [Call_setFormData v]))
    as [[t Ht] | [[m [Hm Hr]] | [url [Hu Hr]]]].
  - left. exists v, t. split; [reflexivity |].
    rewrite Ht in Hrun. rewrite <- after_calls_app in Hrun.
    apply dispatch_no_previews; [exact Hrun | reflexivity].
  - right; left. exists v, m. split; [reflexivity |]. split; [exact Hm |].
    rewrite Hr in Hrun. rewrite <- !after_calls_app in Hrun.
    apply dispatch_no_previews; [exact Hrun | reflexivity].
  - right; right. exists v, url. split; [reflexivity |]. split; [exact Hu |].
    rewrite Hr in Hrun. rewrite <- !after_calls_app in Hrun.
    apply dispatch_no_previews; [exact Hrun | destruct url; reflexivity].
Qed.

(** The three ways a manual submission ends. *)
Lemma dispatch_ManualClick (e : Env) :
  dispatch ManualClick e = e
  \/ (exists m, InvalidScheduleError m
        /\ dispatch ManualClick e = after_calls e [Call_setMessage (Some m)])
  \/ (exists url, Str.is_empty url = false
        /\ dispatch ManualClick e = after_calls e (link_calls url true)).
Proof.
  destruct (builder_cases (formData (state e)) true e)
    as [[t Ht] | [[m [Hm Hr]] | [url [Hu Hr]]]].
  - left. apply (dispatch_no_previews _ _ []); [| reflexivity].
    cbn [handler]. unfold manualBtn_onClick. now rewrite Ht.
  - right; left. exists m. split; [exact Hm |].
    apply dispatch_no_previews; [| reflexivity].
    cbn [handler]. unfold manualBtn_onClick. now rewrite Hr.
  - right; right. exists url. split; [exact Hu |].
    apply dispatch_no_previews; [| reflexivity].
    cbn [handler]. unfold manualBtn_onClick. now rewrite Hr.
Qed.

End Controller.

Section ControllerFacts.
Context `{Host}.
Import App.

Lemma dispatch_FormChange (id value : string) (e : Env) :
  dispatch (FormChange id value) e
  = after_calls e
      [Call_setFormData
         (JSObject (JS.set_prop id (JSString value) (JS.own_props (formData (state e)))))].
Proof.
  apply dispatch_no_previews; reflexivity.
Qed.

Lemma releases_app (a b : list Call) :
  releases (a ++ b) = (releases a ++ releases b)%list.
Proof. apply flat_map_app. Qed.

Lemma releases_revokes (l : list ObjectURL) :
  releases (map Call_revokeObjectURL l) = l.
Proof.
  induction l as [| u l IH]; simpl; [reflexivity | now rewrite IH].
Qed.

Lemma releases_creations (n : nat) (files : list File) :
  releases (creations n files) = [].
Proof.
  revert n. induction files as [| f r IH]; intro n; simpl; [reflexivity | apply IH].
Qed.

Lemma releases_of_app (u : ObjectURL) (a b : list Call) :
  releases_of u (a ++ b) = releases_of u a + releases_of u b.
Proof.
  unfold releases_of. now rewrite filter_app, length_app.
Qed.

Lemma releases_of_creations (u : ObjectURL) (n : nat) (files : list File) :
  releases_of u (creations n files) = 0.
Proof.
  revert n. induction files as [| f r IH]; intro n; [reflexivity |].
  apply (IH (S n)).
Qed.

(** While the extraction runs, no event but its settlement ends it: the
    buttons take no click, and selecting files or editing a field leaves the
    loading flag set. *)
Lemma extracting_persists (e : Env) (ev : Event) :
  phase (state e) = Extracting ->
  enabled (state e) ev = true ->
  (forall files io, ev <> ProcessSettled files io) ->
  phase (state (dispatch ev e)) = Extracting.
Proof.
  unfold phase. intros Hx Hen Hns.
  destruct (isLoading (state e)) eqn:Hl; [| discriminate Hx].
  destruct ev as [tf | id value | | files io |]; simpl in Hen;
    try (rewrite Hl in Hen; discriminate Hen).
  - rewrite dispatch_FileChange, !after_calls_app, !state_after_revokes.
    cbn [after_calls fold_left after_call state apply_call isLoading].
    rewrite !state_after_creations, !state_after_revokes.
    cbn [after_calls fold_left after_call state apply_call isLoading].
    now rewrite Hl.
  - rewrite dispatch_FormChange.
    cbn [after_calls fold_left after_call state apply_call isLoading].
    now rewrite Hl.
  - exfalso. eapply Hns. reflexivity.
Qed.

End ControllerFacts.

(** ** Reading the link back *)

Section ReadBack.
Import URLSearchParams URL.

Lemma occurs_app (c : ascii) (a b : string) :
  occurs c (a ++ b) = occurs c a || occurs c b.
Proof.
  induction a as [| x a IH]; simpl; [reflexivity |].
  now rewrite IH, orb_assoc.
Qed.

(** One byte, encoded and decoded. *)
Lemma decode_encode_byte (c : ascii) (r : string) :
  decode (encode (String c EmptyString) ++ r) = String c (decode r).
Proof.
  destruct c as [[] [] [] [] [] [] [] []]; reflexivity.
Qed.

Lemma encode_cons (c : ascii) (r : string) :
  encode (String c r) = encode (String c EmptyString) ++ encode r.
Proof.
  simpl. destruct (unreserved c); [reflexivity |].
  destruct (Ascii.eqb c " "); reflexivity.
Qed.

Lemma decode_encode (s : string) : decode (encode s) = s.
Proof.
  induction s as [| c s IH]; [reflexivity |].
  rewrite encode_cons, decode_encode_byte. now rewrite IH.
Qed.

Lemma encode_byte_no_separator (c x : ascii) :
  separator x = true -> occurs x (encode (String c EmptyString)) = false.
Proof.
  intro Hx.
  assert (Hc : x = "&"%char \/ x = "="%char \/ x = "#"%char \/ x = "?"%char).
  { unfold separator in Hx.
    destruct (Ascii.eqb_spec x "&"); [now left |].
    destruct (Ascii.eqb_spec x "="); [now right; left |].
    destruct (Ascii.eqb_spec x "#"); [now right; right; left |].
    destruct (Ascii.eqb_spec x "?"); [now right; right; right | discriminate Hx]. }
  destruct Hc as [-> | [-> | [-> | ->]]];
    destruct c as [[] [] [] [] [] [] [] []]; reflexivity.
Qed.

Lemma encode_no_separator (s : string) (x : ascii) :
  separator x = true -> occurs x (encode s) = false.
Proof.
  intro Hx. induction s as [| c s IH]; [reflexivity |].
  rewrite encode_cons, occurs_app, IH, orb_false_r.
  now apply encode_byte_no_separator.
Qed.

Lemma cut_found (sep : ascii) (a b : string) :
  occurs sep a = false -> cut sep (a ++ String sep b) = (a, Some b).
Proof.
  induction a as [| x a IH]; simpl; intro Ha.
  - now rewrite Ascii.eqb_refl.
  - apply orb_false_iff in Ha as [Hx Ha]. rewrite Hx, (IH Ha). reflexivity.
Qed.

Lemma cut_not_found (sep : ascii) (a : string) :
  occurs sep a = false -> cut sep a = (a, None).
Proof.
  induction a as [| x a IH]; simpl; intro Ha; [reflexivity |].
  apply orb_false_iff in Ha as [Hx Ha]. rewrite Hx, (IH Ha). reflexivity.
Qed.

Lemma split_found (sep : ascii) (a b : string) :
  occurs sep a = false -> split sep (a ++ String sep b) = a :: split sep b.
Proof.
  induction a as [| x a IH]; simpl; intro Ha.
  - now rewrite Ascii.eqb_refl.
  - apply orb_false_iff in Ha as [Hx Ha]. rewrite Hx, (IH Ha). reflexivity.
Qed.

Lemma split_not_found (sep : ascii) (a : string) :
  occurs sep a = false -> split sep a = [a].
Proof.
  induction a as [| x a IH]; simpl; intro Ha; [reflexivity |].
  apply orb_false_iff in Ha as [Hx Ha]. rewrite Hx, (IH Ha). reflexivity.
Qed.

(** A serialised pair: no ampersand, not empty, and read back as the pair. *)
Lemma pair_text (k v : string) :
  occurs "&" (encode k ++ "=" ++ encode v) = false
  /\ Str.is_empty (encode k ++ "=" ++ encode v) = false
  /\ pair_of (encode k ++ "=" ++ encode v) = (k, v).
Proof.
  split; [| split].
  - rewrite !occurs_app, !encode_no_separator by reflexivity. reflexivity.
  - destruct (encode k); reflexivity.
  - unfold pair_of. change ("=" ++ encode v) with (String "=" (encode v)).
    rewrite cut_found by (now apply encode_no_separator).
    now rewrite !decode_encode.
Qed.

Lemma toString_cons (k v : string) (r : list (string * string)) :
  r <> [] ->
  toString ((k, v) :: r)
  = (encode k ++ "=" ++ encode v) ++ String "&" (toString r).
Proof.
  intro Hr. destruct r as [| p r]; [congruence |].
  cbn [toString]. destruct p as [k' v'].
  rewrite !append_assoc. reflexivity.
Qed.

(** The parser undoes the serialiser. *)
Lemma parse_query_toString (params : list (string * string)) :
  parse_query (toString params) = params.
Proof.
  induction params as [| [k v] r IH]; [reflexivity |].
  destruct (pair_text k v) as (Hamp & Hne & Hpair).
  destruct r as [| p r].
  - cbn [toString]. unfold parse_query.
    rewrite split_not_found by exact Hamp.
    cbn [filter]. rewrite Hne. cbn [negb map]. now rewrite Hpair.
  - rewrite toString_cons by discriminate.
    unfold parse_query. rewrite split_found by exact Hamp.
    cbn [filter]. rewrite Hne. cbn [negb map]. rewrite Hpair.
    f_equal. exact IH.
Qed.

Lemma toString_no_hash (params : list (string * string)) :
  occurs "#" (toString params) = false.
Proof.
  induction params as [| [k v] r IH]; [reflexivity |].
  destruct r as [| p r].
  - cbn [toString]. rewrite !occurs_app, !encode_no_separator by reflexivity.
    reflexivity.
  - rewrite toString_cons by discriminate.
    rewrite !occurs_app, !encode_no_separator by reflexivity.
    cbn [occurs]. now rewrite IH.
Qed.

(** The parameters of a generated link are the parameters it was made of. *)
Lemma searchParam_finalUrl (params : list (string * string)) (name : string) :
  searchParam (App.finalUrl params) name = lookup name params.
Proof.
  unfold searchParam, query, App.finalUrl.
  rewrite (cut_not_found "#" ("https://www.google.com/calendar/render?" ++ toString params)).
  2:{ rewrite occurs_app, toString_no_hash. reflexivity. }
  cbn [fst].
  change "https://www.google.com/calendar/render?"
    with ("https://www.google.com/calendar/render" ++ "?").
  rewrite append_assoc. change ("?" ++ toString params) with (String "?" (toString params)).
  rewrite cut_found by reflexivity.
  cbn [snd]. now rewrite parse_query_toString.
Qed.

(** ** [USVString] on texts without the lead byte of a surrogate *)

Lemma USVString_other (a : ascii) (r : string) :
  (Str.code a =? 237)%N = false ->
  USVString (String a r) = String a (USVString r).
Proof.
  intro Ha. cbn [USVString]. rewrite Ha.
  destruct r as [| b [| c r']]; reflexivity.
Qed.

Lemma USVString_plain (s r : string) :
  plain s = true -> USVString (s ++ r) = s ++ USVString r.
Proof.
  induction s as [| a s IH]; intro Hs; [reflexivity |].
  cbn [plain] in Hs. apply andb_true_iff in Hs as [Ha Hs].
  cbn [append]. rewrite USVString_other.
  - now rewrite IH.
  - apply N.ltb_lt in Ha. apply N.eqb_neq. lia.
Qed.

Lemma USVString_plain_all (s : string) : plain s = true -> USVString s = s.
Proof.
  induction s as [| a s IH]; intro Hs; [reflexivity |].
  cbn [plain] in Hs. apply andb_true_iff in Hs as [Ha Hs].
  rewrite USVString_other.
  - now rewrite IH.
  - apply N.ltb_lt in Ha. apply N.eqb_neq. lia.
Qed.

End ReadBack.

(** ** The Calendar Link Builder: title and dates *)

Section Title.
Context `{Host}.
Import App.

Lemma append_empty (s : string) : s ++ EmptyString = s.
Proof. induction s as [| c s IH]; simpl; [reflexivity | now rewrite IH]. Qed.

Lemma titleParts_strings (area name phone : string) :
  titleParts (JSString area) (JSString name) (JSString phone)
  = Normal (joined_title area name phone).
Proof.
  unfold titleParts, JS.join, joined_title.
  destruct area as [| a area], name as [| n name], phone as [| p phone];
    cbn [filter JS.truthy Str.is_empty negb JS.join_from JS.ToString cbind append];
    rewrite ?append_empty; reflexivity.
Qed.

Lemma joined_title_empty (area name phone : string) :
  Str.is_empty (joined_title area name phone)
  = Str.is_empty area && Str.is_empty name && Str.is_empty phone.
Proof.
  destruct area, name, phone; reflexivity.
Qed.

(** A field that is omitted or [null] counts for the title like an empty
    one. *)
Lemma titleParts_fields (a n p : JSValue) (area name phone : string) :
  field_text a = Some area -> field_text n = Some name -> field_text p = Some phone ->
  titleParts a n p = Normal (joined_title area name phone).
Proof.
  intros Ha Hn Hp. rewrite <- (titleParts_strings area name phone).
  assert (Hdrop : forall v text, field_text v = Some text ->
            filter JS.truthy [v] = filter JS.truthy [JSString text]).
  { intros v text Hv. destruct v; try discriminate Hv; injection Hv as <-; reflexivity. }
  unfold titleParts.
  change [a; n; p] with ([a] ++ [n] ++ [p])%list.
  change [JSString area; JSString name; JSString phone]
    with ([JSString area] ++ [JSString name] ++ [JSString phone])%list.
  rewrite !filter_app.
  now rewrite (Hdrop a area Ha), (Hdrop n name Hn), (Hdrop p phone Hp).
Qed.

Lemma lookup_text (title start_ end_ details location : string) :
  URL.lookup "text" (link_params title start_ end_ details location)
  = Some (URLSearchParams.USVString title).
Proof. reflexivity. Qed.

Lemma lookup_dates (title start_ end_ details location : string) :
  URL.lookup "dates" (link_params title start_ end_ details location)
  = Some (URLSearchParams.USVString (start_ ++ "/" ++ end_)).
Proof. reflexivity. Qed.

Lemma USVString_title (parts : string) :
  URLSearchParams.USVString (eventTitle parts)
  = "【清潔排班】"
    ++ URLSearchParams.USVString (if Str.is_empty parts then "新預約" else parts).
Proof.
  unfold eventTitle. cbn [append].
  repeat (rewrite USVString_other by reflexivity). reflexivity.
Qed.

Lemma eventDetails_address (address notes : JSValue) (details : string) :
  eventDetails address notes = Normal details ->
  exists location, JS.ToString address = Normal location.
Proof.
  unfold eventDetails. destruct (JS.ToString address) as [a | t]; [| discriminate].
  intros _. now exists a.
Qed.

End Title.

Section Dates.
Import DateTime.
Open Scope Z_scope.

Lemma days_from_civil_bounds (y m d : Z) :
  0 <= y <= 9999 -> 1 <= m <= 12 -> 1 <= d <= 31 ->
  -800000 <= days_from_civil y m d <= 3000000.
Proof.
  intros Hy Hm Hd. unfold days_from_civil.
  destruct (m <=? 2) eqn:E1; destruct (2 <? m) eqn:E2;
    Z.to_euclidean_division_equations; lia.
Qed.

Lemma valid_date_bounds (y m d : Z) :
  ISO.valid_date y m d = true -> 1 <= m <= 12 /\ 1 <= d <= 31.
Proof.
  unfold ISO.valid_date, ISO.days_in_month. intro Hv.
  apply andb_true_iff in Hv as [Hv Hd]. apply andb_true_iff in Hv as [Hv Hd1].
  apply andb_true_iff in Hv as [Hm1 Hm2].
  apply Z.leb_le in Hm1, Hm2, Hd1, Hd.
  split; [lia |].
  destruct (m =? 2); [destruct (ISO.leap y); lia |].
  destruct ((m =? 4) || (m =? 6) || (m =? 9) || (m =? 11))%bool; lia.
Qed.

(** A local time of the years 0 to 9999 is a time value that [TimeClip]
    keeps, whatever the zone. *)
Lemma local_time_in_range (y m d hh mm o : Z) :
  0 <= y <= 9999 -> ISO.valid_date y m d = true ->
  0 <= hh <= 23 -> 0 <= mm <= 59 -> -1440 <= o <= 1440 ->
  let t := ISO.make y m d hh mm 0 0 - o * 60000 in
  ((- maxTime <=? t) && (t <=? maxTime))%bool = true.
Proof.
  intros Hy Hv Hh Hm Ho t.
  destruct (valid_date_bounds y m d Hv) as [Hmo Hd].
  pose proof (days_from_civil_bounds y m d Hy Hmo Hd) as Hb.
  subst t. unfold ISO.make, msPerDay, maxTime.
  apply andb_true_iff. split; apply Z.leb_le; lia.
Qed.

Lemma digit_plain (n : Z) : (Str.code (digit n) <? 128)%N = true.
Proof.
  unfold digit.
  assert (Hb : 0 <= n mod 10 < 10) by (apply Z.mod_pos_bound; lia).
  assert (Hc : n mod 10 = 0 \/ n mod 10 = 1 \/ n mod 10 = 2 \/ n mod 10 = 3
               \/ n mod 10 = 4 \/ n mod 10 = 5 \/ n mod 10 = 6 \/ n mod 10 = 7
               \/ n mod 10 = 8 \/ n mod 10 = 9) by lia.
  destruct Hc as [-> | [-> | [-> | [-> | [-> | [-> | [-> | [-> | [-> | ->]]]]]]]]];
    reflexivity.
Qed.

Lemma plain_app (a b : string) : plain (a ++ b) = (plain a && plain b)%bool.
Proof.
  induction a as [| x a IH]; simpl; [reflexivity |].
  now rewrite IH, andb_assoc.
Qed.

Lemma plain_digits (w : nat) (n : Z) : plain (digits w n) = true.
Proof.
  revert n. induction w as [| w IH]; intro n; simpl; [reflexivity |].
  rewrite plain_app, IH. simpl. now rewrite digit_plain.
Qed.

Lemma plain_compact (t : Z) : plain (compact t) = true.
Proof.
  unfold compact, compact_date, compact_time, compact_year.
  destruct (civil_from_days (t / msPerDay)) as [[y m] d].
  destruct ((0 <=? y) && (y <=? 9999))%bool; [| destruct (y <? 0)];
    rewrite ?plain_app, ?plain_digits; reflexivity.
Qed.

Lemma digits_nonempty (w : nat) (n : Z) (r : string) :
  Str.is_empty (digits (S w) n ++ r) = false.
Proof.
  cbn [digits]. destruct (digits w (n / 10)); reflexivity.
Qed.

End Dates.

(** ** The calendar: a day number leads back to its date *)

Section Calendar.
Import DateTime.
Open Scope Z_scope.

(** The year of the era, from the day of the era. *)
Lemma year_of_era (yoe doy : Z) :
  0 <= yoe <= 399 -> 0 <= doy <= 365 ->
  (doy = 365 -> (yoe + 1) mod 4 = 0 /\ ((yoe + 1) mod 100 <> 0 \/ yoe = 399)) ->
  let doe := yoe * 365 + yoe / 4 - yoe / 100 + doy in
  0 <= doe <= 146096
  /\ (doe - doe / 1460 + doe / 36524 - doe / 146096) / 365 = yoe.
Proof.
  intros Hy Hd Hl doe. subst doe.
  split; Z.to_euclidean_division_equations; lia.
Qed.

Lemma civil_from_days_era (era yoe doy : Z) :
  0 <= yoe <= 399 -> 0 <= doy <= 365 ->
  (doy = 365 -> (yoe + 1) mod 4 = 0 /\ ((yoe + 1) mod 100 <> 0 \/ yoe = 399)) ->
  let doe := yoe * 365 + yoe / 4 - yoe / 100 + doy in
  let mp := (5 * doy + 2) / 153 in
  let m := if mp <? 10 then mp + 3 else mp - 9 in
  civil_from_days (era * 146097 + doe - 719468)
  = ((if m <=? 2 then yoe + era * 400 + 1 else yoe + era * 400), m,
     doy - (153 * mp + 2) / 5 + 1).
Proof.
  intros Hy Hd Hl doe mp m.
  destruct (year_of_era yoe doy Hy Hd Hl) as [Hdoe Hyoe]. fold doe in Hdoe, Hyoe.
  unfold civil_from_days.
  replace (era * 146097 + doe - 719468 + 719468) with (doe + era * 146097) by lia.
  rewrite Z.div_add by lia.
  rewrite (Z.div_small doe 146097) by lia.
  replace (doe + era * 146097 - (0 + era) * 146097) with doe by lia.
  cbv zeta. rewrite Hyoe.
  replace (doe - (365 * yoe + yoe / 4 - yoe / 100)) with doy by (unfold doe; lia).
  reflexivity.
Qed.

Lemma leap_true (y : Z) :
  ISO.leap y = true -> y mod 4 = 0 /\ (y mod 100 <> 0 \/ y mod 400 = 0).
Proof.
  unfold ISO.leap. intro Hl. apply andb_true_iff in Hl as [H4 H]. apply Z.eqb_eq in H4.
  split; [exact H4 |]. apply orb_true_iff in H as [H | H].
  - left. apply negb_true_iff, Z.eqb_neq in H. exact H.
  - right. now apply Z.eqb_eq in H.
Qed.

Lemma valid_date_inv (y m d : Z) :
  ISO.valid_date y m d = true ->
  1 <= m <= 12 /\ 1 <= d <= 31
  /\ (m = 2 -> d <= 29 /\ (d = 29 -> y mod 4 = 0 /\ (y mod 100 <> 0 \/ y mod 400 = 0)))
  /\ (m = 4 \/ m = 6 \/ m = 9 \/ m = 11 -> d <= 30).
Proof.
  unfold ISO.valid_date, ISO.days_in_month. intro Hv.
  apply andb_true_iff in Hv as [Hv Hd]. apply andb_true_iff in Hv as [Hv Hd1].
  apply andb_true_iff in Hv as [Hm1 Hm2].
  apply Z.leb_le in Hm1, Hm2, Hd1, Hd.
  destruct (m =? 2) eqn:E2.
  - apply Z.eqb_eq in E2. destruct (ISO.leap y) eqn:El.
    + apply leap_true in El. repeat split; try lia; tauto.
    + repeat split; try lia.
  - apply Z.eqb_neq in E2.
    destruct ((m =? 4) || (m =? 6) || (m =? 9) || (m =? 11))%bool eqn:E30.
    + repeat split; try lia.
    + apply orb_false_iff in E30 as [E30 E11]. apply orb_false_iff in E30 as [E30 E9].
      apply orb_false_iff in E30 as [E4 E6].
      apply Z.eqb_neq in E4, E6, E9, E11. repeat split; try lia.
Qed.

(** [civil_from_days] undoes [days_from_civil] on every date of the
    calendar. *)
Lemma civil_round_trip (y m d : Z) :
  ISO.valid_date y m d = true ->
  civil_from_days (days_from_civil y m d) = (y, m, d).
Proof.
  intro Hv. destruct (valid_date_inv y m d Hv) as (Hm & Hd & Hfeb & H30).
  unfold days_from_civil.
  set (y' := if m <=? 2 then y - 1 else y).
  set (mp := if 2 <? m then m - 3 else m + 9).
  set (era := y' / 400). set (yoe := y' - era * 400).
  set (doy := (153 * mp + 2) / 5 + d - 1).
  cbv zeta.
  assert (Hyoe : 0 <= yoe <= 399).
  { unfold yoe, era. Z.to_euclidean_division_equations; lia. }
  assert (Hcases : m = 1 \/ m = 2 \/ m = 3 \/ m = 4 \/ m = 5 \/ m = 6 \/ m = 7
                   \/ m = 8 \/ m = 9 \/ m = 10 \/ m = 11 \/ m = 12) by lia.
  assert (Hdoy : 0 <= doy <= 365
                 /\ (doy = 365 -> m = 2 /\ d = 29)
                 /\ (5 * doy + 2) / 153 = mp
                 /\ doy - (153 * mp + 2) / 5 + 1 = d
                 /\ (if mp <? 10 then mp + 3 else mp - 9) = m).
  { unfold doy, mp.
    destruct Hcases as [-> | [-> | [-> | [-> | [-> | [-> | [-> | [-> | [-> | [-> | [-> | ->]]]]]]]]]]];
      cbn [Z.ltb Z.compare Pos.compare Pos.compare_cont Z.sub Z.add Z.opp Z.pos_sub
           Pos.add Pos.succ Pos.pred_double Z.succ_double Z.pred_double Z.double
           Pos.add_carry Z.leb andb];
      (repeat split; try reflexivity; try (Z.to_euclidean_division_equations; lia)). }
  destruct Hdoy as (Hd1 & Hd365 & Hmp & Hdd & Hmm).
  assert (Hleap : doy = 365 ->
                  (yoe + 1) mod 4 = 0 /\ ((yoe + 1) mod 100 <> 0 \/ yoe = 399)).
  { intro E. destruct (Hd365 E) as [-> ->].
    destruct (Hfeb eq_refl) as [_ Hl]. specialize (Hl eq_refl).
    assert (Ey : y = yoe + 1 + era * 400) by (unfold yoe, y'; simpl; lia).
    rewrite Ey in Hl. clear - Hl Hyoe.
    Z.to_euclidean_division_equations; lia. }
  pose proof (civil_from_days_era era yoe doy Hyoe Hd1 Hleap) as Hc.
  cbv zeta in Hc. rewrite Hmp, Hdd, Hmm in Hc.
  rewrite Hc. f_equal. f_equal.
  unfold yoe, y'. destruct (m <=? 2); lia.
Qed.

(** The compact form of a local time that, moved to UTC, stays within its
    date: the digits of the date, and the digits of the UTC hour and
    minute. *)
Lemma compact_within_the_date (y m d hh mm o : Z) :
  0 <= y <= 9999 -> ISO.valid_date y m d = true ->
  0 <= hh * 60 + mm - o < 1440 ->
  compact (ISO.make y m d hh mm 0 0 - o * 60000)
  = (digits 4 y ++ digits 2 m ++ digits 2 d ++ "T"
     ++ digits 2 ((hh * 60 + mm - o) / 60) ++ digits 2 ((hh * 60 + mm - o) mod 60)
     ++ "00" ++ "Z")%string.
Proof.
  intros Hy Hv Hu.
  set (u := hh * 60 + mm - o) in *.
  assert (Et : ISO.make y m d hh mm 0 0 - o * 60000
               = u * 60000 + days_from_civil y m d * msPerDay).
  { unfold ISO.make, u. lia. }
  rewrite Et. unfold compact.
  rewrite Z.div_add, Z.mod_add by (unfold msPerDay; lia).
  rewrite (Z.div_small (u * 60000)), (Z.mod_small (u * 60000))
    by (unfold msPerDay; lia).
  cbn [Z.add]. unfold compact_date. rewrite (civil_round_trip y m d Hv).
  unfold compact_year.
  replace ((0 <=? y) && (y <=? 9999))%bool with true
    by (symmetry; apply andb_true_iff; split; apply Z.leb_le; lia).
  unfold compact_time.
  replace (u * 60000 / 3600000) with (u / 60)
    by (Z.to_euclidean_division_equations; lia).
  replace (u * 60000 / 60000) with u by (Z.to_euclidean_division_equations; lia).
  replace (u * 60000 / 1000 mod 60) with 0
    by (Z.to_euclidean_division_equations; lia).
  now rewrite !append_assoc.
Qed.

End Calendar.

(** ** Reachable states *)

Section Reachable.
Context `{Host}.
Import App.

Lemma length_fresh_urls (n : nat) (files : list File) :
  List.length (fresh_urls n files) = List.length files.
Proof.
  revert n. induction files as [| f r IH]; intro n; simpl; [reflexivity |].
  now rewrite IH.
Qed.

(** What an event leaves of the selection and of its previews: a new
    selection replaces both, every other event keeps both. *)
Lemma selection_after_dispatch (ev : Event) (e : Env) :
  (exists target_files,
     let files := match target_files with Some l => l | None => [] end in
     ev = FileChange target_files
     /\ selectedFiles (state (dispatch ev e)) = files
     /\ imagePreviews (state (dispatch ev e)) = fresh_urls (next_blob e) files)
  \/ (selectedFiles (state (dispatch ev e)) = selectedFiles (state e)
      /\ imagePreviews (state (dispatch ev e)) = imagePreviews (state e)).
Proof.
  destruct ev as [tf | id value | | files io |].
  - left. exists tf. cbv zeta. split; [reflexivity |].
    rewrite dispatch_FileChange, !after_calls_app, !state_after_revokes.
    cbn [after_calls fold_left after_call state apply_call selectedFiles imagePreviews].
    rewrite !state_after_creations, !state_after_revokes.
    split; reflexivity.
  - right. rewrite dispatch_FormChange. split; reflexivity.
  - right. destruct (selectedFiles (state e)) as [| f r] eqn:Ef.
    + rewrite dispatch_ProcessClick_no_files by exact Ef.
      split; [exact Ef | reflexivity].
    + rewrite dispatch_ProcessClick_files by congruence.
      split; [exact Ef | reflexivity].
  - right.
    destruct (dispatch_ProcessSettled files io e)
      as [[t [_ ->]] | [[v [t [_ ->]]] | [[v [m [_ [_ ->]]]] | [v [url [_ [_ ->]]]]]]];
      split; reflexivity.
  - right.
    destruct (dispatch_ManualClick e) as [-> | [[m [_ ->]] | [url [_ ->]]]];
      split; reflexivity.
Qed.

(** In every reachable state there is one preview handle for each selected
    file. *)
Lemma one_preview_per_file (e : Env) :
  reachable e ->
  List.length (imagePreviews (state e)) = List.length (selectedFiles (state e)).
Proof.
  induction 1 as [| e ev Hr IH Hen]; [reflexivity |].
  destruct (selection_after_dispatch ev e) as [[tf (_ & -> & ->)] | [-> ->]].
  - apply length_fresh_urls.
  - exact IH.
Qed.

End Reachable.

(** A settled extraction can succeed and still end with the failure message
    of the [catch] block: the body [null] is JSON, the client returns [null],
    the record is replaced by it, and the builder then throws on it. *)
Lemma null_body_replaces_the_record :
  let io := {| App.fileToBase64 := fun _ => Normal "aGVsbG8=";
               App.generateContent := answers "null" |} in
  let after := App.dispatch (H := taipei) (App.ProcessSettled [photo] io)
                 (App.dispatch (H := taipei) App.ProcessClick one_selected) in
  extraction (H := taipei) io [photo] = Normal JSNull
  /\ App.formData (App.state after) = JSNull
  /\ App.message (App.state after)
     = Some (caught_message (ErrorObject (TypeError_destructure (Host := taipei)))).
Proof. vm_compute. repeat split. Qed.

(** On a host at UTC the morning job keeps its date and its times. *)
Lemma utc_morning_keeps_its_date :
  URL.searchParam (App.calendarLink (App.state morning_job_utc)) "dates"
  = Some "20240510T070000Z/20240510T090000Z".
Proof. vm_compute. reflexivity. Qed.

(* ===================================================================== *)
(** * The claims of the specification *)
(* ===================================================================== *)

(** C1, as amended.  The record the Field Extraction Client returns is the
    JSON body of the response as it was parsed, nothing added: a field that
    the body omits is [undefined] in the record, and a field of the record is
    the empty string only where the body gives the empty string. *)
Theorem extract_returns_body_as_parsed `{Host}
    (generateContent : geminiService.Remote)
    (imageParts : list geminiService.InlineData) (text : string) (v : JSValue) :
  geminiService.no_apiKey = false ->
  generateContent (geminiService.request_for imageParts) = Normal (Some text) ->
  JSON.read (Str.trim text) = Some v ->
  geminiService.extractScheduleFromImages generateContent imageParts = Normal v
  /\ (forall props k,
        v = JSObject props -> JS.has_key k props = false ->
        JS.Get v k = JSUndefined)
  /\ (forall k,
        JS.Get v k = JSString "" ->
        exists props, v = JSObject props /\ JS.get_prop k props = JSString "").
Proof.
  intros Hkey Hremote Hread. split; [| split].
  - eapply extract_parsed; eassumption.
  - intros props k -> Habsent. simpl. apply get_prop_absent, Habsent.
  - intros k Hk. destruct v; simpl in Hk; try discriminate.
    eexists. split; [reflexivity | exact Hk].
Qed.

(** A body that gives [area] and [name] only: the record is that object, and
    its [date] is [undefined]. *)
Lemma extract_returns_body_as_parsed_witness :
  geminiService.extractScheduleFromImages (H := taipei) (answers partial_body) []
  = Normal (JSObject [("area", JSString "中山區"); ("name", JSString "王小明")]).
Proof.
  apply (extract_returns_body_as_parsed (H := taipei) (answers partial_body) []
           partial_body
           (JSObject [("area", JSString "中山區"); ("name", JSString "王小明")]));
    reflexivity.
Defined.

(** C1, as stated, fails: the body [partial_body] omits [date], and the record
    returned has [date] undefined, not the empty string. *)
Lemma omitted_field_stays_undefined :
  exists v,
    geminiService.extractScheduleFromImages (H := taipei) (answers partial_body) []
    = Normal v
    /\ JS.Get v "date" = JSUndefined
    /\ JS.Get v "date" <> JSString "".
Proof.
  eexists. split; [reflexivity |]. split; [reflexivity | discriminate].
Qed.

(** C2, as amended.  A response body that is not empty after trimming and is
    not JSON makes the client fail with the generic extraction failure: the
    [catch] block replaces the parser's error by it.  (The one exception is
    a parser whose own message holds the phrase the block takes for a
    rejected credential: then the authentication failure is what leaves.) *)
Theorem malformed_body_fails_generic `{Host}
    (generateContent : geminiService.Remote)
    (imageParts : list geminiService.InlineData) (text : string) :
  geminiService.no_apiKey = false ->
  generateContent (geminiService.request_for imageParts) = Normal (Some text) ->
  Str.is_empty (Str.trim text) = false ->
  JSON.read (Str.trim text) = None ->
  geminiService.extractScheduleFromImages generateContent imageParts
  = Throw (if Str.includes (SyntaxError_message (Str.trim text)) "API key not valid"
           then AuthenticationError else GenericExtractionError).
Proof.
  intros Hkey Hremote Hne Hread.
  unfold geminiService.extractScheduleFromImages, geminiService.call_and_parse.
  rewrite Hkey, Hremote. cbn [cbind]. rewrite Hne.
  unfold JSON.parse. rewrite Hread.
  unfold geminiService.rethrow.
  destruct (Str.includes (SyntaxError_message (Str.trim text)) "API key not valid");
    reflexivity.
Qed.

(** The body [{] is not JSON: the client fails with the generic failure. *)
Lemma malformed_body_fails_generic_witness :
  geminiService.extractScheduleFromImages (H := taipei) (answers "{") []
  = Throw GenericExtractionError.
Proof.
  apply (malformed_body_fails_generic (H := taipei) (answers "{") [] "{");
    reflexivity.
Defined.

(** C2, as stated, fails: on the malformed body [{] the error that surfaces is
    the generic failure, which is not the empty-response error. *)
Lemma malformed_body_is_not_empty_response_error :
  geminiService.extractScheduleFromImages (H := taipei) (answers "{") []
  = Throw GenericExtractionError
  /\ GenericExtractionError <> EmptyResponseError.
Proof.
  split; [reflexivity | discriminate].
Qed.

(** C3, as amended.  When a new file selection begins, whatever the state
    (files selected before or none), the status message and the last
    generated link are both cleared, whatever they were.  When an automatic
    submission begins with at least one file selected, both are cleared as
    well; with no file selected it shows an error message and leaves the
    link.  A manual submission, in whatever state, clears neither: among the
    calls it makes there is no [setMessage(null)] and no
    [setCalendarLink('')]. *)
Theorem selection_and_automatic_submission_clear `{Host}
    (e : App.Env) (target_files : option (list App.File)) :
  let e1 := App.dispatch (App.FileChange target_files) e in
  let e2 := App.dispatch App.ProcessClick e in
  let e3 := App.dispatch App.ManualClick e in
  (App.message (App.state e1) = None /\ App.calendarLink (App.state e1) = "")
  /\ (App.selectedFiles (App.state e) <> [] ->
      App.message (App.state e2) = None /\ App.calendarLink (App.state e2) = "")
  /\ (App.selectedFiles (App.state e) = [] ->
      App.message (App.state e2) = Some App.no_files
      /\ App.calendarLink (App.state e2) = App.calendarLink (App.state e))
  /\ existsb clears (made_since e e3) = false.
Proof.
  intros e1 e2 e3. split; [| split; [| split]].
  - subst e1. rewrite dispatch_FileChange.
    rewrite !after_calls_app.
    rewrite !state_after_revokes.
    cbn [App.after_calls fold_left App.after_call App.state App.apply_call
         App.message App.calendarLink].
    rewrite !state_after_creations, !state_after_revokes.
    split; reflexivity.
  - intro Hfiles. subst e2. rewrite dispatch_ProcessClick_files by exact Hfiles.
    split; reflexivity.
  - intro Hnone. subst e2. rewrite dispatch_ProcessClick_no_files by exact Hnone.
    split; reflexivity.
  - subst e3.
    destruct (dispatch_ManualClick e) as [-> | [[m [Hm ->]] | [url [Hu ->]]]].
    + replace (made_since e e) with (made_since e (App.after_calls e []))
        by reflexivity.
      now rewrite made_since_after_calls.
    + now rewrite made_since_after_calls.
    + rewrite made_since_after_calls. simpl. now rewrite Hu.
Qed.

(** A link was generated by hand with no file selected: the first selection
    clears the link and the success message.  And a link was generated by
    hand with one image selected: the automatic submission clears both. *)
Lemma selection_and_automatic_submission_clear_witness :
  let stale :=
    App.dispatch (H := taipei) App.ManualClick
      (App.dispatch (H := taipei) (App.FormChange "date" "2024-05-10") one_selected) in
  (App.selectedFiles (App.state linked_by_hand) = []
   /\ App.message (App.state linked_by_hand) = Some App.manual_success
   /\ App.calendarLink (App.state linked_by_hand) <> ""
   /\ App.message (App.state (App.dispatch (H := taipei) (App.FileChange (Some [photo]))
                                linked_by_hand)) = None
   /\ App.calendarLink (App.state (App.dispatch (H := taipei)
                                     (App.FileChange (Some [photo])) linked_by_hand)) = "")
  /\ (App.selectedFiles (App.state stale) = [photo]
      /\ App.message (App.state stale) = Some App.manual_success
      /\ App.calendarLink (App.state stale) <> ""
      /\ App.message (App.state (App.dispatch (H := taipei) App.ProcessClick stale)) = None
      /\ App.calendarLink (App.state (App.dispatch (H := taipei) App.ProcessClick stale))
         = "").
Proof.
  intro stale. split.
  - destruct (selection_and_automatic_submission_clear (H := taipei) linked_by_hand
                (Some [photo])) as [[H1 H2] _].
    split; [reflexivity |]. split; [reflexivity |].
    split; [vm_compute; discriminate |]. split; [exact H1 | exact H2].
  - destruct (selection_and_automatic_submission_clear (H := taipei) stale None)
      as [_ [H2 _]].
    assert (Hfiles : App.selectedFiles (App.state stale) <> [])
      by (vm_compute; discriminate).
    destruct (H2 Hfiles) as [Hm Hl].
    split; [vm_compute; reflexivity |]. split; [vm_compute; reflexivity |].
    split; [vm_compute; discriminate |]. split; [exact Hm | exact Hl].
Defined.

(** C3, as stated, fails for a manual submission: with the date erased after
    a link was generated, the submission leaves the old link in place and
    puts an error message where the claim wants none. *)
Lemma manual_submission_keeps_stale_link :
  let after := App.dispatch (H := taipei) App.ManualClick date_erased in
  App.calendarLink (App.state date_erased) <> ""
  /\ App.calendarLink (App.state after) = App.calendarLink (App.state date_erased)
  /\ App.message (App.state after) = Some App.missing_fields.
Proof.
  vm_compute. repeat split; [discriminate].
Qed.

(** C4.  A record whose date, start time or end time is empty, or whose date
    does not combine with one of the times into a parseable date-time, is
    refused with an InvalidScheduleError, the same in manual and in automatic
    mode; the refusal is the only call made, so the link generated before
    stays as it was. *)
Theorem invalid_schedule_is_refused `{Host}
    (props : list (string * JSValue)) (e : App.Env) :
  let data := JSObject props in
  let date := JS.Get data "date" in
  let startTime := JS.Get data "startTime" in
  let endTime := JS.Get data "endTime" in
  JS.truthy date = false \/ JS.truthy startTime = false \/ JS.truthy endTime = false
  \/ ~ parseable date startTime \/ ~ parseable date endTime ->
  exists m,
    InvalidScheduleError m /\ App.isError m = true
    /\ forall isManual,
         App.generateCalendarLink data isManual e
         = (Normal tt, App.after_calls e [App.Call_setMessage (Some m)])
         /\ App.calendarLink (App.state (snd (App.generateCalendarLink data isManual e)))
            = App.calendarLink (App.state e).
Proof.
  intros data date startTime endTime Hbad.
  destruct (negb (JS.truthy date) || negb (JS.truthy startTime)
            || negb (JS.truthy endTime)) eqn:Hm.
  - exists App.missing_fields. split; [now left |]. split; [reflexivity |].
    intro isManual.
    rewrite (builder_missing data isManual e eq_refl Hm). split; reflexivity.
  - assert (Hf : App.not_ (App.formatDateTime date startTime)
                 || App.not_ (App.formatDateTime date endTime) = true).
    { apply orb_false_iff in Hm as [Hm He].
      apply orb_false_iff in Hm as [Hd Hs].
      apply negb_false_iff in Hd, Hs, He.
      destruct Hbad as [Hb | [Hb | [Hb | [Hb | Hb]]]]; try congruence.
      - apply formatDateTime_None in Hb. rewrite Hb. reflexivity.
      - apply formatDateTime_None in Hb. rewrite Hb. apply orb_true_r. }
    exists App.invalid_format. split; [now right |]. split; [reflexivity |].
    intro isManual.
    rewrite (builder_invalid data isManual e eq_refl Hm Hf). split; reflexivity.
Qed.

(** The record the form starts with has no date: it is refused with the
    message for missing fields, in both modes. *)
Lemma invalid_schedule_is_refused_witness :
  exists m,
    InvalidScheduleError m /\ App.isError m = true
    /\ forall isManual,
         App.generateCalendarLink (H := taipei) (JSObject initial_props) isManual
           linked_by_hand
         = (Normal tt, App.after_calls linked_by_hand [App.Call_setMessage (Some m)])
         /\ App.calendarLink
              (App.state (snd (App.generateCalendarLink (H := taipei)
                                 (JSObject initial_props) isManual linked_by_hand)))
            = App.calendarLink (App.state linked_by_hand).
Proof.
  apply (invalid_schedule_is_refused (H := taipei) initial_props linked_by_hand).
  left. reflexivity.
Defined.

(** C5.  Beginning a submission leaves the record of the form alone, and a
    settled extraction either succeeded, and then the record is exactly the
    value the client returned, with nothing kept from before, or it failed,
    and then the record is the one from before and an error message is
    shown. *)
Theorem extraction_is_atomic `{Host}
    (e : App.Env) (files : list App.File) (io : App.Awaited) :
  let e' := App.dispatch (App.ProcessSettled files io) e in
  App.formData (App.state (App.dispatch App.ProcessClick e)) = App.formData (App.state e)
  /\ match extraction io files with
  | Normal v => App.formData (App.state e') = v
  | Throw _ =>
      App.formData (App.state e') = App.formData (App.state e)
      /\ exists m, App.message (App.state e') = Some m /\ App.isError m = true
  end.
Proof.
  intro e'. subst e'. split.
  { destruct (App.selectedFiles (App.state e)) as [| f r] eqn:Ef.
    - now rewrite dispatch_ProcessClick_no_files.
    - rewrite dispatch_ProcessClick_files; [reflexivity | congruence]. }
  destruct (dispatch_ProcessSettled files io e)
    as [[t [Ex ->]] | [[v [t [Ex ->]]] | [[v [m [Ex [Hm ->]]]] | [v [url [Ex [Hu ->]]]]]]];
    rewrite Ex.
  - split; [reflexivity |]. eexists. split; reflexivity.
  - reflexivity.
  - reflexivity.
  - reflexivity.
Qed.

(** C6.  The title parts are the non-empty ones among area, name and phone,
    joined by one separator between neighbours: for 中山區, 王小明 and no
    phone the joined text is [中山區 | 王小明].  The event title puts the
    joined text after its prefix, and the literal 新預約 in its place exactly
    when area, name and phone are all empty. *)
Theorem title_joins_nonempty_fields `{Host} (area name phone : string) :
  App.titleParts (JSString area) (JSString name) (JSString phone)
  = Normal (joined_title area name phone)
  /\ App.titleParts (JSString "中山區") (JSString "王小明") (JSString "")
     = Normal "中山區 | 王小明"
  /\ App.eventTitle (joined_title area name phone)
     = "【清潔排班】"
       ++ (if Str.is_empty area && Str.is_empty name && Str.is_empty phone
           then "新預約" else joined_title area name phone)
  /\ App.eventTitle (joined_title "" "" "") = "【清潔排班】新預約".
Proof.
  split; [apply titleParts_strings |].
  split; [reflexivity |].
  split; [| reflexivity].
  unfold App.eventTitle. now rewrite joined_title_empty.
Qed.

(** C7, as amended.  For a valid date and two times of day with the start
    before the end, on a host that reads the two local date-times at the
    offsets [o1] and [o2] from UTC, the builder generates a link whose
    [dates] parameter is exactly the compact UTC form of the start instant, a
    slash, and the compact UTC form of the end instant.  The end instant is
    later than the start instant by the difference of the input times, less
    what the offset changed in between.  When both times, moved to UTC, stay
    within the input date (as they always do at offset 0), the two forms are
    the digits of that date followed by the UTC hour and minute, so they
    differ in the time part only; otherwise a form falls on a neighbouring
    date. *)
Theorem dates_parameter_is_the_utc_range `{Host}
    (props : list (string * JSValue)) (isManual : bool) (e : App.Env)
    (y m d h1 m1 h2 m2 o1 o2 : Z) (parts details : string) :
  let data := JSObject props in
  let ts := (ISO.make y m d h1 m1 0 0 - o1 * 60000)%Z in
  let te := (ISO.make y m d h2 m2 0 0 - o2 * 60000)%Z in
  let u1 := (h1 * 60 + m1 - o1)%Z in
  let u2 := (h2 * 60 + m2 - o2)%Z in
  let day := DateTime.digits 4 y ++ DateTime.digits 2 m ++ DateTime.digits 2 d in
  JS.Get data "date" = JSString (date_text y m d) ->
  JS.Get data "startTime" = JSString (time_text h1 m1) ->
  JS.Get data "endTime" = JSString (time_text h2 m2) ->
  (0 <= y <= 9999)%Z -> ISO.valid_date y m d = true ->
  (0 <= h1 <= 23)%Z -> (0 <= m1 <= 59)%Z ->
  (0 <= h2 <= 23)%Z -> (0 <= m2 <= 59)%Z ->
  (h1 * 60 + m1 < h2 * 60 + m2)%Z ->
  Date_parse (date_text y m d ++ "T" ++ time_text h1 m1) = Some ts ->
  Date_parse (date_text y m d ++ "T" ++ time_text h2 m2) = Some te ->
  (-1440 <= o1 <= 1440)%Z -> (-1440 <= o2 <= 1440)%Z ->
  App.titleParts (JS.Get data "area") (JS.Get data "name") (JS.Get data "phone")
  = Normal parts ->
  App.eventDetails (JS.Get data "address") (JS.Get data "notes") = Normal details ->
  (exists url,
     App.generateCalendarLink data isManual e
     = (Normal tt, App.after_calls e (link_calls url isManual))
     /\ URL.searchParam url "dates" = Some (compact ts ++ "/" ++ compact te))
  /\ (te - ts = ((h2 * 60 + m2) - (h1 * 60 + m1) - (o2 - o1)) * 60000)%Z
  /\ ((0 <= u1 < 1440)%Z -> (0 <= u2 < 1440)%Z ->
      compact ts
      = day ++ "T" ++ DateTime.digits 2 (u1 / 60) ++ DateTime.digits 2 (u1 mod 60)
            ++ "00" ++ "Z"
      /\ compact te
         = day ++ "T" ++ DateTime.digits 2 (u2 / 60) ++ DateTime.digits 2 (u2 mod 60)
               ++ "00" ++ "Z").
Proof.
  intros data ts te u1 u2 day Hdate Hstart Hend Hy Hv Hh1 Hm1 Hh2 Hm2 Hlt Hps Hpe
         Ho1 Ho2 Ht Hdet.
  assert (Hfs : App.formatDateTime (JS.Get data "date") (JS.Get data "startTime")
                = Some (compact ts)).
  { apply formatDateTime_Some. rewrite Hdate, Hstart.
    exists (date_text y m d), (time_text h1 m1), ts.
    repeat split. unfold DateTime.new_Date. rewrite Hps.
    subst ts. now rewrite local_time_in_range. }
  assert (Hfe : App.formatDateTime (JS.Get data "date") (JS.Get data "endTime")
                = Some (compact te)).
  { apply formatDateTime_Some. rewrite Hdate, Hend.
    exists (date_text y m d), (time_text h2 m2), te.
    repeat split. unfold DateTime.new_Date. rewrite Hpe.
    subst te. now rewrite local_time_in_range. }
  split; [| split].
  - destruct (eventDetails_address _ _ _ Hdet) as [location Hl].
    eexists. split.
    + apply (builder_links data isManual e (compact ts) (compact te) parts details
               location); try assumption; try reflexivity.
      * rewrite Hdate, Hstart, Hend. cbn [JS.truthy].
        unfold date_text, time_text. now rewrite !digits_nonempty.
      * apply compact_nonempty.
      * apply compact_nonempty.
    + rewrite searchParam_finalUrl, lookup_dates.
      rewrite USVString_plain_all; [reflexivity |].
      rewrite !plain_app, !plain_compact. reflexivity.
  - subst ts te. unfold ISO.make. lia.
  - intros Hu1 Hu2. subst ts te day. split.
    + rewrite (compact_within_the_date y m d h1 m1 o1 Hy Hv Hu1).
      now rewrite !append_assoc.
    + rewrite (compact_within_the_date y m d h2 m2 o2 Hy Hv Hu2).
      now rewrite !append_assoc.
Qed.

(** The morning job in Taipei, eight hours east of UTC: the link is
    generated, from 23:00 UTC of the day before to 01:00 UTC. *)
Lemma dates_parameter_is_the_utc_range_witness :
  exists url,
    App.generateCalendarLink (H := taipei) (JSObject morning_props) true morning_job
    = (Normal tt, App.after_calls morning_job (link_calls url true))
    /\ URL.searchParam url "dates" = Some "20240509T230000Z/20240510T010000Z".
Proof.
  destruct (dates_parameter_is_the_utc_range (H := taipei) morning_props true
              morning_job 2024 5 10 7 0 9 0 480 480 "中山區" "服務地址：")
    as [[url [Hrun Hdates]] _]; try reflexivity; try lia.
  exists url. split; [exact Hrun | exact Hdates].
Defined.

(** C7, as stated, fails: in Taipei the morning job from 07:00 to 09:00 of
    10 May gives the range [20240509T230000Z/20240510T010000Z], whose two
    timestamps differ in the date as well as in the time. *)
Lemma taipei_morning_straddles_utc_midnight :
  let link :=
    App.calendarLink (App.state (App.dispatch (H := taipei) App.ManualClick morning_job)) in
  URL.searchParam link "dates" = Some ("20240509T230000Z" ++ "/" ++ "20240510T010000Z")
  /\ String.substring 0 8 "20240509T230000Z" <> String.substring 0 8 "20240510T010000Z".
Proof.
  split; [vm_compute; reflexivity | vm_compute; discriminate].
Qed.

(** C8, as amended.  A new selection releases every preview handle of the
    prior selection inside [handleFileChange], once each and before any new
    handle is created; the cleanup of the effect, which runs when the render
    that follows is committed, releases each of them once more.  With [n]
    prior previews that makes [2 * n] release calls, two for each handle. *)
Theorem previews_released_by_handler_and_by_cleanup `{Host}
    (e : App.Env) (target_files : option (list App.File)) :
  let files := match target_files with Some l => l | None => [] end in
  let old := App.imagePreviews (App.state e) in
  let made := made_since e (App.dispatch (App.FileChange target_files) e) in
  made = ([App.Call_setMessage None; App.Call_setCalendarLink "";
           App.Call_setSelectedFiles files]
          ++ map App.Call_revokeObjectURL old
          ++ creations (App.next_blob e) files
          ++ [App.Call_setImagePreviews (fresh_urls (App.next_blob e) files)]
          ++ map App.Call_revokeObjectURL old)%list
  /\ releases made = (old ++ old)%list
  /\ List.length (releases made) = 2 * List.length old
  /\ forall u, releases_of u made = 2 * releases_of u (map App.Call_revokeObjectURL old).
Proof.
  intros files old made.
  assert (Hmade : made
                  = ([App.Call_setMessage None; App.Call_setCalendarLink "";
                      App.Call_setSelectedFiles files]
                     ++ map App.Call_revokeObjectURL old
                     ++ creations (App.next_blob e) files
                     ++ [App.Call_setImagePreviews (fresh_urls (App.next_blob e) files)]
                     ++ map App.Call_revokeObjectURL old)%list).
  { subst made. rewrite dispatch_FileChange. apply made_since_after_calls. }
  split; [exact Hmade |].
  assert (Hrel : releases made = (old ++ old)%list).
  { rewrite Hmade. rewrite !releases_app, !releases_revokes, releases_creations.
    reflexivity. }
  split; [exact Hrel |]. split.
  - rewrite Hrel, length_app. lia.
  - intro u. rewrite Hmade. rewrite !releases_of_app, releases_of_creations.
    simpl. lia.
Qed.

(** C8, as stated, fails: after one image was selected, selecting another
    releases the one prior preview handle twice, not once. *)
Lemma prior_preview_is_released_twice :
  let after := App.dispatch (H := taipei) (App.FileChange (Some [photo2])) one_selected in
  App.imagePreviews (App.state one_selected) = [App.blob 0]
  /\ releases_of (App.blob 0) (made_since one_selected after) = 2
  /\ List.length (releases (made_since one_selected after)) <> 1.
Proof.
  vm_compute. repeat split. discriminate.
Qed.

(** C9, as amended.  An automatic submission made in Idle with at least one
    file selected moves the component to Extracting, where both buttons are
    disabled; when the submission settles, however it settles and whatever
    happened to the form meanwhile, the component is Idle again, the trigger
    is enabled and exactly one status message has been set; until then no
    other event ends Extracting.  An automatic submission with no file
    selected does not enter Extracting: the phase stays what it was and one
    error message is set.  A manual submission, in whatever state and with or
    without files selected, never sets the loading flag and leaves the phase
    as it is; its button can be clicked in Idle only, so it begins and ends
    in Idle. *)
Theorem submission_lifecycle `{Host}
    (e : App.Env) (io : App.Awaited) :
  let e1 := App.dispatch App.ProcessClick e in
  (phase (App.state e) = Idle ->
   App.selectedFiles (App.state e) <> [] ->
   phase (App.state e1) = Extracting
   /\ App.enabled (App.state e1) App.ProcessClick = false
   /\ App.enabled (App.state e1) App.ManualClick = false)
  /\ (forall (e' : App.Env) (files : list App.File),
        let e2 := App.dispatch (App.ProcessSettled files io) e' in
        phase (App.state e2) = Idle
        /\ App.enabled (App.state e2) App.ProcessClick = true
        /\ List.length (List.filter is_setMessage (made_since e' e2)) = 1
        /\ exists m, App.message (App.state e2) = Some m)
  /\ (forall (e' : App.Env) (ev : App.Event),
        phase (App.state e') = Extracting ->
        App.enabled (App.state e') ev = true ->
        (forall files io', ev <> App.ProcessSettled files io') ->
        phase (App.state (App.dispatch ev e')) = Extracting)
  /\ (forall e0 : App.Env,
        App.selectedFiles (App.state e0) = [] ->
        let e0' := App.dispatch App.ProcessClick e0 in
        phase (App.state e0') = phase (App.state e0)
        /\ made_since e0 e0' = [App.Call_setMessage (Some App.no_files)])
  /\ (forall em0 : App.Env,
        let em := App.dispatch App.ManualClick em0 in
        phase (App.state em) = phase (App.state em0)
        /\ List.existsb is_setIsLoading (made_since em0 em) = false
        /\ (App.enabled (App.state em0) App.ManualClick = true ->
            phase (App.state em0) = Idle /\ phase (App.state em) = Idle)).
Proof.
  intros e1.
  split; [| split; [| split; [apply @extracting_persists | split]]].
  - intros Hidle Hfiles. subst e1.
    rewrite dispatch_ProcessClick_files by exact Hfiles.
    repeat split; reflexivity.
  - intros e' files e2. subst e2.
    destruct (dispatch_ProcessSettled files io e')
      as [[t [Ex ->]] | [[v [t [Ex ->]]] | [[v [m [Ex [Hm ->]]]] | [v [url [Ex [Hu ->]]]]]]];
      rewrite made_since_after_calls;
      (repeat split; [reflexivity .. | eexists; reflexivity]).
  - intros e0 Hnone e0'. subst e0'.
    rewrite dispatch_ProcessClick_no_files by exact Hnone.
    rewrite made_since_after_calls. split; reflexivity.
  - intros em0 em. subst em.
    assert (Hkeep : phase (App.state (App.dispatch App.ManualClick em0))
                    = phase (App.state em0)
                    /\ existsb is_setIsLoading
                         (made_since em0 (App.dispatch App.ManualClick em0)) = false).
    { destruct (dispatch_ManualClick em0) as [-> | [[m [Hm ->]] | [url [Hu ->]]]].
      - split; [reflexivity |].
        replace (made_since em0 em0) with (made_since em0 (App.after_calls em0 []))
          by reflexivity.
        now rewrite made_since_after_calls.
      - rewrite made_since_after_calls. split; reflexivity.
      - rewrite made_since_after_calls. split; reflexivity. }
    destruct Hkeep as [Hphase Hflag].
    split; [exact Hphase |]. split; [exact Hflag |].
    intro Hen. rewrite Hphase.
    assert (Hidle : phase (App.state em0) = Idle).
    { unfold phase. simpl in Hen. apply negb_true_iff in Hen. now rewrite Hen. }
    split; exact Hidle.
Qed.

(** One image selected and nothing in flight: the click starts the
    extraction, and a settled extraction ends it.  And a date typed by hand
    with no file selected: the manual submission begins and ends in Idle. *)
Lemma submission_lifecycle_witness :
  (phase (App.state (App.dispatch (H := taipei) App.ProcessClick one_selected))
   = Extracting
   /\ phase (App.state
               (App.dispatch (H := taipei) (App.ProcessSettled [photo] good_io)
                  (App.dispatch (H := taipei) App.ProcessClick one_selected)))
      = Idle)
  /\ (App.selectedFiles (App.state date_typed) = []
      /\ phase (App.state date_typed) = Idle
      /\ phase (App.state (App.dispatch (H := taipei) App.ManualClick date_typed)) = Idle).
Proof.
  destruct (submission_lifecycle (H := taipei) one_selected good_io)
    as (H1 & H2 & _ & _ & H5).
  split.
  - split.
    + apply H1; [reflexivity | discriminate].
    + exact (proj1 (H2 (App.dispatch (H := taipei) App.ProcessClick one_selected)
                       [photo])).
  - split; [reflexivity |].
    destruct (H5 date_typed) as (_ & _ & Hm).
    exact (Hm eq_refl).
Defined.

(** C9, as stated, fails: with no file selected the automatic submission
    does not enter Extracting; it ends at once, Idle, with an error
    message. *)
Lemma submission_without_files_stays_idle :
  let after := App.dispatch (H := taipei) App.ProcessClick App.initialEnv in
  phase (App.state App.initialEnv) = Idle
  /\ phase (App.state after) = Idle
  /\ phase (App.state after) <> Extracting
  /\ App.message (App.state after) = Some App.no_files.
Proof.
  vm_compute. repeat split. discriminate.
Qed.

(** C10.  For a record that passes validation (date, start time and end time
    are present and combine into parseable date-times) and whose area, name
    and phone are texts, or omitted, the builder generates a link, and its
    [text] parameter is the prefix 【清潔排班】 followed by the joined title,
    the non-empty ones among area, name and phone with one separator between
    neighbours, or by 新預約 exactly when all three are empty.  And whatever
    the record, a link the builder sets has a [text] parameter that begins
    with the prefix. *)
Theorem link_title_has_prefix `{Host}
    (data : JSValue) (isManual : bool) (e : App.Env)
    (area name phone details : string) :
  coercible data = true ->
  JS.truthy (JS.Get data "date") = true ->
  JS.truthy (JS.Get data "startTime") = true ->
  JS.truthy (JS.Get data "endTime") = true ->
  parseable (JS.Get data "date") (JS.Get data "startTime") ->
  parseable (JS.Get data "date") (JS.Get data "endTime") ->
  field_text (JS.Get data "area") = Some area ->
  field_text (JS.Get data "name") = Some name ->
  field_text (JS.Get data "phone") = Some phone ->
  App.eventDetails (JS.Get data "address") (JS.Get data "notes") = Normal details ->
  (exists url,
     App.generateCalendarLink data isManual e
     = (Normal tt, App.after_calls e (link_calls url isManual))
     /\ URL.searchParam url "text"
        = Some ("【清潔排班】"
                ++ URLSearchParams.USVString
                     (if Str.is_empty area && Str.is_empty name && Str.is_empty phone
                      then "新預約" else joined_title area name phone)))
  /\ (forall (data' : JSValue) (e' : App.Env) (url : string),
        In (App.Call_setCalendarLink url)
           (made_since e' (snd (App.generateCalendarLink data' isManual e'))) ->
        exists rest, URL.searchParam url "text" = Some ("【清潔排班】" ++ rest)).
Proof.
  intros Hc Hd Hs He Hps Hpe Ha Hn Hp Hdet. split.
  - destruct (App.formatDateTime (JS.Get data "date") (JS.Get data "startTime"))
      as [s |] eqn:Es.
    2:{ apply formatDateTime_None in Es. contradiction. }
    destruct (App.formatDateTime (JS.Get data "date") (JS.Get data "endTime"))
      as [n |] eqn:En.
    2:{ apply formatDateTime_None in En. contradiction. }
    destruct (eventDetails_address _ _ _ Hdet) as [location Hl].
    pose proof (titleParts_fields _ _ _ area name phone Ha Hn Hp) as Ht.
    eexists. split.
    + apply (builder_links data isManual e s n (joined_title area name phone)
               details location); try assumption.
      * now rewrite Hd, Hs, He.
      * eapply formatDateTime_nonempty; eassumption.
      * eapply formatDateTime_nonempty; eassumption.
    + rewrite searchParam_finalUrl, lookup_text, USVString_title.
      now rewrite joined_title_empty.
  - intros data' e' url Hin.
    apply builder_link_shape in Hin as (p & s & n & d & l & _ & ->).
    eexists. rewrite searchParam_finalUrl, lookup_text, USVString_title. reflexivity.
Qed.

(** A job with a name and a phone number and no area: the title joins the
    two.  And a job with none of the three: the title is the fallback. *)
Lemma link_title_has_prefix_witness :
  let job :=
    JSObject [("name", JSString "王小明"); ("phone", JSString "0912-345-678");
              ("date", JSString "2024-05-10"); ("startTime", JSString "07:00");
              ("endTime", JSString "09:00")] in
  let bare :=
    JSObject [("date", JSString "2024-05-10"); ("startTime", JSString "07:00");
              ("endTime", JSString "09:00")] in
  (exists url,
     App.generateCalendarLink (H := taipei) job true App.initialEnv
     = (Normal tt, App.after_calls App.initialEnv (link_calls url true))
     /\ URL.searchParam url "text" = Some "【清潔排班】王小明 | 0912-345-678")
  /\ (exists url,
        App.generateCalendarLink (H := taipei) bare true App.initialEnv
        = (Normal tt, App.after_calls App.initialEnv (link_calls url true))
        /\ URL.searchParam url "text" = Some "【清潔排班】新預約").
Proof.
  intros job bare. split.
  - destruct (link_title_has_prefix (H := taipei) job true App.initialEnv
                "" "王小明" "0912-345-678" "服務地址：undefined")
      as [[url [Hrun Htext]] _]; try reflexivity.
    + exists "2024-05-10", "07:00", 1715295600000%Z. repeat split; reflexivity.
    + exists "2024-05-10", "09:00", 1715302800000%Z. repeat split; reflexivity.
    + exists url. split; [exact Hrun | exact Htext].
  - destruct (link_title_has_prefix (H := taipei) bare true App.initialEnv
                "" "" "" "服務地址：undefined")
      as [[url [Hrun Htext]] _]; try reflexivity.
    + exists "2024-05-10", "07:00", 1715295600000%Z. repeat split; reflexivity.
    + exists "2024-05-10", "09:00", 1715302800000%Z. repeat split; reflexivity.
    + exists url. split; [exact Hrun | exact Htext].
Defined.

(* ===================================================================== *)
(** * Further properties of the code *)
(* ===================================================================== *)

(** ** The Field Extraction Client *)

(** X1.  Whatever the host holds and the remote service does, the client ends
    in one of four ways: it returns the parsed value, or it throws the error
    for a missing credential, for a rejected credential, or the generic
    failure.  The error it makes for an empty body is never what leaves. *)
Theorem client_ends_in_one_of_four_ways `{Host}
    (generateContent : geminiService.Remote)
    (imageParts : list geminiService.InlineData) :
  let outcome := geminiService.extractScheduleFromImages generateContent imageParts in
  ((exists v, outcome = Normal v)
   \/ outcome = Throw MissingCredentialError
   \/ outcome = Throw AuthenticationError
   \/ outcome = Throw GenericExtractionError)
  /\ outcome <> Throw EmptyResponseError.
Proof.
  intro outcome. split.
  - apply extraction_outcomes.
  - apply empty_response_error_never_surfaces.
Qed.

(** X3.  A rejected remote call surfaces as the authentication failure when
    what was thrown is an [Error] whose message holds [API key not valid],
    and as the generic failure in every other case, an error with another
    message or a thrown value that is no [Error]; the two failures carry
    different texts. *)
Theorem rejected_call_is_classified `{Host}
    (generateContent : geminiService.Remote)
    (imageParts : list geminiService.InlineData) (t : Thrown) :
  geminiService.no_apiKey = false ->
  generateContent (geminiService.request_for imageParts) = Throw t ->
  geminiService.extractScheduleFromImages generateContent imageParts
  = Throw (match t with
           | ErrorObject m =>
               if Str.includes m "API key not valid"
               then AuthenticationError else GenericExtractionError
           | NotAnError => GenericExtractionError
           end)
  /\ AuthenticationError <> GenericExtractionError.
Proof.
  intros Hkey Hremote. split.
  - now apply rejected_call.
  - discriminate.
Qed.

(** A service that answers [400 API key not valid]: the authentication
    failure. *)
Lemma rejected_call_is_classified_witness :
  geminiService.extractScheduleFromImages (H := taipei) rejects_key []
  = Throw AuthenticationError.
Proof.
  exact (proj1 (rejected_call_is_classified (H := taipei) rejects_key []
                  (ErrorObject "[400] API key not valid. Please pass a valid API key.")
                  eq_refl eq_refl)).
Defined.

(** X4.  A fulfilled call whose body is empty, or white space only, fails
    with the generic failure: the error made for it is thrown inside the
    [try] block and replaced by the [catch] block. *)
Theorem empty_body_fails_generic `{Host}
    (generateContent : geminiService.Remote)
    (imageParts : list geminiService.InlineData) (text : string) :
  geminiService.no_apiKey = false ->
  generateContent (geminiService.request_for imageParts) = Normal (Some text) ->
  Str.is_empty (Str.trim text) = true ->
  geminiService.extractScheduleFromImages generateContent imageParts
  = Throw GenericExtractionError.
Proof.
  intros Hkey Hremote Hempty. now apply (empty_body_leaves_as_generic _ _ text).
Qed.

(** A body of a line feed, a no-break space and blanks. *)
Lemma empty_body_fails_generic_witness :
  geminiService.extractScheduleFromImages (H := taipei)
    (answers (Str.LF ++ String (Str.byte 194) (String (Str.byte 160) "  "))) []
  = Throw GenericExtractionError.
Proof.
  apply (empty_body_fails_generic (H := taipei) _ []
           (Str.LF ++ String (Str.byte 194) (String (Str.byte 160) "  ")));
    reflexivity.
Defined.

(** ** The automatic submission, when the extraction fails *)

Section SettledFailures.
Context `{Host}.
Import App.

Lemma settled_failure (files : list File) (io : Awaited) (e : Env) (t : Thrown) :
  extraction io files = Throw t ->
  dispatch (ProcessSettled files io) e
  = after_calls e [Call_setMessage (Some (caught_message t)); Call_setIsLoading false].
Proof.
  intro Ex. apply dispatch_no_previews; [| reflexivity].
  cbn [handler]. rewrite resume_run, Ex. reflexivity.
Qed.

(** [Promise.all] over the reads: the data of every file in order, or the
    rejection of the first file that fails. *)
Lemma imageParts_all (io : Awaited) (files : list File) (d : File -> string) :
  (forall f, In f files -> fileToBase64 io f = Normal (d f)) ->
  imageParts io files
  = Normal (map (fun f => {| geminiService.data := d f;
                             geminiService.mimeType := file_type f |}) files).
Proof.
  induction files as [| f r IH]; intro Hall; [reflexivity |].
  cbn [imageParts map]. rewrite (Hall f (or_introl eq_refl)). cbn [cbind].
  rewrite IH by (intros g Hg; apply Hall; now right). reflexivity.
Qed.

Lemma imageParts_first_failure (io : Awaited) (good rest : list File) (f : File)
    (t : Thrown) :
  (forall g, In g good -> exists d, fileToBase64 io g = Normal d) ->
  fileToBase64 io f = Throw t ->
  imageParts io (good ++ f :: rest) = Throw t.
Proof.
  intros Hgood Hf. induction good as [| g good IH]; cbn [app imageParts].
  - now rewrite Hf.
  - destruct (Hgood g (or_introl eq_refl)) as [d Hd]. rewrite Hd. cbn [cbind].
    rewrite IH by (intros x Hx; apply Hgood; now right). reflexivity.
Qed.

(** Among reads that all fail alike, the first file that fails, in the order
    of the selection. *)
Lemma first_failure_split (io : Awaited) (files : list File) (f : File) (t : Thrown) :
  (forall g, In g files ->
     (exists d, fileToBase64 io g = Normal d) \/ fileToBase64 io g = Throw t) ->
  In f files ->
  fileToBase64 io f = Throw t ->
  exists good g rest,
    files = (good ++ g :: rest)%list
    /\ (forall x, In x good -> exists d, fileToBase64 io x = Normal d)
    /\ fileToBase64 io g = Throw t.
Proof.
  intros Hall Hin Hf. induction files as [| x r IH]; [destruct Hin |].
  destruct (Hall x (or_introl eq_refl)) as [[d Hd] | Hx].
  - destruct Hin as [-> | Hin]; [congruence |].
    destruct (IH (fun g Hg => Hall g (or_intror Hg)) Hin)
      as (good & g & rest & -> & Hgood & Hg).
    exists (x :: good), g, rest. split; [reflexivity |]. split; [| exact Hg].
    intros y [<- | Hy]; [now exists d | now apply Hgood].
  - exists [], x, r. split; [reflexivity |]. split; [intros y [] | exact Hx].
Qed.

End SettledFailures.

(** X2.  Without a credential (the environment variable unset or empty), an
    automatic submission whose files were read ends with the message for a
    failed recognition carrying [Gemini API key is not configured.], and with
    the loading flag reset; these are its only two calls, so the record, the
    link and the previews stay as they were and no window is opened, whatever
    the remote service would have answered. *)
Theorem missing_credential_ends_the_submission `{Host}
    (e : App.Env) (files : list App.File) (io : App.Awaited)
    (parts : list geminiService.InlineData) :
  geminiService.no_apiKey = true ->
  App.imageParts io files = Normal parts ->
  App.dispatch (App.ProcessSettled files io) e
  = App.after_calls e
      [App.Call_setMessage
         (Some (App.extraction_failed "Gemini API key is not configured."));
       App.Call_setIsLoading false].
Proof.
  intros Hkey Hparts.
  apply (settled_failure files io e MissingCredentialError).
  unfold extraction. rewrite Hparts. cbn [cbind].
  now apply missing_key_fails.
Qed.

(** One image, read well, on a browser with no credential. *)
Lemma missing_credential_ends_the_submission_witness :
  App.message
    (App.state (App.dispatch (H := taipei_without_key) (App.ProcessSettled [photo] good_io)
                  one_selected))
  = Some {| App.text := "自動識別失敗：Gemini API key is not configured. 請檢查圖片清晰度，或手動輸入資料。";
            App.isError := true |}.
Proof.
  rewrite (missing_credential_ends_the_submission (H := taipei_without_key)
             one_selected [photo] good_io
             [{| geminiService.data := "aGVsbG8="; geminiService.mimeType := "image/png" |}]
             eq_refl eq_refl).
  reflexivity.
Defined.

(** X5.  When the reading of a file fails, the automatic submission ends
    with the message for a failed recognition and the loading flag reset, and
    makes no other call: the record, the link and the previews stay as they
    were.  The message carries the text of the error, and [發生未知錯誤。]
    when what the reader rejected with is no [Error], as the event of a
    [FileReader] is.  Every failed read rejects with the same value here, so
    that it does not matter which rejection [Promise.all] sees first.  The
    credential and the remote service play no part. *)
Theorem failed_read_ends_the_submission `{Host}
    (e : App.Env) (files : list App.File) (f : App.File) (io : App.Awaited)
    (t : Thrown) :
  (forall g, In g files ->
     (exists d, App.fileToBase64 io g = Normal d) \/ App.fileToBase64 io g = Throw t) ->
  In f files ->
  App.fileToBase64 io f = Throw t ->
  App.dispatch (App.ProcessSettled files io) e
  = App.after_calls e
      [App.Call_setMessage (Some (caught_message t)); App.Call_setIsLoading false]
  /\ caught_message NotAnError
     = {| App.text := "自動識別失敗：發生未知錯誤。 請檢查圖片清晰度，或手動輸入資料。";
          App.isError := true |}.
Proof.
  intros Hall Hin Hf. split; [| reflexivity].
  apply settled_failure. unfold extraction.
  destruct (first_failure_split io files f t Hall Hin Hf)
    as (good & g & rest & -> & Hgood & Hg).
  now rewrite (imageParts_first_failure io good rest g t Hgood Hg).
Qed.

(** One image that the reader cannot read. *)
Lemma failed_read_ends_the_submission_witness :
  App.dispatch (H := taipei) (App.ProcessSettled [photo] unreadable_io) one_selected
  = App.after_calls one_selected
      [App.Call_setMessage (Some (caught_message NotAnError));
       App.Call_setIsLoading false].
Proof.
  apply (failed_read_ends_the_submission (H := taipei) one_selected [photo] photo
           unreadable_io NotAnError).
  - intros g _. now right.
  - now left.
  - reflexivity.
Defined.

(** When every file is read, the submission settles as the client does on
    the parts read, and the request the client makes of them is this one. *)
Lemma extraction_of_read_files `{Host}
    (io : App.Awaited) (files : list App.File) (d : App.File -> string) :
  (forall f, In f files -> App.fileToBase64 io f = Normal (d f)) ->
  let read := map (fun f => {| geminiService.data := d f;
                               geminiService.mimeType := App.file_type f |}) files in
  extraction io files
  = geminiService.extractScheduleFromImages (App.generateContent io) read
  /\ geminiService.request_for read
     = {| geminiService.model := "gemini-2.5-flash";
          geminiService.parts :=
            geminiService.TextPart geminiService.userQuery
            :: map (fun f => geminiService.ImagePart
                               {| geminiService.data := d f;
                                  geminiService.mimeType := App.file_type f |}) files;
          geminiService.systemInstruction := geminiService.systemPrompt;
          geminiService.responseMimeType := "application/json";
          geminiService.schema := geminiService.responseSchema |}.
Proof.
  intros Hall read. split.
  - unfold extraction. now rewrite (imageParts_all io files d Hall).
  - unfold geminiService.request_for, read. now rewrite map_map.
Qed.

(** X6.  The request an automatic submission sends.  With a credential and
    every file read, the remote service is asked one thing: the model
    [gemini-2.5-flash], the text query first and then one image part for each
    selected file, in the order of the selection, each with the data read
    from its file and the media type of its file, the system prompt, JSON as
    the response type and the schema of the eight fields.  What the service
    answers to that request decides how the submission's extraction settles:
    a body that parses is returned as parsed, a rejection is thrown on, and
    two services that answer that request alike settle it alike, whatever
    they answer to any other request. *)
Theorem request_holds_the_files_in_order `{Host}
    (io : App.Awaited) (files : list App.File) (d : App.File -> string) :
  geminiService.no_apiKey = false ->
  (forall f, In f files -> App.fileToBase64 io f = Normal (d f)) ->
  let request :=
    {| geminiService.model := "gemini-2.5-flash";
       geminiService.parts :=
         geminiService.TextPart geminiService.userQuery
         :: map (fun f => geminiService.ImagePart
                            {| geminiService.data := d f;
                               geminiService.mimeType := App.file_type f |}) files;
       geminiService.systemInstruction := geminiService.systemPrompt;
       geminiService.responseMimeType := "application/json";
       geminiService.schema := geminiService.responseSchema |} in
  (forall text v,
     App.generateContent io request = Normal (Some text) ->
     JSON.read (Str.trim text) = Some v ->
     extraction io files = Normal v)
  /\ (forall t,
        App.generateContent io request = Throw t ->
        exists t', extraction io files = Throw t')
  /\ (forall remote : geminiService.Remote,
        remote request = App.generateContent io request ->
        extraction {| App.fileToBase64 := App.fileToBase64 io;
                      App.generateContent := remote |} files
        = extraction io files).
Proof.
  intros Hkey Hall request.
  destruct (extraction_of_read_files io files d Hall) as [Hex Hreq].
  fold request in Hreq.
  split; [| split].
  - intros text v Hanswer Hread. rewrite Hex.
    apply (extract_parsed _ _ text); [exact Hkey | now rewrite Hreq | exact Hread].
  - intros t Hanswer. rewrite Hex. eexists.
    apply (rejected_call _ _ t); [exact Hkey | now rewrite Hreq].
  - intros remote Hsame.
    destruct (extraction_of_read_files
                {| App.fileToBase64 := App.fileToBase64 io;
                   App.generateContent := remote |} files d Hall) as [Hex' _].
    rewrite Hex, Hex'. cbn [App.generateContent].
    unfold geminiService.extractScheduleFromImages, geminiService.call_and_parse.
    now rewrite Hreq, Hsame.
Qed.

(** Two images, both read, and a service that answers the full record. *)
Lemma request_holds_the_files_in_order_witness :
  extraction (H := taipei) good_io [photo; photo2] = Normal (JSObject full_props).
Proof.
  destruct (request_holds_the_files_in_order (H := taipei) good_io [photo; photo2]
              (fun _ => "aGVsbG8=") eq_refl (fun f _ => eq_refl)) as [Hbody _].
  apply (Hbody full_body).
  - reflexivity.
  - vm_compute. reflexivity.
Defined.

(** ** [fileToBase64] *)

(** X7.  [fileToBase64] resolves with what stands between the first comma of
    the data URL and the next one: for a data URL with one comma, as
    [readAsDataURL] makes them, that is the whole base64 payload.  A result
    without a comma resolves with [undefined], and a reader error rejects
    with a value that is no [Error]. *)
Theorem fileToBase64_gives_the_payload (header payload more : string) :
  occurs "," header = false ->
  occurs "," payload = false ->
  fileToBase64_settles (reader_onload (header ++ "," ++ payload))
  = Normal (JSString payload)
  /\ fileToBase64_settles (reader_onload (header ++ "," ++ payload ++ "," ++ more))
     = Normal (JSString payload)
  /\ fileToBase64_settles (reader_onload header) = Normal JSUndefined
  /\ fileToBase64_settles reader_onerror = Throw NotAnError.
Proof.
  intros Hh Hp. unfold fileToBase64_settles, second_piece.
  change ("," ++ payload) with (String "," payload).
  change ("," ++ payload ++ "," ++ more) with (String "," (payload ++ String "," more)).
  rewrite !(split_found "," header) by exact Hh.
  rewrite (split_found "," payload) by exact Hp.
  rewrite (split_not_found "," payload) by exact Hp.
  rewrite (split_not_found "," header) by exact Hh.
  repeat split.
Qed.

(** The data URL of a small PNG. *)
Lemma fileToBase64_gives_the_payload_witness :
  fileToBase64_settles (reader_onload "data:image/png;base64,aGVsbG8=")
  = Normal (JSString "aGVsbG8=").
Proof.
  exact (proj1 (fileToBase64_gives_the_payload "data:image/png;base64" "aGVsbG8="
                  EmptyString eq_refl eq_refl)).
Defined.

(** ** [handleFormChange] *)

Section FormChanges.
Import App.

Lemma get_set_same (k : string) (v : JSValue) (props : list (string * JSValue)) :
  JS.get_prop k (JS.set_prop k v props) = v.
Proof.
  induction props as [| [k' v'] r IH]; simpl.
  - now rewrite String.eqb_refl.
  - destruct (String.eqb k k') eqn:E; simpl.
    + now rewrite String.eqb_refl.
    + now rewrite E.
Qed.

Lemma get_set_other (k id : string) (v : JSValue) (props : list (string * JSValue)) :
  k <> id -> JS.get_prop k (JS.set_prop id v props) = JS.get_prop k props.
Proof.
  intro Hne. induction props as [| [k' v'] r IH]; simpl.
  - destruct (String.eqb_spec k id); [contradiction | reflexivity].
  - destruct (String.eqb_spec id k') as [<- | Hk]; simpl.
    + destruct (String.eqb_spec k id); [contradiction | reflexivity].
    + destruct (String.eqb k k'); [reflexivity | exact IH].
Qed.

Lemma set_set_same (k : string) (v w : JSValue) (props : list (string * JSValue)) :
  JS.set_prop k w (JS.set_prop k v props) = JS.set_prop k w props.
Proof.
  induction props as [| [k' v'] r IH]; simpl.
  - now rewrite String.eqb_refl.
  - destruct (String.eqb k k') eqn:E; simpl.
    + now rewrite String.eqb_refl.
    + now rewrite E, IH.
Qed.

End FormChanges.

(** X8.  Editing a field of a form whose record is an object makes one call,
    [setFormData]: afterwards the edited field holds the typed text, every
    other field holds what it held, and the selection, the previews, the
    loading flag, the status message and the link are untouched (an edit does
    not clear a message or a link shown before).  Editing the same field
    twice leaves the record of the second edit alone. *)
Theorem edit_changes_one_field `{Host}
    (e : App.Env) (props : list (string * JSValue)) (id value value' : string) :
  App.formData (App.state e) = JSObject props ->
  let e' := App.dispatch (App.FormChange id value) e in
  made_since e e'
  = [App.Call_setFormData (JSObject (JS.set_prop id (JSString value) props))]
  /\ JS.Get (App.formData (App.state e')) id = JSString value
  /\ (forall k, k <> id ->
        JS.Get (App.formData (App.state e')) k = JS.Get (App.formData (App.state e)) k)
  /\ (App.selectedFiles (App.state e') = App.selectedFiles (App.state e)
      /\ App.imagePreviews (App.state e') = App.imagePreviews (App.state e)
      /\ App.isLoading (App.state e') = App.isLoading (App.state e)
      /\ App.message (App.state e') = App.message (App.state e)
      /\ App.calendarLink (App.state e') = App.calendarLink (App.state e))
  /\ App.formData (App.state (App.dispatch (App.FormChange id value') e'))
     = App.formData (App.state (App.dispatch (App.FormChange id value') e)).
Proof.
  intros Hobj e'. subst e'. rewrite !dispatch_FormChange.
  rewrite made_since_after_calls.
  cbn [App.after_calls fold_left App.after_call App.state App.apply_call App.formData
       App.selectedFiles App.imagePreviews App.isLoading App.message App.calendarLink].
  rewrite Hobj. cbn [JS.own_props JS.Get].
  split; [reflexivity |]. split; [apply get_set_same |].
  split; [intros k Hk; now apply get_set_other |].
  split; [repeat split |].
  now rewrite set_set_same.
Qed.

(** The date typed into the form the component starts with. *)
Lemma edit_changes_one_field_witness :
  JS.Get (App.formData (App.state date_typed)) "date" = JSString "2024-05-10"
  /\ JS.Get (App.formData (App.state date_typed)) "startTime" = JSString "09:00".
Proof.
  destruct (edit_changes_one_field (H := taipei) App.initialEnv initial_props
              "date" "2024-05-10" "" eq_refl) as (_ & Hsame & Hother & _).
  split; [exact Hsame |].
  exact (Hother "startTime" ltac:(discriminate)).
Defined.

(** ** Object URLs: none leaks, none is shown after its release *)

Section ObjectURLs.
Context `{Host}.
Import App.

Lemma created_app (a b : list Call) : created (a ++ b) = (created a ++ created b)%list.
Proof. apply flat_map_app. Qed.

Lemma created_revokes (l : list ObjectURL) : created (map Call_revokeObjectURL l) = [].
Proof. induction l as [| u l IH]; simpl; [reflexivity | exact IH]. Qed.

Lemma created_creations (n : nat) (files : list File) :
  created (creations n files) = fresh_urls n files.
Proof.
  revert n. induction files as [| f r IH]; intro n; simpl; [reflexivity |].
  now rewrite IH.
Qed.

Lemma fresh_urls_seq (n : nat) (files : list File) :
  fresh_urls n files = map blob (seq n (List.length files)).
Proof.
  revert n. induction files as [| f r IH]; intro n; simpl; [reflexivity |].
  now rewrite IH.
Qed.

Lemma next_blob_after_calls (e : Env) (cs : list Call) :
  next_blob (after_calls e cs) = next_blob e + List.length (created cs).
Proof.
  revert e. induction cs as [| c cs IH]; intro e; simpl; [lia |].
  rewrite IH. destruct c; simpl; lia.
Qed.

Lemma quiet_created (cs : list Call) :
  forallb leaves_previews cs = true -> created cs = [] /\ releases cs = [].
Proof.
  induction cs as [| c cs IH]; simpl; intro Hq; [split; reflexivity |].
  apply andb_true_iff in Hq as [Hc Hcs]. destruct (IH Hcs) as [-> ->].
  destruct c; try discriminate Hc; split; reflexivity.
Qed.

Lemma quiet_previews (e : Env) (cs : list Call) :
  forallb leaves_previews cs = true ->
  imagePreviews (state (after_calls e cs)) = imagePreviews (state e).
Proof.
  revert e. induction cs as [| c cs IH]; simpl; intros e Hq; [reflexivity |].
  apply andb_true_iff in Hq as [Hc Hcs]. rewrite (IH _ Hcs).
  destruct c; try discriminate Hc; reflexivity.
Qed.

(** Every event but a new selection makes calls that leave the object URLs
    and the previews alone. *)
Lemma dispatch_quiet (ev : Event) (e : Env) :
  (forall tf, ev <> FileChange tf) ->
  exists cs, dispatch ev e = after_calls e cs /\ forallb leaves_previews cs = true.
Proof.
  intro Hnf. destruct ev as [tf | id value | | files io |].
  - exfalso. eapply Hnf. reflexivity.
  - eexists. split; [apply dispatch_FormChange | reflexivity].
  - destruct (selectedFiles (state e)) as [| f r] eqn:Ef.
    + eexists. split; [now apply dispatch_ProcessClick_no_files | reflexivity].
    + eexists. split; [apply dispatch_ProcessClick_files; congruence | reflexivity].
  - destruct (dispatch_ProcessSettled files io e)
      as [[t [_ ->]] | [[v [t [_ ->]]] | [[v [m [_ [_ ->]]]] | [v [url [_ [_ ->]]]]]]];
      eexists; (split; [reflexivity | reflexivity]).
  - destruct (dispatch_ManualClick e) as [-> | [[m [_ ->]] | [url [_ ->]]]].
    + exists []. split; reflexivity.
    + eexists. split; reflexivity.
    + eexists. split; reflexivity.
Qed.

Lemma urls_accounted_quiet (e : Env) (cs : list Call) :
  forallb leaves_previews cs = true ->
  urls_accounted e -> urls_accounted (after_calls e cs).
Proof.
  intros Hq Hinv. unfold urls_accounted in *.
  destruct (quiet_created cs Hq) as [Hc Hr].
  rewrite log_after_calls, created_app, releases_app, Hc, Hr, !app_nil_r.
  rewrite (quiet_previews e cs Hq), next_blob_after_calls.
  rewrite Hc. simpl. rewrite Nat.add_0_r. exact Hinv.
Qed.

Lemma in_blobs (u : ObjectURL) (a n : nat) :
  In u (map blob (seq a n)) <-> a <= index_of u < a + n.
Proof.
  rewrite in_map_iff. split.
  - intros [k [<- Hk]]. apply in_seq in Hk. exact Hk.
  - intro Hk. exists (index_of u). split; [now destruct u | now apply in_seq].
Qed.

Lemma blobs_NoDup (a n : nat) : NoDup (map blob (seq a n)).
Proof.
  revert a. induction n as [| n IH]; intro a; simpl; constructor; [| apply IH].
  intro Hin. apply in_blobs in Hin. simpl in Hin. lia.
Qed.

Lemma urls_accounted_selection (e : Env) (target_files : option (list File)) :
  urls_accounted e -> urls_accounted (dispatch (FileChange target_files) e).
Proof.
  intros (Hc & Hnd & Hlive & Hdone & Hrel).
  rewrite dispatch_FileChange.
  set (files := match target_files with Some l => l | None => [] end).
  set (old := imagePreviews (state e)) in *.
  set (n := next_blob e) in *.
  assert (Hprev : imagePreviews (state (after_calls e
            ([Call_setMessage None; Call_setCalendarLink ""; Call_setSelectedFiles files]
             ++ map Call_revokeObjectURL old ++ creations n files
             ++ [Call_setImagePreviews (fresh_urls n files)]
             ++ map Call_revokeObjectURL old)%list)) = fresh_urls n files).
  { rewrite !app_assoc. rewrite after_calls_app, state_after_revokes.
    rewrite after_calls_app. reflexivity. }
  unfold urls_accounted.
  rewrite Hprev, log_after_calls, next_blob_after_calls.
  rewrite !created_app, !releases_app, !created_revokes, !releases_revokes.
  rewrite created_creations, releases_creations. simpl.
  rewrite !app_nil_r. fold n.
  rewrite fresh_urls_seq, length_map, length_seq.
  assert (Hold : forall u, In u old -> index_of u < n).
  { intros u Hu. destruct (Hlive u Hu) as [Hin _]. rewrite Hc in Hin.
    apply in_blobs in Hin. lia. }
  assert (Hrels : forall u, In u (releases (log e)) -> index_of u < n).
  { intros u Hu. apply Hrel in Hu. rewrite Hc in Hu. apply in_blobs in Hu. lia. }
  repeat split.
  - rewrite Hc, <- map_app, <- seq_app. reflexivity.
  - apply blobs_NoDup.
  - apply in_or_app. now right.
  - intro Hin. apply in_blobs in H0.
    apply in_app_or in Hin as [Hin | Hin];
      [apply Hrels in Hin | apply in_app_or in Hin as [Hin | Hin]; apply Hold in Hin]; lia.
  - intros u Hu. apply in_app_or in Hu as [Hu | Hu]; [| now left].
    right. apply in_or_app. destruct (Hdone u Hu) as [Hp | Hp]; [right | now left].
    apply in_or_app. now left.
  - intros u Hu. apply in_or_app. left.
    apply in_app_or in Hu as [Hu | Hu]; [now apply Hrel |].
    apply in_app_or in Hu as [Hu | Hu]; now apply Hlive.
Qed.

Lemma urls_accounted_reachable (e : Env) : reachable e -> urls_accounted e.
Proof.
  induction 1 as [| e ev Hr IH Hen].
  - unfold urls_accounted. simpl.
    split; [reflexivity |]. split; [apply NoDup_nil |].
    split; [intros u [] |]. split; intros u [].
  - assert (Hquiet : (forall tf, ev <> FileChange tf) -> urls_accounted (dispatch ev e)).
    { intro Hnf. destruct (dispatch_quiet ev e Hnf) as [cs [-> Hq]].
      now apply urls_accounted_quiet. }
    destruct ev as [tf | id value | | files io |];
      [now apply urls_accounted_selection | | | |];
      apply Hquiet; intros tf; discriminate.
Qed.

End ObjectURLs.

(** X9. No object URL leaks: in every state the component reaches, each URL
    it has obtained from [URL.createObjectURL] is either one of the previews
    now shown or has been handed to [URL.revokeObjectURL]. *)
Theorem no_object_url_leaks `{Host} (e : App.Env) (u : App.ObjectURL) :
  reachable e ->
  In u (created (App.log e)) ->
  In u (App.imagePreviews (App.state e)) \/ In u (releases (App.log e)).
Proof.
  intros Hr Hu.
  destruct (urls_accounted_reachable e Hr) as (_ & _ & _ & Hdone & _).
  now apply Hdone.
Qed.

(** After a second selection the URL of the first one has been released. *)
Lemma no_object_url_leaks_witness :
  let e := App.dispatch (H := taipei) (App.FileChange (Some [photo2])) one_selected in
  In (App.blob 0) (App.imagePreviews (App.state e)) \/ In (App.blob 0) (releases (App.log e)).
Proof.
  intro e.
  apply (no_object_url_leaks (H := taipei) e (App.blob 0)).
  - apply reachable_dispatch; [| reflexivity].
    apply reachable_dispatch; [apply reachable_initial | reflexivity].
  - vm_compute. now left.
Defined.

(** X10. The previews shown are usable: in every state the component
    reaches there is one preview per selected file, no two previews are the
    same URL, and each is a URL the component created and has not released
    (a host gives a fresh URL at every [URL.createObjectURL]). *)
Theorem shown_previews_are_live `{Host} (e : App.Env) :
  reachable e ->
  List.length (App.imagePreviews (App.state e))
  = List.length (App.selectedFiles (App.state e))
  /\ NoDup (App.imagePreviews (App.state e))
  /\ forall u, In u (App.imagePreviews (App.state e)) ->
       In u (created (App.log e)) /\ ~ In u (releases (App.log e)).
Proof.
  intro Hr.
  destruct (urls_accounted_reachable e Hr) as (_ & Hnd & Hlive & _ & _).
  split; [now apply one_preview_per_file |]. split; assumption.
Qed.

Lemma shown_previews_are_live_witness :
  let e := App.dispatch (H := taipei) (App.FileChange (Some [photo2; photo])) one_selected in
  List.length (App.imagePreviews (App.state e))
  = List.length (App.selectedFiles (App.state e))
  /\ NoDup (App.imagePreviews (App.state e))
  /\ forall u, In u (App.imagePreviews (App.state e)) ->
       In u (created (App.log e)) /\ ~ In u (releases (App.log e)).
Proof.
  intro e.
  apply (shown_previews_are_live (H := taipei) e).
  apply reachable_dispatch; [| reflexivity].
  apply reachable_dispatch; [apply reachable_initial | reflexivity].
Defined.

(** X11. Teardown releases what is left: when the component is removed in a
    state it has reached, the cleanup of its effect hands every preview still
    shown to [URL.revokeObjectURL], so that every object URL the component
    ever created has been released. *)
Theorem teardown_releases_every_url `{Host} (e : App.Env) (u : App.ObjectURL) :
  reachable e ->
  In u (created (App.log e)) ->
  made_since e (unmount e)
  = map App.Call_revokeObjectURL (App.imagePreviews (App.state e))
  /\ In u (releases (App.log (unmount e))).
Proof.
  intros Hr Hu. unfold unmount, App.effect_cleanup.
  rewrite forEach_revoke. cbn [snd].
  split; [apply made_since_after_calls |].
  rewrite log_after_calls, releases_app, releases_revokes.
  apply in_or_app.
  destruct (urls_accounted_reachable e Hr) as (_ & _ & _ & Hdone & _).
  destruct (Hdone u Hu) as [Hp | Hp]; [now right | now left].
Qed.

Lemma teardown_releases_every_url_witness :
  made_since one_selected (unmount one_selected)
  = map App.Call_revokeObjectURL (App.imagePreviews (App.state one_selected))
  /\ In (App.blob 0) (releases (App.log (unmount one_selected))).
Proof.
  apply (teardown_releases_every_url (H := taipei) one_selected (App.blob 0)).
  - apply reachable_dispatch; [apply reachable_initial | reflexivity].
  - vm_compute. now left.
Defined.

(** ** The link *)

Section Link.
Context `{Host}.
Import App.

Lemma parse_query_finalUrl (params : list (string * string)) :
  URL.parse_query (URL.query (finalUrl params)) = params.
Proof.
  unfold URL.query, finalUrl.
  rewrite (cut_not_found "#"
             ("https://www.google.com/calendar/render?" ++ URLSearchParams.toString params)).
  2:{ rewrite occurs_app, toString_no_hash. reflexivity. }
  cbn [fst].
  change "https://www.google.com/calendar/render?"
    with ("https://www.google.com/calendar/render" ++ "?").
  rewrite append_assoc.
  change ("?" ++ URLSearchParams.toString params)
    with (String "?" (URLSearchParams.toString params)).
  rewrite cut_found by reflexivity.
  cbn [snd]. apply parse_query_toString.
Qed.

(** A text as it can be pasted anywhere: ASCII bytes and no space. *)
Lemma encode_byte_portable (c : ascii) :
  plain (URLSearchParams.encode (String c EmptyString)) = true
  /\ occurs " " (URLSearchParams.encode (String c EmptyString)) = false.
Proof. destruct c as [[] [] [] [] [] [] [] []]; split; reflexivity. Qed.

Lemma encode_portable (s : string) :
  plain (URLSearchParams.encode s) = true
  /\ occurs " " (URLSearchParams.encode s) = false.
Proof.
  induction s as [| c s [IHp IHo]]; [split; reflexivity |].
  rewrite encode_cons, plain_app, occurs_app, IHp, IHo.
  destruct (encode_byte_portable c) as [-> ->]. split; reflexivity.
Qed.

Lemma toString_portable (params : list (string * string)) :
  plain (URLSearchParams.toString params) = true
  /\ occurs " " (URLSearchParams.toString params) = false.
Proof.
  induction params as [| [k v] r [IHp IHo]]; [split; reflexivity |].
  destruct (encode_portable k) as [Hk Hk'], (encode_portable v) as [Hv Hv'].
  destruct r as [| p r].
  - cbn [URLSearchParams.toString].
    rewrite !plain_app, !occurs_app, Hk, Hk', Hv, Hv'. split; reflexivity.
  - rewrite toString_cons by discriminate.
    rewrite !plain_app, !occurs_app, Hk, Hk', Hv, Hv'.
    cbn [plain occurs]. rewrite IHp, IHo. split; reflexivity.
Qed.


Lemma link_after_quiet (e : Env) (cs : list Call) :
  existsb sets_link cs = false ->
  calendarLink (state (after_calls e cs)) = calendarLink (state e).
Proof.
  revert e. induction cs as [| c cs IH]; simpl; intros e Hq; [reflexivity |].
  apply orb_false_iff in Hq as [Hc Hcs]. rewrite (IH _ Hcs).
  destruct c; try discriminate Hc; reflexivity.
Qed.

Lemma link_opened_quiet (e : Env) (cs : list Call) :
  existsb sets_link cs = false -> link_opened e -> link_opened (after_calls e cs).
Proof.
  intros Hq Hinv. unfold link_opened in *.
  destruct Hinv as [Hl | Hl]; rewrite (link_after_quiet e cs Hq).
  - now left.
  - right. rewrite log_after_calls. apply in_or_app. now left.
Qed.

Lemma link_opened_cleared (e : Env) (a b : list Call) :
  existsb sets_link b = false ->
  link_opened (after_calls e (a ++ Call_setCalendarLink "" :: b)).
Proof.
  intro Hq. left.
  change (Call_setCalendarLink "" :: b) with ([Call_setCalendarLink ""] ++ b)%list.
  rewrite app_assoc, after_calls_app, (link_after_quiet _ b Hq).
  rewrite after_calls_app. reflexivity.
Qed.

Lemma link_opened_generated (e : Env) (a b : list Call) (url : string) (isManual : bool) :
  existsb sets_link b = false ->
  link_opened (after_calls e (a ++ link_calls url isManual ++ b)).
Proof.
  intro Hq. right.
  rewrite app_assoc, after_calls_app, (link_after_quiet _ b Hq).
  rewrite <- after_calls_app, log_after_calls.
  rewrite after_calls_app.
  replace (calendarLink (state (after_calls (after_calls e a) (link_calls url isManual))))
    with url by reflexivity.
  apply in_or_app. right. apply in_or_app. left. apply in_or_app. right.
  unfold link_calls. right. now left.
Qed.

Lemma sets_link_revokes (l : list ObjectURL) :
  existsb sets_link (map Call_revokeObjectURL l) = false.
Proof. induction l as [| u l IH]; simpl; [reflexivity | exact IH]. Qed.

Lemma sets_link_creations (n : nat) (files : list File) :
  existsb sets_link (creations n files) = false.
Proof.
  revert n. induction files as [| f r IH]; intro n; simpl; [reflexivity | apply IH].
Qed.

Lemma link_opened_dispatch (ev : Event) (e : Env) :
  link_opened e -> link_opened (dispatch ev e).
Proof.
  intro Hinv. destruct ev as [tf | id value | | files io |].
  - rewrite dispatch_FileChange.
    set (files := match tf with Some l => l | None => [] end).
    set (old := imagePreviews (state e)).
    apply (link_opened_cleared e [Call_setMessage None]
             (Call_setSelectedFiles files
              :: map Call_revokeObjectURL old ++ creations (next_blob e) files
                 ++ [Call_setImagePreviews (fresh_urls (next_blob e) files)]
                 ++ map Call_revokeObjectURL old)%list).
    cbn [existsb sets_link orb].
    rewrite !existsb_app, !sets_link_revokes, sets_link_creations. reflexivity.
  - rewrite dispatch_FormChange. now apply link_opened_quiet.
  - destruct (selectedFiles (state e)) as [| f r] eqn:Ef.
    + rewrite dispatch_ProcessClick_no_files by exact Ef. now apply link_opened_quiet.
    + rewrite dispatch_ProcessClick_files by congruence.
      now apply (link_opened_cleared e [Call_setIsLoading true; Call_setMessage None] []).
  - destruct (dispatch_ProcessSettled files io e)
      as [[t [_ ->]] | [[v [t [_ ->]]] | [[v [m [_ [_ ->]]]] | [v [url [_ [_ ->]]]]]]];
      try (now apply link_opened_quiet).
    now apply (link_opened_generated e [Call_setFormData v] [Call_setIsLoading false]).
  - destruct (dispatch_ManualClick e) as [-> | [[m [_ ->]] | [url [_ ->]]]];
      [exact Hinv | now apply link_opened_quiet |].
    rewrite <- (app_nil_r (link_calls url true)).
    now apply (link_opened_generated e [] []).
Qed.

(** What a link the builder sets was made of. *)
Lemma builder_link_record (data : JSValue) (isManual : bool) (e : Env) (url : string) :
  In (Call_setCalendarLink url)
     (made_since e (snd (generateCalendarLink data isManual e))) ->
  exists parts ts te details location,
    titleParts (JS.Get data "area") (JS.Get data "name") (JS.Get data "phone")
    = Normal parts
    /\ formatDateTime (JS.Get data "date") (JS.Get data "startTime") = Some (compact ts)
    /\ formatDateTime (JS.Get data "date") (JS.Get data "endTime") = Some (compact te)
    /\ eventDetails (JS.Get data "address") (JS.Get data "notes") = Normal details
    /\ JS.ToString (JS.Get data "address") = Normal location
    /\ url = finalUrl (link_params (eventTitle parts) (compact ts) (compact te)
                                   details location).
Proof.
  assert (Hnil : made_since e e = []).
  { change e with (after_calls e []) at 2. apply made_since_after_calls. }
  assert (Hthrow : forall t, generateCalendarLink data isManual e = (Throw t, e) ->
            In (Call_setCalendarLink url)
               (made_since e (snd (generateCalendarLink data isManual e))) -> False).
  { intros t Ht. rewrite Ht. cbn [snd]. rewrite Hnil. intros []. }
  assert (Hmsg : forall m,
            generateCalendarLink data isManual e
            = (Normal tt, after_calls e [Call_setMessage (Some m)]) ->
            In (Call_setCalendarLink url)
               (made_since e (snd (generateCalendarLink data isManual e))) -> False).
  { intros m Hr. rewrite Hr. cbn [snd]. rewrite made_since_after_calls.
    intros [E | []]. discriminate E. }
  destruct (coercible data) eqn:Hc.
  2:{ intro Hin. exfalso. eapply Hthrow; [| exact Hin].
      now apply builder_throws_on_nullish. }
  destruct (negb (JS.truthy (JS.Get data "date"))
            || negb (JS.truthy (JS.Get data "startTime"))
            || negb (JS.truthy (JS.Get data "endTime"))) eqn:Hm.
  { intro Hin. exfalso. eapply Hmsg; [| exact Hin]. now apply builder_missing. }
  destruct (not_ (formatDateTime (JS.Get data "date") (JS.Get data "startTime"))
            || not_ (formatDateTime (JS.Get data "date") (JS.Get data "endTime")))
    eqn:Hf.
  { intro Hin. exfalso. eapply Hmsg; [| exact Hin]. now apply builder_invalid. }
  apply orb_false_iff in Hf as [Hs He].
  destruct (formatDateTime (JS.Get data "date") (JS.Get data "startTime"))
    as [s |] eqn:Es; [| discriminate Hs].
  destruct (formatDateTime (JS.Get data "date") (JS.Get data "endTime"))
    as [n |] eqn:En; [| discriminate He].
  simpl in Hs, He.
  destruct (proj1 (formatDateTime_Some _ _ _) Es) as (d1 & t1 & ts & _ & _ & _ & Hts).
  destruct (proj1 (formatDateTime_Some _ _ _) En) as (d2 & t2 & te & _ & _ & _ & Hte).
  destruct (titleParts (JS.Get data "area") (JS.Get data "name") (JS.Get data "phone"))
    as [parts | t] eqn:Et.
  2:{ intro Hin. exfalso. eapply (Hthrow t); [| exact Hin].
      destruct data; try discriminate Hc; unfold generateCalendarLink;
        rewrite Hm, Es, En; cbn [not_]; rewrite Hs, He; cbn [orb];
        unfold bind, lift; rewrite Et; reflexivity. }
  destruct (eventDetails (JS.Get data "address") (JS.Get data "notes"))
    as [details | t] eqn:Ed.
  2:{ intro Hin. exfalso. eapply (Hthrow t); [| exact Hin].
      destruct data; try discriminate Hc; unfold generateCalendarLink;
        rewrite Hm, Es, En; cbn [not_]; rewrite Hs, He; cbn [orb];
        unfold bind, lift; rewrite Et, Ed; reflexivity. }
  destruct (JS.ToString (JS.Get data "address")) as [location | t] eqn:El.
  2:{ intro Hin. exfalso. eapply (Hthrow t); [| exact Hin].
      destruct data; try discriminate Hc; unfold generateCalendarLink;
        rewrite Hm, Es, En; cbn [not_]; rewrite Hs, He; cbn [orb];
        unfold bind, lift; rewrite Et, Ed, El; reflexivity. }
  rewrite (builder_links data isManual e s n parts details location
             Hc Hm Es En Hs He Et Ed El).
  cbn [snd]. rewrite made_since_after_calls.
  intros [E | [E | [E | []]]]; try discriminate E.
  injection E as <-. subst s n.
  exists parts, ts, te, details, location. repeat split; reflexivity.
Qed.

(** The builder ends the same way in both modes and in every state: how it
    ends is decided by the record alone. *)
Lemma builder_modes (data : JSValue) :
  (exists t, forall isManual e, generateCalendarLink data isManual e = (Throw t, e))
  \/ (exists m, InvalidScheduleError m
        /\ forall isManual e,
             generateCalendarLink data isManual e
             = (Normal tt, after_calls e [Call_setMessage (Some m)]))
  \/ (exists url, Str.is_empty url = false
        /\ forall isManual e,
             generateCalendarLink data isManual e
             = (Normal tt, after_calls e (link_calls url isManual))).
Proof.
  destruct (coercible data) eqn:Hc.
  2:{ left. eexists. intros. now apply builder_throws_on_nullish. }
  destruct (negb (JS.truthy (JS.Get data "date"))
            || negb (JS.truthy (JS.Get data "startTime"))
            || negb (JS.truthy (JS.Get data "endTime"))) eqn:Hm.
  { right; left. exists missing_fields. split; [now left |].
    intros. now apply builder_missing. }
  destruct (not_ (formatDateTime (JS.Get data "date") (JS.Get data "startTime"))
            || not_ (formatDateTime (JS.Get data "date") (JS.Get data "endTime")))
    eqn:Hf.
  { right; left. exists invalid_format. split; [now right |].
    intros. now apply builder_invalid. }
  apply orb_false_iff in Hf as [Hs He].
  destruct (formatDateTime (JS.Get data "date") (JS.Get data "startTime"))
    as [s |] eqn:Es; [| discriminate Hs].
  destruct (formatDateTime (JS.Get data "date") (JS.Get data "endTime"))
    as [n |] eqn:En; [| discriminate He].
  simpl in Hs, He.
  destruct (titleParts (JS.Get data "area") (JS.Get data "name") (JS.Get data "phone"))
    as [parts | t] eqn:Et.
  2:{ left. exists t. intros isManual e.
      destruct data; try discriminate Hc; unfold generateCalendarLink;
        rewrite Hm, Es, En; cbn [not_]; rewrite Hs, He; cbn [orb];
        unfold bind, lift; rewrite Et; reflexivity. }
  destruct (eventDetails (JS.Get data "address") (JS.Get data "notes"))
    as [details | t] eqn:Ed.
  2:{ left. exists t. intros isManual e.
      destruct data; try discriminate Hc; unfold generateCalendarLink;
        rewrite Hm, Es, En; cbn [not_]; rewrite Hs, He; cbn [orb];
        unfold bind, lift; rewrite Et, Ed; reflexivity. }
  destruct (JS.ToString (JS.Get data "address")) as [location | t] eqn:El.
  2:{ left. exists t. intros isManual e.
      destruct data; try discriminate Hc; unfold generateCalendarLink;
        rewrite Hm, Es, En; cbn [not_]; rewrite Hs, He; cbn [orb];
        unfold bind, lift; rewrite Et, Ed, El; reflexivity. }
  right; right.
  exists (finalUrl (link_params (eventTitle parts) s n details location)).
  split; [reflexivity |].
  intros isManual e. eapply builder_links; eassumption.
Qed.

End Link.

(** X12. The link shown was opened: in every state the component reaches,
    the link it displays is either none or a link it has handed to
    [window.open] with the target [_blank]; a link never appears in the form
    without having been opened in a new browsing context. *)
Theorem shown_link_was_opened `{Host} (e : App.Env) :
  reachable e ->
  App.calendarLink (App.state e) = ""
  \/ In (App.Call_window_open (App.calendarLink (App.state e)) "_blank") (App.log e).
Proof.
  induction 1 as [| e ev Hr IH Hen]; [now left |].
  now apply link_opened_dispatch.
Qed.

Lemma shown_link_was_opened_witness :
  App.calendarLink (App.state linked_by_hand) = ""
  \/ In (App.Call_window_open (App.calendarLink (App.state linked_by_hand)) "_blank")
        (App.log linked_by_hand).
Proof.
  apply (shown_link_was_opened (H := taipei) linked_by_hand).
  apply reachable_dispatch; [| reflexivity].
  apply reachable_dispatch; [apply reachable_initial | reflexivity].
Defined.

(** X13. A generated link is the calendar template filled from the record:
    whatever the record and the mode, a link the builder sets is the render
    address of the calendar followed by a query that reads back as exactly
    six parameters in a fixed order, [action] = TEMPLATE, [text] the event
    title, [dates] the two stamps around a slash, [details] the details
    text, [location] the address as printed, and [ctz] = Asia/Taipei; the
    percent-encoding loses nothing of them. *)
Theorem link_has_six_parameters `{Host}
    (data : JSValue) (isManual : bool) (e : App.Env) (url : string) :
  In (App.Call_setCalendarLink url)
     (made_since e (snd (App.generateCalendarLink data isManual e))) ->
  exists query parts ts te details location,
    App.titleParts (JS.Get data "area") (JS.Get data "name") (JS.Get data "phone")
    = Normal parts
    /\ App.formatDateTime (JS.Get data "date") (JS.Get data "startTime")
       = Some (compact ts)
    /\ App.formatDateTime (JS.Get data "date") (JS.Get data "endTime")
       = Some (compact te)
    /\ App.eventDetails (JS.Get data "address") (JS.Get data "notes") = Normal details
    /\ JS.ToString (JS.Get data "address") = Normal location
    /\ url = "https://www.google.com/calendar/render?" ++ query
    /\ URL.parse_query (URL.query url)
       = [("action", "TEMPLATE");
          ("text", URLSearchParams.USVString (App.eventTitle parts));
          ("dates", compact ts ++ "/" ++ compact te);
          ("details", URLSearchParams.USVString details);
          ("location", URLSearchParams.USVString location);
          ("ctz", "Asia/Taipei")].
Proof.
  intro Hin.
  destruct (builder_link_record data isManual e url Hin)
    as (parts & ts & te & details & location & Et & Es & En & Ed & El & ->).
  eexists. exists parts, ts, te, details, location.
  repeat (split; [eassumption |]).
  split; [reflexivity |].
  rewrite parse_query_finalUrl. unfold App.link_params, URLSearchParams.create.
  cbn [map]. repeat f_equal.
  apply USVString_plain_all.
  rewrite !plain_app, !plain_compact. reflexivity.
Qed.

(** The link generated by hand once the date is typed. *)
Lemma link_has_six_parameters_witness :
  let data := App.formData (App.state date_typed) in
  let url := App.calendarLink (App.state linked_by_hand) in
  exists query parts ts te details location,
    App.titleParts (H := taipei)
      (JS.Get data "area") (JS.Get data "name") (JS.Get data "phone") = Normal parts
    /\ App.formatDateTime (H := taipei) (JS.Get data "date") (JS.Get data "startTime")
       = Some (compact ts)
    /\ App.formatDateTime (H := taipei) (JS.Get data "date") (JS.Get data "endTime")
       = Some (compact te)
    /\ App.eventDetails (H := taipei) (JS.Get data "address") (JS.Get data "notes")
       = Normal details
    /\ JS.ToString (H := taipei) (JS.Get data "address") = Normal location
    /\ url = "https://www.google.com/calendar/render?" ++ query
    /\ URL.parse_query (URL.query url)
       = [("action", "TEMPLATE");
          ("text", URLSearchParams.USVString (App.eventTitle parts));
          ("dates", compact ts ++ "/" ++ compact te);
          ("details", URLSearchParams.USVString details);
          ("location", URLSearchParams.USVString location);
          ("ctz", "Asia/Taipei")].
Proof.
  intros data url.
  apply (link_has_six_parameters (H := taipei) data true date_typed url).
  vm_compute. now left.
Defined.

(** X14. A generated link can be pasted anywhere: whatever the record holds
    (Chinese text, spaces, line breaks), a link the builder sets consists of
    ASCII bytes only and holds no space. *)
Theorem link_is_portable `{Host}
    (data : JSValue) (isManual : bool) (e : App.Env) (url : string) :
  In (App.Call_setCalendarLink url)
     (made_since e (snd (App.generateCalendarLink data isManual e))) ->
  plain url = true /\ occurs " " url = false.
Proof.
  intro Hin.
  destruct (builder_link_shape data isManual e url Hin)
    as (parts & start_ & end_ & details & location & _ & ->).
  unfold App.finalUrl. rewrite plain_app, occurs_app.
  destruct (toString_portable
              (App.link_params (App.eventTitle parts) start_ end_ details location))
    as [-> ->].
  split; reflexivity.
Qed.

Lemma link_is_portable_witness :
  plain (App.calendarLink (App.state linked_by_hand)) = true
  /\ occurs " " (App.calendarLink (App.state linked_by_hand)) = false.
Proof.
  apply (link_is_portable (H := taipei) (App.formData (App.state date_typed)) true
           date_typed (App.calendarLink (App.state linked_by_hand))).
  vm_compute. now left.
Defined.

(** X15. The mode changes the message and nothing else: on the same record
    and in the same state the builder ends the same way in automatic and in
    manual mode, with the same calls apart from the message; either both
    runs end in the same state (a throw or a refusal), or both generate the
    same non-empty link and differ in the success message alone. *)
Theorem mode_changes_only_the_message `{Host} (data : JSValue) (e : App.Env) :
  let auto := App.generateCalendarLink data false e in
  let manual := App.generateCalendarLink data true e in
  fst auto = fst manual
  /\ filter (fun c => negb (is_setMessage c)) (made_since e (snd auto))
     = filter (fun c => negb (is_setMessage c)) (made_since e (snd manual))
  /\ (snd auto = snd manual
      \/ exists url,
           url <> ""
           /\ App.calendarLink (App.state (snd auto)) = url
           /\ App.calendarLink (App.state (snd manual)) = url
           /\ App.message (App.state (snd auto)) = Some App.auto_success
           /\ App.message (App.state (snd manual)) = Some App.manual_success).
Proof.
  intros auto manual. subst auto manual.
  destruct (builder_modes data) as [[t Ht] | [[m [_ Hm]] | [url [Hu Hl]]]].
  - rewrite !Ht. repeat split. now left.
  - rewrite !Hm. repeat split. now left.
  - rewrite !Hl. cbn [fst snd]. rewrite !made_since_after_calls.
    split; [reflexivity |]. split; [reflexivity |].
    right. exists url. repeat split. intros ->. discriminate Hu.
Qed.

(** ** A settled extraction whose record gives no link *)

(** X16. An extracted record without a date or a time is stored and then
    refused: when the client returns a record whose date, start time or end
    time is missing or empty, the form takes the record all the same, the
    message is the refusal for missing fields, no link is set or opened, and
    the loading flag is cleared. *)
Theorem record_without_schedule_is_stored_and_refused `{Host}
    (files : list App.File) (io : App.Awaited) (e : App.Env) (v : JSValue) :
  extraction io files = Normal v ->
  coercible v = true ->
  JS.truthy (JS.Get v "date") = false \/ JS.truthy (JS.Get v "startTime") = false
  \/ JS.truthy (JS.Get v "endTime") = false ->
  let e' := App.dispatch (App.ProcessSettled files io) e in
  made_since e e'
  = [App.Call_setFormData v; App.Call_setMessage (Some App.missing_fields);
     App.Call_setIsLoading false]
  /\ App.formData (App.state e') = v
  /\ App.message (App.state e') = Some App.missing_fields
  /\ App.calendarLink (App.state e') = App.calendarLink (App.state e)
  /\ App.isLoading (App.state e') = false.
Proof.
  intros Ex Hc Hmiss e'.
  assert (Hm : negb (JS.truthy (JS.Get v "date"))
               || negb (JS.truthy (JS.Get v "startTime"))
               || negb (JS.truthy (JS.Get v "endTime")) = true).
  { destruct Hmiss as [-> | [-> | ->]]; cbn [negb]; rewrite ?orb_true_r; reflexivity. }
  assert (E : e' = App.after_calls e
                     [App.Call_setFormData v; App.Call_setMessage (Some App.missing_fields);
                      App.Call_setIsLoading false]).
  { subst e'. pose proof (resume_run files io e) as Hrun.
    rewrite Ex, (builder_missing v false _ Hc Hm) in Hrun.
    rewrite <- !after_calls_app in Hrun.
    apply dispatch_no_previews; [exact Hrun | reflexivity]. }
  rewrite E. split; [apply made_since_after_calls |]. repeat split.
Qed.

(** The service answers with two of the eight fields. *)
Lemma record_without_schedule_is_stored_and_refused_witness :
  let io := {| App.fileToBase64 := fun _ => Normal "aGVsbG8=";
               App.generateContent := answers partial_body |} in
  let v := JSObject [("area", JSString "中山區"); ("name", JSString "王小明")] in
  let e' := App.dispatch (H := taipei) (App.ProcessSettled [photo] io) one_selected in
  made_since one_selected e'
  = [App.Call_setFormData v; App.Call_setMessage (Some App.missing_fields);
     App.Call_setIsLoading false]
  /\ App.formData (App.state e') = v
  /\ App.message (App.state e') = Some App.missing_fields
  /\ App.calendarLink (App.state e') = App.calendarLink (App.state one_selected)
  /\ App.isLoading (App.state e') = false.
Proof.
  intros io v.
  apply (record_without_schedule_is_stored_and_refused (H := taipei)
           [photo] io one_selected v).
  - vm_compute. reflexivity.
  - reflexivity.
  - left. reflexivity.
Defined.

(** X17. A response that is JSON but no record ends in the failure message
    with the form overwritten: when the client returns [null] (the body
    [null] parses), the form record becomes [null], the builder throws on
    it, and the [catch] block reports the failure; no link is set. *)
Theorem null_record_overwrites_the_form `{Host}
    (files : list App.File) (io : App.Awaited) (e : App.Env) (v : JSValue) :
  extraction io files = Normal v ->
  coercible v = false ->
  let e' := App.dispatch (App.ProcessSettled files io) e in
  made_since e e'
  = [App.Call_setFormData v;
     App.Call_setMessage (Some (caught_message (ErrorObject TypeError_destructure)));
     App.Call_setIsLoading false]
  /\ App.formData (App.state e') = v
  /\ App.calendarLink (App.state e') = App.calendarLink (App.state e)
  /\ App.isLoading (App.state e') = false.
Proof.
  intros Ex Hc e'.
  assert (E : e' = App.after_calls e
                     [App.Call_setFormData v;
                      App.Call_setMessage
                        (Some (caught_message (ErrorObject TypeError_destructure)));
                      App.Call_setIsLoading false]).
  { subst e'. pose proof (resume_run files io e) as Hrun.
    rewrite Ex, (builder_throws_on_nullish v false _ Hc) in Hrun.
    rewrite <- !after_calls_app in Hrun.
    apply dispatch_no_previews; [exact Hrun | reflexivity]. }
  rewrite E. split; [apply made_since_after_calls |]. repeat split.
Qed.

Lemma null_record_overwrites_the_form_witness :
  let io := {| App.fileToBase64 := fun _ => Normal "aGVsbG8=";
               App.generateContent := answers "null" |} in
  let e' := App.dispatch (H := taipei) (App.ProcessSettled [photo] io) one_selected in
  made_since one_selected e'
  = [App.Call_setFormData JSNull;
     App.Call_setMessage
       (Some (caught_message (ErrorObject (TypeError_destructure (Host := taipei)))));
     App.Call_setIsLoading false]
  /\ App.formData (App.state e') = JSNull
  /\ App.calendarLink (App.state e') = App.calendarLink (App.state one_selected)
  /\ App.isLoading (App.state e') = false.
Proof.
  intro io.
  apply (null_record_overwrites_the_form (H := taipei) [photo] io one_selected JSNull).
  - vm_compute. reflexivity.
  - reflexivity.
Defined.

(** X18. A response that carries no text fails with the generic failure: the
    call is fulfilled, reading [trim] off the missing text throws a
    [TypeError] inside the [try] block, and the [catch] block replaces it by
    the generic failure (the message of a host's [TypeError] does not speak
    of the key). *)
Theorem response_without_text_fails_generic `{Host}
    (generateContent : geminiService.Remote)
    (imageParts : list geminiService.InlineData) :
  geminiService.no_apiKey = false ->
  generateContent (geminiService.request_for imageParts) = Normal None ->
  Str.includes TypeError_read_trim "API key not valid" = false ->
  geminiService.extractScheduleFromImages generateContent imageParts
  = Throw GenericExtractionError.
Proof.
  intros Hkey Hremote Hmsg.
  unfold geminiService.extractScheduleFromImages, geminiService.call_and_parse.
  rewrite Hkey, Hremote. cbn [cbind]. unfold geminiService.rethrow.
  now rewrite Hmsg.
Qed.

Lemma response_without_text_fails_generic_witness :
  geminiService.extractScheduleFromImages (H := taipei) (fun _ => Normal None) []
  = Throw GenericExtractionError.
Proof.
  apply (response_without_text_fails_generic (H := taipei) (fun _ => Normal None) []);
    reflexivity.
Defined.

(** X19. Fields the record omits: the title treats an omitted area, name
    and phone like empty ones, but an omitted address is printed.  For a
    record with a valid date and times that has no area, name, phone or
    address and no notes, the builder generates a link whose title is the
    fallback, whose details read 服務地址：undefined and whose location is
    the text undefined. *)
Theorem omitted_address_is_printed `{Host}
    (data : JSValue) (isManual : bool) (e : App.Env) :
  coercible data = true ->
  JS.truthy (JS.Get data "date") = true ->
  JS.truthy (JS.Get data "startTime") = true ->
  JS.truthy (JS.Get data "endTime") = true ->
  parseable (JS.Get data "date") (JS.Get data "startTime") ->
  parseable (JS.Get data "date") (JS.Get data "endTime") ->
  JS.Get data "area" = JSUndefined ->
  JS.Get data "name" = JSUndefined ->
  JS.Get data "phone" = JSUndefined ->
  JS.Get data "address" = JSUndefined ->
  JS.truthy (JS.Get data "notes") = false ->
  exists url,
    App.generateCalendarLink data isManual e
    = (Normal tt, App.after_calls e (link_calls url isManual))
    /\ URL.searchParam url "text" = Some "【清潔排班】新預約"
    /\ URL.searchParam url "details" = Some "服務地址：undefined"
    /\ URL.searchParam url "location" = Some "undefined".
Proof.
  intros Hc Hd Hs He Ps Pe Ha Hn Hp Haddr Hnotes.
  destruct (App.formatDateTime (JS.Get data "date") (JS.Get data "startTime"))
    as [s |] eqn:Es.
  2:{ apply formatDateTime_None in Es. contradiction. }
  destruct (App.formatDateTime (JS.Get data "date") (JS.Get data "endTime"))
    as [n |] eqn:En.
  2:{ apply formatDateTime_None in En. contradiction. }
  eexists. split.
  - eapply (builder_links data isManual e s n "" "服務地址：undefined" "undefined").
    + exact Hc.
    + rewrite Hd, Hs, He. reflexivity.
    + exact Es.
    + exact En.
    + now apply formatDateTime_nonempty in Es.
    + now apply formatDateTime_nonempty in En.
    + rewrite Ha, Hn, Hp. reflexivity.
    + rewrite Haddr. unfold App.eventDetails. rewrite Hnotes. reflexivity.
    + rewrite Haddr. reflexivity.
  - rewrite !searchParam_finalUrl. repeat split.
Qed.

(** A record of a date and two times, nothing else. *)
Lemma omitted_address_is_printed_witness :
  let data := JSObject [("date", JSString "2024-05-10"); ("startTime", JSString "07:00");
                        ("endTime", JSString "09:00")] in
  exists url,
    App.generateCalendarLink (H := taipei) data false App.initialEnv
    = (Normal tt, App.after_calls App.initialEnv (link_calls url false))
    /\ URL.searchParam url "text" = Some "【清潔排班】新預約"
    /\ URL.searchParam url "details" = Some "服務地址：undefined"
    /\ URL.searchParam url "location" = Some "undefined".
Proof.
  intro data.
  apply (omitted_address_is_printed (H := taipei) data false App.initialEnv);
    try reflexivity.
  - exists "2024-05-10", "07:00", 1715295600000%Z. repeat split.
  - exists "2024-05-10", "09:00", 1715302800000%Z. repeat split.
Defined.

(** X20. After an automatic submission that generated a link, the form and
    the link agree: the form holds the extracted record, the link shown is
    the one generated from that record (the handler passes the record on
    itself and does not read the form, which it has only just set), and a
    manual submission made next generates the very same link again. *)
Theorem form_and_link_agree_after_extraction `{Host}
    (files : list App.File) (io : App.Awaited) (e : App.Env)
    (v : JSValue) (url : string) :
  extraction io files = Normal v ->
  let e2 := App.dispatch (App.ProcessSettled files io) e in
  In (App.Call_setCalendarLink url) (made_since e e2) ->
  App.formData (App.state e2) = v
  /\ App.calendarLink (App.state e2) = url
  /\ App.enabled (App.state e2) App.ManualClick = true
  /\ App.dispatch App.ManualClick e2 = App.after_calls e2 (link_calls url true).
Proof.
  intros Ex e2 Hin.
  pose proof (resume_run files io e) as Hrun. rewrite Ex in Hrun.
  destruct (builder_modes v) as [[t Ht] | [[m [_ Hm]] | [url0 [Hu Hl]]]].
  - exfalso. rewrite Ht, <- after_calls_app in Hrun.
    apply (dispatch_no_previews (App.ProcessSettled files io)) in Hrun; [| reflexivity].
    subst e2. rewrite Hrun, made_since_after_calls in Hin.
    destruct Hin as [E | [E | [E | []]]]; discriminate E.
  - exfalso. rewrite Hm, <- !after_calls_app in Hrun.
    apply (dispatch_no_previews (App.ProcessSettled files io)) in Hrun; [| reflexivity].
    subst e2. rewrite Hrun, made_since_after_calls in Hin.
    destruct Hin as [E | [E | [E | []]]]; discriminate E.
  - rewrite Hl, <- !after_calls_app in Hrun.
    apply (dispatch_no_previews (App.ProcessSettled files io)) in Hrun; [| destruct url0; reflexivity].
    assert (E2 : e2 = App.after_calls e
                        ([App.Call_setFormData v] ++ link_calls url0 false
                         ++ [App.Call_setIsLoading false])%list) by exact Hrun.
    rewrite E2, made_since_after_calls in Hin.
    assert (url = url0) as ->.
    { destruct Hin as [E | [E | [E | [E | [E | []]]]]]; try discriminate E.
      now injection E. }
    assert (Hform : App.formData (App.state e2) = v) by (rewrite E2; reflexivity).
    split; [exact Hform |]. split; [rewrite E2; reflexivity |].
    split; [rewrite E2; reflexivity |].
    apply dispatch_no_previews; [| destruct url0; reflexivity].
    cbn [App.handler]. unfold App.manualBtn_onClick. rewrite Hform, Hl. reflexivity.
Qed.

(** One photograph is selected, the service answers with the full record. *)
Lemma form_and_link_agree_after_extraction_witness :
  let e2 := App.dispatch (H := taipei) (App.ProcessSettled [photo] good_io) one_selected in
  let url := App.calendarLink (App.state e2) in
  App.formData (App.state e2) = JSObject full_props
  /\ App.calendarLink (App.state e2) = url
  /\ App.enabled (App.state e2) App.ManualClick = true
  /\ App.dispatch (H := taipei) App.ManualClick e2
     = App.after_calls e2 (link_calls url true).
Proof.
  intros e2 url.
  apply (form_and_link_agree_after_extraction (H := taipei) [photo] good_io one_selected
           (JSObject full_props) url).
  - vm_compute. reflexivity.
  - vm_compute. right. now left.
Defined.

(** ** What the form never shows *)

Section Status.
Context `{Host}.
Import App.

Lemma state_after_selection (target_files : option (list File)) (e : Env) :
  let files := match target_files with Some l => l | None => [] end in
  state (dispatch (FileChange target_files) e)
  = {| formData := formData (state e); selectedFiles := files;
       imagePreviews := fresh_urls (next_blob e) files;
       isLoading := isLoading (state e); message := None; calendarLink := "" |}.
Proof.
  intro files. rewrite dispatch_FileChange. fold files.
  rewrite !app_assoc, after_calls_app, state_after_revokes.
  rewrite after_calls_app.
  rewrite <- app_assoc, after_calls_app, after_calls_app.
  cbn [after_calls fold_left after_call state apply_call].
  rewrite state_after_creations, state_after_revokes. reflexivity.
Qed.

(** What holds of the status in every reachable state. *)
Lemma status_reachable (e : Env) :
  reachable e ->
  (isLoading (state e) = true ->
   calendarLink (state e) = "" /\ message (state e) = None)
  /\ (forall m, message (state e) = Some m -> isError m = false ->
        (m = auto_success \/ m = manual_success)
        /\ Str.is_empty (calendarLink (state e)) = false).
Proof.
  induction 1 as [| e ev Hr [IHl IHm] Hen].
  - split; [discriminate | intros m Hm; discriminate Hm].
  - destruct ev as [tf | id value | | files io |].
    + rewrite state_after_selection. cbn [isLoading message calendarLink].
      split; [intros _; split; reflexivity | intros m Hm; discriminate Hm].
    + rewrite dispatch_FormChange. exact (conj IHl IHm).
    + simpl in Hen. apply negb_true_iff in Hen.
      destruct (selectedFiles (state e)) as [| f r] eqn:Ef.
      * rewrite dispatch_ProcessClick_no_files by exact Ef.
        cbn [after_calls fold_left after_call state apply_call
             isLoading message calendarLink].
        rewrite Hen. split; [discriminate |].
        intros m Hm. injection Hm as <-. discriminate.
      * rewrite dispatch_ProcessClick_files by congruence.
        split; [intros _; split; reflexivity | intros m Hm; discriminate Hm].
    + destruct (dispatch_ProcessSettled files io e)
        as [[t [_ ->]] | [[v [t [_ ->]]] | [[v [m0 [_ [Hm0 ->]]]] | [v [url [_ [Hu ->]]]]]]];
        (split; [discriminate |]); intros m Hm; injection Hm as <-.
      * discriminate.
      * discriminate.
      * destruct Hm0 as [-> | ->]; discriminate.
      * intros _. split; [now left | exact Hu].
    + simpl in Hen. apply negb_true_iff in Hen.
      destruct (dispatch_ManualClick e) as [-> | [[m0 [Hm0 ->]] | [url [Hu ->]]]].
      * exact (conj IHl IHm).
      * cbn [after_calls fold_left after_call state apply_call
             isLoading message calendarLink].
        rewrite Hen. split; [discriminate |].
        intros m Hm. injection Hm as <-. destruct Hm0 as [-> | ->]; discriminate.
      * cbn [after_calls fold_left after_call state apply_call
             isLoading message calendarLink link_calls success_message].
        rewrite Hen. split; [discriminate |].
        intros m Hm. injection Hm as <-. intros _. split; [now right | exact Hu].
Qed.

End Status.

(** X21. Nothing stale is shown during an extraction: in every state the
    component reaches, while the loading flag is set the form shows no link
    and no status message; both were cleared when the submission began, a
    new selection clears them again, and nothing that sets them can happen
    before the extraction has settled. *)
Theorem extracting_shows_no_link_and_no_message `{Host} (e : App.Env) :
  reachable e ->
  App.isLoading (App.state e) = true ->
  App.calendarLink (App.state e) = "" /\ App.message (App.state e) = None.
Proof.
  intros Hr Hl. now apply (proj1 (status_reachable e Hr)).
Qed.

(** One photograph is selected and the submission has begun. *)
Lemma extracting_shows_no_link_and_no_message_witness :
  let e := App.dispatch (H := taipei) App.ProcessClick one_selected in
  App.calendarLink (App.state e) = "" /\ App.message (App.state e) = None.
Proof.
  intro e.
  apply (extracting_shows_no_link_and_no_message (H := taipei) e).
  - apply reachable_dispatch; [| reflexivity].
    apply reachable_dispatch; [apply reachable_initial | reflexivity].
  - reflexivity.
Defined.

(** X22. A success message comes with a link: in every state the component
    reaches, a status message that is not an error is one of the two success
    messages of the builder, and the form then shows a link. *)
Theorem success_message_comes_with_a_link `{Host} (e : App.Env) (m : App.Message) :
  reachable e ->
  App.message (App.state e) = Some m ->
  App.isError m = false ->
  (m = App.auto_success \/ m = App.manual_success)
  /\ App.calendarLink (App.state e) <> "".
Proof.
  intros Hr Hm He.
  destruct (proj2 (status_reachable e Hr) m Hm He) as [Hs Hl].
  split; [exact Hs |]. intro E. rewrite E in Hl. discriminate Hl.
Qed.

Lemma success_message_comes_with_a_link_witness :
  (App.manual_success = App.auto_success \/ App.manual_success = App.manual_success)
  /\ App.calendarLink (App.state linked_by_hand) <> "".
Proof.
  apply (success_message_comes_with_a_link (H := taipei) linked_by_hand App.manual_success).
  - apply reachable_dispatch; [| reflexivity].
    apply reachable_dispatch; [apply reachable_initial | reflexivity].
  - vm_compute. reflexivity.
  - reflexivity.
Defined.
